(** * CryptoLicenseSystem: hardware fingerprint, license issuing and
    license verification.

    Shallow embedding of [license-server/licensegenerator.cpp]
    ([LicenseGenerator::generateLicense]) and of the branch client
    ([HardwareLock::getHardwareFingerprint], [HardwareLock::verifyLicense]
    and the client's [main]), then of the queries behind the fingerprint
    ([getMacAddress], [executeCommand], [getDiskSerialNumber], [getCpuId])
    and of the [main] of the license server.

    Conventions.
    - [std::string] and [QString] are [string]: a sequence of 8-bit
      characters ([QString] is kept as its UTF-8 text, which is what
      [toStdString]/[fromStdString] exchange).
    - [unsigned char] buffers ([unsigned char sig[256]],
      [std::vector<unsigned char>], [QByteArray]) are [list byte].
    - [int] and [long] are [Z].
    - JSON objects ([nlohmann::json], [QJsonObject]) are [gmap string _].
    - The file system is explicit state; OpenSSL is an interface
      ([Class OpenSSL]) whose operations the code calls.
    - What the queries read of the machine (its interfaces, the answers of
      the processes it starts, its files, [__cpuid]) is a [Machine]. *)

From Stdlib Require Import ZArith NArith List Ascii String Bool Lia.
From Stdlib Require Import Strings.Byte.
From stdpp Require Import base option list strings gmap.

Local Open Scope string_scope.
Local Open Scope Z_scope.

(** ** Bytes and characters *)

Abbreviation uchar := Byte.byte.

#[global] Instance uchar_eq_dec : EqDecision uchar := Byte.byte_eq_dec.

(** [(int) b] for an [unsigned char b]. *)
Definition int_of_uchar (b : uchar) : Z := Z.of_N (Byte.to_N b).

(** [(unsigned char) z]: the value modulo 256. *)
Definition uchar_of_Z (z : Z) : uchar :=
  match Byte.of_N (Z.to_N (z mod 256)) with
  | Some b => b
  | None => Byte.x00
  end.

(** The bytes of a [std::string] ([c_str()] together with [length()],
    [QByteArray::fromStdString]). *)
Definition bytes_of_string (s : string) : list uchar := list_byte_of_string s.

Definition char_code (c : ascii) : Z := Z.of_N (N_of_ascii c).

(** ** SHA-256 (FIPS 180-4), the digest behind
    [QCryptographicHash::Sha256] and [EVP_sha256()] *)

Module SHA256.

Definition w32 (x : Z) : Z := x mod 2 ^ 32.
Definition add32 (x y : Z) : Z := w32 (x + y).
Definition not32 (x : Z) : Z := Z.lxor x 0xffffffff.
Definition rotr (n x : Z) : Z :=
  Z.lor (Z.shiftr x n) (w32 (Z.shiftl x (32 - n))).
Definition shr (n x : Z) : Z := Z.shiftr x n.
Definition xor3 (x y z : Z) : Z := Z.lxor (Z.lxor x y) z.

Definition Ch (x y z : Z) : Z := Z.lxor (Z.land x y) (Z.land (not32 x) z).
Definition Maj (x y z : Z) : Z :=
  xor3 (Z.land x y) (Z.land x z) (Z.land y z).
Definition Sigma0 (x : Z) : Z := xor3 (rotr 2 x) (rotr 13 x) (rotr 22 x).
Definition Sigma1 (x : Z) : Z := xor3 (rotr 6 x) (rotr 11 x) (rotr 25 x).
Definition sigma0 (x : Z) : Z := xor3 (rotr 7 x) (rotr 18 x) (shr 3 x).
Definition sigma1 (x : Z) : Z := xor3 (rotr 17 x) (rotr 19 x) (shr 10 x).

(** The constants are taken from the first primes: the words [K] are the
    first 32 bits of the fractional parts of their cube roots, the initial
    state of those of their square roots. *)
Definition is_prime (n : Z) : bool :=
  List.forallb (fun d => negb (n mod Z.of_nat d =? 0)) (seq 2 (Z.to_nat n - 2)).

Definition primes : list Z :=
  Eval vm_compute in List.filter is_prime (List.map Z.of_nat (seq 2 310)).

(** The integer cube root, by bisection between [lo] and [hi]. *)
Fixpoint cube_root (fuel : nat) (lo hi n : Z) : Z :=
  match fuel with
  | O => lo
  | S fuel' =>
      let mid := (lo + hi + 1) / 2 in
      if mid * mid * mid <=? n then cube_root fuel' mid hi n
      else cube_root fuel' lo (mid - 1) n
  end.

Definition K : list Z :=
  Eval vm_compute in
    List.map (fun p => w32 (cube_root 40 0 (2 ^ 35) (p * 2 ^ 96))) primes.

(** The eight working words. *)
Record state := State { ha : Z; hb : Z; hc : Z; hd : Z;
                        he : Z; hf : Z; hg : Z; hh : Z }.

Definition root_word (i : nat) : Z :=
  w32 (Z.sqrt (nth i primes 0 * 2 ^ 64)).

Definition H0 : state :=
  Eval vm_compute in
    State (root_word 0) (root_word 1) (root_word 2) (root_word 3)
          (root_word 4) (root_word 5) (root_word 6) (root_word 7).

(** Big-endian words. *)
Definition word_of_bytes (b0 b1 b2 b3 : uchar) : Z :=
  int_of_uchar b0 * 2 ^ 24 + int_of_uchar b1 * 2 ^ 16
  + int_of_uchar b2 * 2 ^ 8 + int_of_uchar b3.

Definition bytes_of_word (w : Z) : list uchar :=
  [uchar_of_Z (Z.shiftr w 24); uchar_of_Z (Z.shiftr w 16);
   uchar_of_Z (Z.shiftr w 8); uchar_of_Z w].

Fixpoint words_of_bytes (bs : list uchar) : list Z :=
  match bs with
  | b0 :: b1 :: b2 :: b3 :: rest => word_of_bytes b0 b1 b2 b3 :: words_of_bytes rest
  | _ => []
  end.

(** Padding: a 1 bit, zeros up to 56 modulo 64, the bit length on 64 bits. *)
Definition pad (msg : list uchar) : list uchar :=
  let len := Z.of_nat (List.length msg) in
  let zeros := Z.to_nat ((55 - len) mod 64) in
  let bits := len * 8 in
  msg ++ Byte.x80 :: List.repeat Byte.x00 zeros
      ++ bytes_of_word (w32 (Z.shiftr bits 32)) ++ bytes_of_word (w32 bits).

(** The message schedule, most recent word first. *)
Fixpoint schedule (n : nat) (rev_w : list Z) : list Z :=
  match n with
  | O => rev_w
  | S n' =>
      let w := add32 (add32 (sigma1 (nth 1 rev_w 0)) (nth 6 rev_w 0))
                     (add32 (sigma0 (nth 14 rev_w 0)) (nth 15 rev_w 0)) in
      schedule n' (w :: rev_w)
  end.

Definition round (s : state) (kw : Z * Z) : state :=
  let '(k, w) := kw in
  let t1 := add32 (add32 (add32 (hh s) (Sigma1 (he s)))
                         (add32 (Ch (he s) (hf s) (hg s)) k)) w in
  let t2 := add32 (Sigma0 (ha s)) (Maj (ha s) (hb s) (hc s)) in
  State (add32 t1 t2) (ha s) (hb s) (hc s) (add32 (hd s) t1) (he s) (hf s) (hg s).

Definition compress (h : state) (block : list Z) : state :=
  let w := List.rev (schedule 48 (List.rev block)) in
  let s := List.fold_left round (List.combine K w) h in
  State (add32 (ha h) (ha s)) (add32 (hb h) (hb s)) (add32 (hc h) (hc s))
        (add32 (hd h) (hd s)) (add32 (he h) (he s)) (add32 (hf h) (hf s))
        (add32 (hg h) (hg s)) (add32 (hh h) (hh s)).

(** One block is 16 words; [ws] holds a whole number of blocks. *)
Fixpoint blocks (fuel : nat) (h : state) (ws : list Z) : state :=
  match fuel with
  | O => h
  | S fuel' =>
      match ws with
      | [] => h
      | _ => blocks fuel' (compress h (firstn 16 ws)) (skipn 16 ws)
      end
  end.

Definition digest_bytes (s : state) : list uchar :=
  bytes_of_word (ha s) ++ bytes_of_word (hb s) ++ bytes_of_word (hc s)
  ++ bytes_of_word (hd s) ++ bytes_of_word (he s) ++ bytes_of_word (hf s)
  ++ bytes_of_word (hg s) ++ bytes_of_word (hh s).

Definition hash (msg : list uchar) : list uchar :=
  let ws := words_of_bytes (pad msg) in
  digest_bytes (blocks (List.length ws) H0 ws).

End SHA256.

(** ** [std::ostream] formatting and [strtol] *)

(** The digit characters of [std::hex] output (no [std::uppercase]). *)
Definition hex_digit (d : Z) : ascii :=
  if d <? 10 then ascii_of_N (Z.to_N (48 + d)) else ascii_of_N (Z.to_N (87 + d)).

Fixpoint hex_digits (fuel : nat) (n : Z) : string :=
  match fuel with
  | O => EmptyString
  | S fuel' =>
      if n <? 16 then String (hex_digit n) EmptyString
      else hex_digits fuel' (n / 16) +:+ String (hex_digit (n mod 16)) EmptyString
  end.

(** [oss << std::hex << v] for an [int v]: the 32-bit pattern in base 16,
    lowercase, without leading zeros. *)
Definition put_hex (v : Z) : string := hex_digits 8 (v mod 2 ^ 32).

Fixpoint fill_string (n : nat) (fill : ascii) : string :=
  match n with
  | O => EmptyString
  | S n' => String fill (fill_string n' fill)
  end.

(** [std::setw(w) << std::setfill(fill)] applied to the next insertion:
    padding on the left up to width [w]. *)
Definition setw_setfill (w : nat) (fill : ascii) (field : string) : string :=
  fill_string (w - String.length field) fill +:+ field.

(** One pass of [oss << std::hex << std::setw(2) << std::setfill('0') << (int) b]. *)
Definition put_hex_byte (b : uchar) : string :=
  setw_setfill 2 "0" (put_hex (int_of_uchar b)).

(** The loops that render a byte buffer: [for (...) oss << ... << (int) b;]
    followed by [oss.str()]. *)
Definition hex_of_bytes (bs : list uchar) : string :=
  List.fold_left (fun oss b => oss +:+ put_hex_byte b) bs EmptyString.

Definition isspace (c : ascii) : bool :=
  let n := char_code c in (n =? 32) || ((9 <=? n) && (n <=? 13)).

(** The value of a digit of [strtol] in base 16, if it is one. *)
Definition digit16 (c : ascii) : option Z :=
  let n := char_code c in
  if (48 <=? n) && (n <=? 57) then Some (n - 48)
  else if (97 <=? n) && (n <=? 102) then Some (n - 87)
  else if (65 <=? n) && (n <=? 70) then Some (n - 55)
  else None.

Definition LONG_MAX : Z := 2 ^ 63 - 1.
Definition LONG_MIN : Z := - 2 ^ 63.

Fixpoint skip_space (s : string) : string :=
  match s with
  | String c rest => if isspace c then skip_space rest else s
  | EmptyString => s
  end.

(** The longest run of base-16 digits, accumulated from the left. *)
Fixpoint strtol_digits (acc : Z) (s : string) : Z :=
  match s with
  | String c rest =>
      match digit16 c with
      | Some d => strtol_digits (acc * 16 + d) rest
      | None => acc
      end
  | EmptyString => acc
  end.

Definition skip_0x (s : string) : string :=
  match s with
  | String "0" (String x (String c rest)) =>
      if ((x =? "x") || (x =? "X"))%char && bool_decide (is_Some (digit16 c))
      then String c rest else s
  | _ => s
  end.

(** [strtol(s, nullptr, 16)]: white space, an optional sign, an optional
    [0x], then digits; the result saturates at the bounds of [long]. *)
Definition strtol16 (s : string) : Z :=
  let s := skip_space s in
  let '(neg, s) :=
    match s with
    | String "-" rest => (true, rest)
    | String "+" rest => (false, rest)
    | _ => (false, s)
    end in
  let v := strtol_digits 0 (skip_0x s) in
  if neg then Z.max LONG_MIN (- v) else Z.min LONG_MAX v.

(** ** The branch client: [HardwareLock] *)

(** The three identifiers of the machine, as [getMacAddress()],
    [getDiskSerialNumber()] and [getCpuId()] return them. *)
Record SystemInfo := {
  getMacAddress : string;
  getDiskSerialNumber : string;
  getCpuId : string
}.

(** [HardwareLock::getHardwareFingerprint]. *)
Definition getHardwareFingerprint (sys : SystemInfo) : string :=
  let mac := getMacAddress sys in
  let disk := getDiskSerialNumber sys in
  let cpu := getCpuId sys in
  let combined := mac +:+ "|" +:+ disk +:+ "|" +:+ cpu in
  let hash := SHA256.hash (bytes_of_string combined) in
  hex_of_bytes hash.

(** *** The file system *)

Record FileSystem := {
  files : gmap string string;   (* the content of each existing file *)
  readable : string → bool;     (* opening for reading is granted *)
  writable : string → bool      (* opening for writing is granted *)
}.

(** [fopen(path, "r")] followed by reading the stream,
    [QFile::open(QIODevice::ReadOnly)] followed by [readAll()]. *)
Definition open_read (fs : FileSystem) (path : string) : option string :=
  if readable fs path then files fs !! path else None.

(** [QFile::exists]. *)
Definition file_exists (fs : FileSystem) (path : string) : bool :=
  bool_decide (is_Some (files fs !! path)).

(** Opening [path] for writing with truncation, writing [text] and closing;
    nothing is written when the stream could not be opened. *)
Definition write_file (fs : FileSystem) (path text : string) : FileSystem :=
  if writable fs path
  then {| files := <[path := text]> (files fs);
          readable := readable fs; writable := writable fs |}
  else fs.

(** *** OpenSSL, as the two programs call it *)

Class OpenSSL := {
  EVP_PKEY : Type;
  (** [PEM_read_PrivateKey], [PEM_read_PUBKEY] on the text of an opened
      file; [None] is the null pointer. *)
  PEM_read_PrivateKey : string → option EVP_PKEY;
  PEM_read_PUBKEY : string → option EVP_PKEY;
  (** [EVP_MD_CTX_new()]: [false] is the null pointer. *)
  EVP_MD_CTX_new : bool;
  (** [EVP_SignFinal] on a SHA-256 context that was fed [data]: [None] when
      it returns 0, else the signature it stores, [sigLen] being its
      length. *)
  EVP_SignFinal : string → EVP_PKEY → option (list uchar);
  (** The return values of [EVP_VerifyInit_ex(ctx, EVP_sha256(), nullptr)]
      and of [EVP_VerifyUpdate(ctx, data, len)]. *)
  EVP_VerifyInit_ex : Z;
  EVP_VerifyUpdate : string → Z;
  (** [EVP_VerifyFinal] on a context that was fed [data]: 1 when the
      signature verifies, 0 when it does not, negative on error. *)
  EVP_VerifyFinal : string → list uchar → EVP_PKEY → Z;
  (** [BIO_new(BIO_f_base64())] and [BIO_new_mem_buf]: [false] is the null
      pointer. *)
  BIO_new_base64 : bool;
  BIO_new_mem_buf : string → bool;
  (** [BIO_read(bio, buf, outl)] through the Base64 filter with
      [BIO_FLAGS_BASE64_NO_NL] over a memory buffer holding the string: the
      value returned and the bytes stored at the start of [buf]. *)
  BIO_read_base64 : string → Z → Z * list uchar
}.

(** *** [HardwareLock::verifyLicense] *)

Definition is_hex_char (c : ascii) : bool :=
  let n := char_code c in
  ((48 <=? n) && (n <=? 57)) || ((97 <=? n) && (n <=? 102))
  || ((65 <=? n) && (n <=? 70)).

(** The loop that computes [isHex]: [false] at the first other character. *)
Fixpoint isHex_loop (s : string) : bool :=
  match s with
  | EmptyString => true
  | String c rest => if negb (is_hex_char c) then false else isHex_loop rest
  end.

(** [for (size_t i = 0; i < s.length(); i += 2)
       signature[i / 2] = (unsigned char) strtol(s.substr(i, 2).c_str(), nullptr, 16);]
    The loop runs on 512 characters only, so that [i / 2] is below the 256
    entries of [signature]. *)
Fixpoint hex_loop (fuel : nat) (i : nat) (s : string) (signature : list uchar)
  : list uchar :=
  match fuel with
  | O => signature
  | S fuel' =>
      if (i <? String.length s)%nat then
        let byteString := substring i 2 s in
        hex_loop fuel' (i + 2)%nat s
                 (<[Nat.div i 2 := uchar_of_Z (strtol16 byteString)]> signature)
      else signature
  end.

(** The hexadecimal branch: [signature.resize(256)] and the loop. *)
Definition decode_hex (s : string) : list uchar :=
  hex_loop (String.length s) 0 s (replicate 256 Byte.x00).

(** The Base64 branch: [None] where the code returns [false]. *)
Definition decode_base64 `{OpenSSL} (s : string) : option (list uchar) :=
  if negb BIO_new_base64 then None
  else if negb (BIO_new_mem_buf s) then None
  else
    let size := String.length s in
    let '(actualLen, stored) := BIO_read_base64 s (Z.of_nat size) in
    let tempSignature :=
      take size (stored ++ replicate (size - List.length stored) Byte.x00)%list in
    if actualLen <=? 0 then None
    else Some (take (Z.to_nat actualLen) tempSignature).

(** The test that selects the branch. *)
Definition takes_hex_branch (s : string) : bool :=
  let isHex := isHex_loop s in
  isHex && (String.length s =? 512)%nat.

(** The first half of [verifyLicense]: from the encoded signature to the
    vector [signature]. *)
Definition decode_signature `{OpenSSL} (signatureBase64 : string)
  : option (list uchar) :=
  if takes_hex_branch signatureBase64 then Some (decode_hex signatureBase64)
  else decode_base64 signatureBase64.

Definition verifyLicense `{OpenSSL} (fs : FileSystem)
    (hash signatureBase64 publicKeyPath : string) : bool :=
  match decode_signature signatureBase64 with
  | None => false
  | Some signature =>
      match open_read fs publicKeyPath with
      | None => false
      | Some pubKeyFile =>
          match PEM_read_PUBKEY pubKeyFile with
          | None => false
          | Some pubKey =>
              if negb EVP_MD_CTX_new then false
              else if negb (EVP_VerifyInit_ex =? 1)
                      || negb (EVP_VerifyUpdate hash =? 1) then false
              else
                let result := EVP_VerifyFinal hash signature pubKey in
                result =? 1
          end
      end
  end.

(** ** JSON values, as [nlohmann::json] and [QJsonValue] hold them *)

Local Unset Elimination Schemes.
Inductive JsonValue :=
| JNull
| JBool (b : bool)
| JNumber (literal : string)
| JString (s : string)
| JArray (items : list JsonValue)
| JObject (members : list (string * JsonValue)).
Local Set Elimination Schemes.

(** [obj[key].toString()]: the string when the member exists and is a
    string, the empty string otherwise. *)
Definition toString (v : option JsonValue) : string :=
  match v with
  | Some (JString s) => s
  | _ => EmptyString
  end.

(** [QString::isEmpty]. *)
Definition isEmpty (s : string) : bool := (String.length s =? 0)%nat.

(** ** The license server: [LicenseGenerator] *)

(** How a call ends: it returns, an exception leaves it (the file system is
    then as the call has left it), or it has run into undefined behaviour. *)
Inductive outcome (A : Type) :=
| Returns (a : A)
| Throws (fs : FileSystem)
| Undefined.
Arguments Returns {A} a.
Arguments Throws {A} fs.
Arguments Undefined {A}.

(** [nlohmann::json::dump(indent)] writes every string (member names
    too) through a UTF-8 decoder and, with the error handler it has by
    default, throws [type_error.316] at a byte the decoder refuses and at a
    string that ends inside a sequence. The decoder accepts the well-formed
    sequences: [00..7F]; [C2..DF] and one byte [80..BF]; [E0] [A0..BF],
    [E1..EC] [80..BF], [ED] [80..9F], [EE..EF] [80..BF], each with one more
    byte [80..BF]; [F0] [90..BF], [F1..F3] [80..BF], [F4] [80..8F], each
    with two more. *)
Inductive utf8_state :=
| Utf8Accept
| Utf8Reject
| Utf8More (following : nat) (low high : Z).

Definition utf8_first (n : Z) : utf8_state :=
  if n <=? 0x7F then Utf8Accept
  else if (0xC2 <=? n) && (n <=? 0xDF) then Utf8More 0 0x80 0xBF
  else if n =? 0xE0 then Utf8More 1 0xA0 0xBF
  else if (0xE1 <=? n) && (n <=? 0xEC) then Utf8More 1 0x80 0xBF
  else if n =? 0xED then Utf8More 1 0x80 0x9F
  else if (0xEE <=? n) && (n <=? 0xEF) then Utf8More 1 0x80 0xBF
  else if n =? 0xF0 then Utf8More 2 0x90 0xBF
  else if (0xF1 <=? n) && (n <=? 0xF3) then Utf8More 2 0x80 0xBF
  else if n =? 0xF4 then Utf8More 2 0x80 0x8F
  else Utf8Reject.

Definition utf8_step (state : utf8_state) (c : ascii) : utf8_state :=
  let n := char_code c in
  match state with
  | Utf8Accept => utf8_first n
  | Utf8Reject => Utf8Reject
  | Utf8More following low high =>
      if (low <=? n) && (n <=? high) then
        match following with
        | O => Utf8Accept
        | S following' => Utf8More following' 0x80 0xBF
        end
      else Utf8Reject
  end.

Fixpoint utf8_run (state : utf8_state) (s : string) : utf8_state :=
  match s with
  | EmptyString => state
  | String c rest => utf8_run (utf8_step state c) rest
  end.

(** The string is written without an exception. *)
Definition utf8_valid (s : string) : bool :=
  match utf8_run Utf8Accept s with
  | Utf8Accept => true
  | _ => false
  end.

(** Every string of the value is written without an exception. *)
Fixpoint is_text (v : JsonValue) : bool :=
  match v with
  | JString s => utf8_valid s
  | JArray items => forallb is_text items
  | JObject members =>
      forallb (λ member, let '(key, value) := member in
                         utf8_valid key && is_text value) members
  | JNull | JBool _ | JNumber _ => true
  end.

(** [dump] throws on the object. *)
Definition dump_throws (obj : gmap string JsonValue) : bool :=
  negb (bool_decide
          (map_Forall (λ key value, utf8_valid key && is_text value = true) obj)).

(** [nlohmann::json::dump(indent)], the text of a JSON object on which it
    does not throw. *)
Class Nlohmann := {
  dump : gmap string JsonValue → nat → string
}.

(** [generateLicense] up to the point where [licenseJson] is complete
    (lines 28-74): the object, or [None] where the function has returned
    [false]. The context is used without a null check, and [EVP_SignFinal]
    stores the signature in [unsigned char sig[256]]: a null context and a
    signature of more than 256 bytes are undefined behaviour. *)
Definition generateLicense_json `{OpenSSL} (fs : FileSystem)
    (hardwareId privateKeyPath : string)
  : outcome (option (gmap string JsonValue)) :=
  let licenseJson : gmap string JsonValue := <["hardwareId" := JString hardwareId]> ∅ in
  let dataToSign := hardwareId in
  match open_read fs privateKeyPath with
  | None => Returns None
  | Some privKeyFile =>
      match PEM_read_PrivateKey privKeyFile with
      | None => Returns None
      | Some privateKey =>
          if negb EVP_MD_CTX_new then Undefined
          else
            match EVP_SignFinal dataToSign privateKey with
            | None => Returns None
            | Some sig =>
                if (256 <? List.length sig)%nat then Undefined
                else
                  let oss := hex_of_bytes sig in
                  Returns (Some (<["signature" := JString oss]> licenseJson))
            end
      end
  end.

(** [LicenseGenerator::generateLicense]: the value returned and the file
    system it leaves. [std::ofstream out(outputFile)] empties the file when
    it can be opened, before [licenseJson.dump(4)] is computed: an exception
    of [dump] leaves the function with the file empty. The state of the
    output stream is not looked at. *)
Definition generateLicense `{OpenSSL} `{Nlohmann} (fs : FileSystem)
    (hardwareId privateKeyPath outputFile : string)
  : outcome (bool * FileSystem) :=
  match generateLicense_json fs hardwareId privateKeyPath with
  | Returns None => Returns (false, fs)
  | Returns (Some licenseJson) =>
      if dump_throws licenseJson
      then Throws (write_file fs outputFile EmptyString)
      else Returns (true, write_file fs outputFile (dump licenseJson 4))
  | Throws fs' => Throws fs'
  | Undefined => Undefined
  end.

(** ** The branch client: [main] *)

(** The result of [QJsonDocument::fromJson(jsonData, &parseError)]. *)
Inductive QJsonParse :=
| ParseError
| ParsedArray (items : list JsonValue)
| ParsedObject (obj : gmap string JsonValue).

(** What the client does that can be observed, in order: the dialog boxes
    (title and first line), the call of [verifyLicense], the start of the
    licensed application. *)
Inductive Event :=
| MessageBox_information (title text : string)
| MessageBox_critical (title text : string)
| VerifyLicense (hash signature publicKeyPath : string)
| StartMainApplication.

Record World := {
  system_info : SystemInfo;
  file_system : FileSystem;
  QJsonDocument_fromJson : string → QJsonParse;
  app_exec : Z   (* what [app.exec()] returns *)
}.

Record Run := {
  exit_code : Z;
  events : list Event;
  file_system_after : FileSystem
}.

Definition LF : string := String "010" EmptyString.

(** The fingerprint read from the license object, with the fall back to
    the older member name (lines 422-428 of the client). *)
Definition license_fingerprint (obj : gmap string JsonValue) : string :=
  let licenseFingerprint := toString (obj !! "hardwareFingerprint") in
  if isEmpty licenseFingerprint then toString (obj !! "hardwareId")
  else licenseFingerprint.

Definition main `{OpenSSL} (w : World) : Run :=
  let fs := file_system w in
  let localFingerprint := getHardwareFingerprint (system_info w) in
  if negb (file_exists fs "license.lic") then
    {| exit_code := 1;
       events := [MessageBox_information "License Required" "license.lic file not found."];
       file_system_after := write_file fs "hardware_id.txt" (localFingerprint +:+ LF) |}
  else
    match open_read fs "license.lic" with
    | None =>
        {| exit_code := 1;
           events := [MessageBox_critical "Error" "Could not open license file."];
           file_system_after := fs |}
    | Some jsonData =>
        match QJsonDocument_fromJson w jsonData with
        | ParsedObject obj =>
            let signature := toString (obj !! "signature") in
            let licenseFingerprint := license_fingerprint obj in
            if isEmpty licenseFingerprint || isEmpty signature then
              {| exit_code := 1;
                 events := [MessageBox_critical "Invalid License"
                              "License file is missing hardwareFingerprint or signature."];
                 file_system_after := fs |}
            else if negb (String.eqb localFingerprint licenseFingerprint) then
              {| exit_code := 1;
                 events := [MessageBox_critical "Hardware Fingerprint Mismatch"
                              "This license is not valid for this machine."];
                 file_system_after := fs |}
            else if negb (file_exists fs "public_key.pem") then
              {| exit_code := 1;
                 events := [MessageBox_critical "Error" "public_key.pem file not found."];
                 file_system_after := fs |}
            else if verifyLicense fs localFingerprint signature "public_key.pem" then
              {| exit_code := app_exec w;
                 events := [VerifyLicense localFingerprint signature "public_key.pem";
                            StartMainApplication];
                 file_system_after := fs |}
            else
              {| exit_code := 1;
                 events := [VerifyLicense localFingerprint signature "public_key.pem";
                            MessageBox_critical "Invalid License"
                              "Signature could not be verified."];
                 file_system_after := fs |}
        | _ =>
            {| exit_code := 1;
               events := [MessageBox_critical "Invalid License"
                            "License file is not valid JSON."];
               file_system_after := fs |}
        end
    end.

(** ** An instance of the libraries, to run the programs on inputs *)

(** OpenSSL's Base64 filter in the single-line mode that
    [BIO_FLAGS_BASE64_NO_NL] selects (OpenSSL 1.1.1 and 3.0,
    [crypto/evp/bio_b64.c] and [crypto/evp/encode.c]): [b64_read] takes the
    data from the next BIO by blocks of at most 1024 characters and hands
    each block, cut to a multiple of four characters, to
    [EVP_DecodeBlock]. *)
Module Base64.

Definition B64_WS : Z := 0xE0.
Definition B64_EOLN : Z := 0xF0.
Definition B64_CR : Z := 0xF1.
Definition B64_EOF : Z := 0xF2.
Definition B64_ERROR : Z := 0xFF.
Definition B64_BLOCK_SIZE : nat := 1024.

(** The table [data_ascii2bin], through [conv_ascii2bin]. *)
Definition conv_ascii2bin (c : ascii) : Z :=
  let n := char_code c in
  if (65 <=? n) && (n <=? 90) then n - 65
  else if (97 <=? n) && (n <=? 122) then n - 71
  else if (48 <=? n) && (n <=? 57) then n + 4
  else if n =? 43 then 62
  else if n =? 47 then 63
  else if n =? 61 then 0
  else if (n =? 32) || (n =? 9) then B64_WS
  else if n =? 10 then B64_EOLN
  else if n =? 13 then B64_CR
  else if n =? 45 then B64_EOF
  else B64_ERROR.

Definition B64_NOT_BASE64 (a : Z) : bool := Z.lor a 0x13 =? 0xF3.

(** [while (n > 0 && conv_ascii2bin(f[0]) == B64_WS) { f++; n--; }] *)
Fixpoint trim_start (f : list ascii) : list ascii :=
  match f with
  | c :: rest => if conv_ascii2bin c =? B64_WS then trim_start rest else f
  | [] => []
  end.

(** [while (n > 3 && B64_NOT_BASE64(conv_ascii2bin(f[n - 1]))) n--;] *)
Fixpoint trim_end (fuel : nat) (f : list ascii) : list ascii :=
  match fuel with
  | O => f
  | S fuel' =>
      if (3 <? List.length f)%nat
         && B64_NOT_BASE64 (conv_ascii2bin (List.last f "000"%char))
      then trim_end fuel' (removelast f) else f
  end.

Definition high_bit (a : Z) : bool := negb (Z.land a 0x80 =? 0).

(** The loop over groups of four characters; [None] is [return -1]. *)
Fixpoint decode_groups (f : list ascii) : option (list uchar) :=
  match f with
  | ca :: cb :: cc :: cd :: rest =>
      let a := conv_ascii2bin ca in
      let b := conv_ascii2bin cb in
      let c := conv_ascii2bin cc in
      let d := conv_ascii2bin cd in
      if high_bit a || high_bit b || high_bit c || high_bit d then None
      else
        let l := Z.lor (Z.lor (Z.shiftl a 18) (Z.shiftl b 12))
                       (Z.lor (Z.shiftl c 6) d) in
        match decode_groups rest with
        | Some t => Some (uchar_of_Z (Z.shiftr l 16) :: uchar_of_Z (Z.shiftr l 8)
                            :: uchar_of_Z l :: t)
        | None => None
        end
  | _ => Some []
  end.

(** [EVP_DecodeBlock(t, f, n)]: the value returned and the bytes stored. *)
Definition EVP_DecodeBlock (f : list ascii) : Z * list uchar :=
  let f := trim_start f in
  let f := trim_end (List.length f) f in
  if negb (List.length f mod 4 =? 0)%nat then (-1, [])
  else
    match decode_groups f with
    | Some t => (Z.of_nat (List.length t), t)
    | None => (-1, [])
    end.

Definition is_pad (c : option ascii) : bool :=
  match c with
  | Some c => (c =? "=")%char
  | None => false
  end.

(** The loop of [b64_read]: [next] is what the memory buffer still holds,
    [tmp] the characters kept from the block before, [cont] the field
    [ctx->cont], [out] the bytes delivered so far. At its end the memory
    buffer returns 0, so that [ret_code] is 0 throughout. *)
Fixpoint b64_read_loop (fuel : nat) (next tmp : list ascii) (cont outl : Z)
    (out : list uchar) : list uchar :=
  match fuel with
  | O => out
  | S fuel' =>
      if (outl <=? 0) || (cont <=? 0) then out
      else
        let room := (B64_BLOCK_SIZE - List.length tmp)%nat in
        let got := take room next in
        let next := drop room next in
        let at_end := (List.length got =? 0)%nat in
        let cont := if at_end then 0 else cont in
        if at_end && (List.length tmp =? 0)%nat then out
        else
          let block := (tmp ++ got)%list in
          let i := List.length block in
          let jj := (4 * (i / 4))%nat in
          let '(z, buf) := EVP_DecodeBlock (take jj block) in
          let z :=
            if (2 <? jj)%nat && is_pad (block !! (jj - 1)%nat) then
              if is_pad (block !! (jj - 2)%nat) then z - 2 else z - 1
            else z in
          let tmp := drop jj block in
          if z <? 0 then out
          else
            let n := Z.min z outl in
            b64_read_loop fuel' next tmp cont (outl - n)
                          (out ++ take (Z.to_nat n) buf)%list
      end.

(** [BIO_read(bio, out, outl)] on a fresh filter over [data]. *)
Definition b64_read (data : string) (outl : Z) : Z * list uchar :=
  let next := list_ascii_of_string data in
  let out := b64_read_loop (List.length next + 2) next [] 1 outl [] in
  (Z.of_nat (List.length out), out).

End Base64.

(** A stand-in for RSA with SHA-256: a key has the byte length of its
    modulus and a secret; the signature of [data] is that many bytes drawn
    from SHA-256 of the secret and the data, and verifying compares. The
    private and the public key file of a pair hold the same line. *)
Module Sample.

Record key := Key { modulus_bytes : nat; secret : string }.

Definition stream (k : key) (data : string) (n : nat) : list uchar :=
  SHA256.hash (bytes_of_string (secret k +:+ data) ++ [uchar_of_Z (Z.of_nat n)]).

Definition sign (data : string) (k : key) : option (list uchar) :=
  Some (take (modulus_bytes k)
             (List.flat_map (stream k data) (seq 0 (S (modulus_bytes k / 32))))).

Definition verify (data : string) (sig : list uchar) (k : key) : Z :=
  if bool_decide (sign data k = Some sig) then 1 else 0.

Definition read_key (pem : string) : option key :=
  if String.eqb pem "KEY 2048" then Some (Key 256 "s2048")
  else if String.eqb pem "KEY 1024" then Some (Key 128 "s1024")
  else if String.eqb pem "KEY 4096" then Some (Key 512 "s4096")
  else None.

#[export] Instance openssl : OpenSSL := {|
  EVP_PKEY := key;
  PEM_read_PrivateKey := read_key;
  PEM_read_PUBKEY := read_key;
  EVP_MD_CTX_new := true;
  EVP_SignFinal := sign;
  EVP_VerifyInit_ex := 1;
  EVP_VerifyUpdate := fun _ => 1;
  EVP_VerifyFinal := verify;
  BIO_new_base64 := true;
  BIO_new_mem_buf := fun _ => true;
  BIO_read_base64 := Base64.b64_read
|}.

(** The same library at a moment when no digest context can be allocated. *)
Definition no_context : OpenSSL := {|
  EVP_PKEY := key;
  PEM_read_PrivateKey := read_key;
  PEM_read_PUBKEY := read_key;
  EVP_MD_CTX_new := false;
  EVP_SignFinal := sign;
  EVP_VerifyInit_ex := 1;
  EVP_VerifyUpdate := fun _ => 1;
  EVP_VerifyFinal := verify;
  BIO_new_base64 := true;
  BIO_new_mem_buf := fun _ => true;
  BIO_read_base64 := Base64.b64_read
|}.

End Sample.

(** ** Definitions used to state the properties *)

(** The 256 characters. *)
Definition all_ascii : list ascii := List.map ascii_of_nat (seq 0 256).

(** The alphabets of hexadecimal text. *)
Definition lower_hex_alphabet : list ascii :=
  list_ascii_of_string "0123456789abcdef".

Definition hex_alphabet : list ascii :=
  list_ascii_of_string "0123456789abcdefABCDEF".

Definition upper_hex_alphabet : list ascii :=
  list_ascii_of_string "0123456789ABCDEF".

(** [c] is a hexadecimal digit of value [v], in either case. *)
Definition hex_digit_value (c : ascii) (v : Z) : Prop :=
  0 ≤ v < 16
  ∧ (lower_hex_alphabet !! Z.to_nat v = Some c
     ∨ upper_hex_alphabet !! Z.to_nat v = Some c).

(** The check of [strtol] on one pair of characters. *)
Definition strtol16_pair_check (h l : ascii) : bool :=
  match digit16 h, digit16 l with
  | Some vh, Some vl => strtol16 (String h (String l EmptyString)) =? 16 * vh + vl
  | _, _ => true
  end.

(** The machine on which the three queries give their fallback values. *)
Definition degraded_system : SystemInfo :=
  {| getMacAddress := "00:00:00:00:00:00";
     getDiskSerialNumber := "UNKNOWN_DISK";
     getCpuId := "UNKNOWN_CPU" |}.

(** The license object for a fingerprint and a raw signature. *)
Definition license_object (hardwareId : string) (sig : list uchar)
  : gmap string JsonValue :=
  <["signature" := JString (hex_of_bytes sig)]>
    (<["hardwareId" := JString hardwareId]> ∅).

(** The world of [w] with a license text that parses to the object [obj]. *)
Definition with_license (w : World) (obj : gmap string JsonValue) : World :=
  {| system_info := system_info w;
     file_system := file_system w;
     QJsonDocument_fromJson := λ _, ParsedObject obj;
     app_exec := app_exec w |}.

(** An event list holds no call of [verifyLicense] and no start of the
    application. *)
Definition no_verification (evs : list Event) : Prop :=
  (∀ h s p, VerifyLicense h s p ∉ evs) ∧ StartMainApplication ∉ evs.

(** The single-line filter of OpenSSL, for the statements about what it
    refuses. The characters in the full groups of four of a text: *)
Definition groups_read (s : string) : nat := (4 * (String.length s / 4))%nat.

(** A character that [EVP_DecodeBlock] refuses inside a group and that is
    no space or tab: a line break, a character outside the alphabet. *)
Definition refused (c : ascii) : bool :=
  Base64.high_bit (Base64.conv_ascii2bin c)
  && negb (Base64.conv_ascii2bin c =? Base64.B64_WS).

(** A character at which the trimming of the end of a block stops. *)
Definition kept_at_end (c : ascii) : bool :=
  negb (Base64.B64_NOT_BASE64 (Base64.conv_ascii2bin c)).

(** The library sets the filter up and reads through [Base64.b64_read]. *)
Definition single_line_filter `{OpenSSL} : Prop :=
  BIO_new_base64 = true
  ∧ (∀ data, BIO_new_mem_buf data = true)
  ∧ ∀ data outl, BIO_read_base64 data outl = Base64.b64_read data outl.

(** What [b64_read] makes of a first block: the count after the correction
    for the padding, and the bytes. *)
Definition first_block (block : list ascii) : Z * list uchar :=
  let jj := (4 * (List.length block / 4))%nat in
  let '(z, buf) := Base64.EVP_DecodeBlock (take jj block) in
  let z :=
    if (2 <? jj)%nat && Base64.is_pad (block !! (jj - 1)%nat) then
      if Base64.is_pad (block !! (jj - 2)%nat) then z - 2 else z - 1
    else z in
  (z, buf).

(** ** The programs on sample inputs *)

Module Run.
Import Sample.

Definition DQUOTE : string := String "034" EmptyString.

Definition member (key value : string) : string :=
  "    " +:+ DQUOTE +:+ key +:+ DQUOTE +:+ ": " +:+ DQUOTE +:+ value +:+ DQUOTE.

(** The text [dump(4)] gives for an object with the two string members of a
    license when no character of them needs an escape. *)
#[export] Instance nlohmann : Nlohmann := {|
  dump := λ obj indent,
    "{" +:+ LF +:+ member "hardwareId" (toString (obj !! "hardwareId"))
    +:+ "," +:+ LF +:+ member "signature" (toString (obj !! "signature"))
    +:+ LF +:+ "}"
|}.

(** A file system where every file may be opened, and its read-only
    variant. *)
Definition disk (contents : list (string * string)) : FileSystem :=
  {| files := list_to_map contents; readable := λ _, true; writable := λ _, true |}.

Definition read_only (fs : FileSystem) : FileSystem :=
  {| files := files fs; readable := readable fs; writable := λ _, false |}.

Definition issuer_2048 : FileSystem := disk [("private_key.pem", "KEY 2048")].
Definition issuer_1024 : FileSystem := disk [("private_key.pem", "KEY 1024")].
Definition client_2048 : FileSystem := disk [("public_key.pem", "KEY 2048")].
Definition client_1024 : FileSystem := disk [("public_key.pem", "KEY 1024")].

Definition key_2048 : @EVP_PKEY openssl := Key 256 "s2048".
Definition key_1024 : @EVP_PKEY openssl := Key 128 "s1024".

(** A key of 4096 bits, and a hardware id in Latin-1 (the last character
    is the byte E9, which is not UTF-8). *)
Definition issuer_4096 : FileSystem := disk [("private_key.pem", "KEY 4096")].
Definition key_4096 : @EVP_PKEY openssl := Key 512 "s4096".
Definition latin1_id : string := "caf" +:+ String "233" EmptyString.

(** The fingerprint of [degraded_system]. *)
Definition fingerprint : string :=
  "2a3326d3781301a8881ee481e7a50a267bf2e04e83a5c974930d6b8d0b7fe49f".

(** Its raw signatures and the texts of the licenses. *)
Definition sig_2048 : list uchar := default [] (sign fingerprint key_2048).
Definition sig_1024 : list uchar := default [] (sign fingerprint key_1024).
Definition sig_4096 : list uchar := default [] (sign fingerprint key_4096).
Definition sig_latin1 : list uchar := default [] (sign latin1_id key_2048).

Definition license_text (sig : list uchar) : string :=
  dump (license_object fingerprint sig) 4.

(** The signature of [fingerprint] under [key_2048], in Base64 on one
    line, and the same text broken every 64 characters. *)
Definition base64_line1 : string :=
  "GBOk/0WeiscSoK/0DmooqTEiYVZ8rwR84oIM9ppRMbfApXnlJQe82D2ozLF/b9Dm".
Definition base64_line2 : string :=
  "ckmBkdHG8VS9oL9vt9FzEQ7ZrG2PBrcxMJZA99Ml5XEyej2582W4RVcr7mek74pS".
Definition base64_line3 : string :=
  "mfHIGBWgJ2G31my6tWw72geYeej2GEPMS+jFfEY731RWKB55oTHxTPu/pU1qeeZb".
Definition base64_line4 : string :=
  "wr3yocbzsDhrQMvTKvXiWXJuvHbfhV76B56v8RKhjX2c+aoH6AoyI8zzUAYbjK2I".
Definition base64_line5 : string :=
  "Eo134em8GOlVpf460guxLsi9X1BdkBR6L66dEX+V0ZQGFN5qry5cUKVc9mSJTaGC".
Definition base64_line6 : string := "wLMYIxHcBf67/XWKA+O6Qw==".

Definition base64_single_line : string :=
  base64_line1 +:+ base64_line2 +:+ base64_line3 +:+ base64_line4
  +:+ base64_line5 +:+ base64_line6.

Definition base64_wrapped : string :=
  base64_line1 +:+ LF +:+ base64_line2 +:+ LF +:+ base64_line3 +:+ LF
  +:+ base64_line4 +:+ LF +:+ base64_line5 +:+ LF +:+ base64_line6.

(** A text without its line breaks. *)
Definition is_line_break (c : ascii) : bool :=
  (char_code c =? 10) || (char_code c =? 13).

Fixpoint remove_line_breaks (s : string) : string :=
  match s with
  | EmptyString => EmptyString
  | String c rest =>
      if is_line_break c then remove_line_breaks rest
      else String c (remove_line_breaks rest)
  end.

(** Worlds of the client: the degraded machine, a license text that parses
    to [obj], the public key of [key_2048]. *)
Definition world (parsed : QJsonParse) : World :=
  {| system_info := degraded_system;
     file_system := disk [("license.lic", "{...}"); ("public_key.pem", "KEY 2048")];
     QJsonDocument_fromJson := λ _, parsed;
     app_exec := 0 |}.

Definition deadbeef : gmap string JsonValue :=
  {["signature" := JString "deadbeef"]}.

Definition other_machine : gmap string JsonValue :=
  <["hardwareFingerprint" := JString (fill_string 64 "0")]>
    {["signature" := JString base64_single_line]}.

Definition legacy_license : gmap string JsonValue :=
  <["hardwareId" := JString fingerprint]>
    {["signature" := JString base64_single_line]}.

End Run.

(** ** The branch client: the identifiers of the machine *)

(** The platform the client is compiled for: [_WIN32], [__linux__],
    [__APPLE__], or none of the three. *)
Inductive Platform := Windows | Linux | MacOS | OtherPlatform.

(** What the queries read of a network interface. *)
Record QNetworkInterface := {
  IsLoopBack : bool;          (* flags() & QNetworkInterface::IsLoopBack *)
  hardwareAddress : string
}.

(** A [QProcess] after [start(command)] and [waitForFinished(5000)]. *)
Record QProcessResult := {
  exitCode : Z;
  readAllStandardOutput : string
}.

(** The four words [__cpuid] stores in [cpuInfo]. *)
Record CpuInfo := {
  cpuInfo0 : Z;
  cpuInfo1 : Z;
  cpuInfo2 : Z;
  cpuInfo3 : Z
}.

Record Machine := {
  platform : Platform;
  allInterfaces : list QNetworkInterface;
  QProcess_run : string → QProcessResult;
  local_files : FileSystem;
  cpuid : Z → CpuInfo
}.

(** [std::string::find(pattern)]: the first position of [pattern], [None]
    for [npos]. *)
Definition find (pattern s : string) : option nat := String.index 0 pattern s.

(** [s.substr(pos)]: from [pos] to the end. *)
Definition substr_from (pos : nat) (s : string) : string :=
  substring pos (String.length s - pos) s.

(** The lines that successive calls of [std::getline] extract from a stream
    that holds [s]: the line feed ends a line and is dropped; after the last
    line feed an empty rest gives no line. *)
Fixpoint getlines (s : string) : list string :=
  match s with
  | EmptyString => []
  | String c rest =>
      if (c =? "010")%char then EmptyString :: getlines rest
      else
        match getlines rest with
        | [] => [String c EmptyString]
        | line :: lines => String c line :: lines
        end
  end.

(** One [std::getline(stream, line)] on a fresh stream: the first line, the
    empty string when the extraction fails. *)
Definition getline (s : string) : string := hd EmptyString (getlines s).

(** [QByteArray::trimmed()]: white space removed at both ends. *)
Fixpoint trim_right (s : string) : string :=
  match s with
  | EmptyString => EmptyString
  | String c rest =>
      let r := trim_right rest in
      if isspace c && isEmpty r then EmptyString else String c r
  end.

Definition trimmed (s : string) : string := trim_right (skip_space s).

(** The predicate of the two [std::remove_if] calls:
    [std::isspace(c) || c == '\r' || c == '\n'] (a byte above 127 is no
    white space). *)
Definition is_blank (c : ascii) : bool :=
  isspace c || (c =? "013")%char || (c =? "010")%char.

(** [s.erase(std::remove_if(s.begin(), s.end(), is_blank), s.end())]. *)
Fixpoint erase_blanks (s : string) : string :=
  match s with
  | EmptyString => EmptyString
  | String c rest =>
      if is_blank c then erase_blanks rest else String c (erase_blanks rest)
  end.

(** The little-endian bytes of an [int], as [reinterpret_cast<int*>] lays
    them in [vendor] on the processors that have [__cpuid]. *)
Definition int_bytes (v : Z) : list ascii :=
  List.map (fun k => ascii_of_N (Z.to_N (Z.shiftr (v mod 2 ^ 32) (8 * k) mod 256)))
           [0; 1; 2; 3].

(** The C string that starts a [char] array: up to the first zero. *)
Fixpoint c_str (l : list ascii) : string :=
  match l with
  | [] => EmptyString
  | c :: rest => if (c =? "000")%char then EmptyString else String c (c_str rest)
  end.

Module HardwareLock.

(** The test of [getMacAddress] on one interface. *)
Definition usable (netInterface : QNetworkInterface) : bool :=
  negb (IsLoopBack netInterface)
  && negb (String.eqb (hardwareAddress netInterface) "00:00:00:00:00:00")
  && negb (isEmpty (hardwareAddress netInterface)).

(** The [foreach] of [getMacAddress] and the [return] after it. *)
Fixpoint getMacAddress_loop (interfaces : list QNetworkInterface) : string :=
  match interfaces with
  | [] => "00:00:00:00:00:00"
  | netInterface :: rest =>
      if usable netInterface then hardwareAddress netInterface
      else getMacAddress_loop rest
  end.

(** [HardwareLock::getMacAddress]. *)
Definition getMacAddress (m : Machine) : string :=
  getMacAddress_loop (allInterfaces m).

(** [HardwareLock::executeCommand]. *)
Definition executeCommand (m : Machine) (command : string) : string :=
  let process := QProcess_run m command in
  if exitCode process =? 0 then trimmed (readAllStandardOutput process)
  else EmptyString.

(** [while (std::getline(iss, line)) if (!line.empty()) { serialNumber = line; break; }] *)
Fixpoint first_nonempty_line (lines : list string) : string :=
  match lines with
  | [] => EmptyString
  | line :: rest =>
      if negb (isEmpty line) then line else first_nonempty_line rest
  end.

(** The end of both queries: blanks erased, the fallback name for an empty
    result. *)
Definition cleaned (fallback s : string) : string :=
  let s := erase_blanks s in
  if isEmpty s then fallback else s.

(** [HardwareLock::getDiskSerialNumber]. *)
Definition getDiskSerialNumber (m : Machine) : string :=
  let serialNumber :=
    match platform m with
    | Windows =>
        let output := executeCommand m "wmic diskdrive get serialnumber" in
        let serialNumber :=
          if negb (isEmpty output)
          then first_nonempty_line (tl (getlines output))
          else EmptyString in
        if isEmpty serialNumber then
          let output := executeCommand m "vol C:" in
          match find "Volume Serial Number is " output with
          | Some pos => substring (pos + 24) 9 output
          | None => serialNumber
          end
        else serialNumber
    | Linux =>
        let serialNumber := executeCommand m "lsblk -d -n -o serial | head -1" in
        let serialNumber :=
          if isEmpty serialNumber
          then executeCommand m
                 "udevadm info --query=property --name=sda | grep ID_SERIAL= | cut -d'=' -f2"
          else serialNumber in
        if isEmpty serialNumber then
          match open_read (local_files m) "/sys/block/sda/device/serial" with
          | Some file => getline file
          | None => serialNumber
          end
        else serialNumber
    | MacOS =>
        let serialNumber :=
          executeCommand m
            "system_profiler SPSerialATADataType | grep 'Serial Number' | head -1 | awk '{print $3}'" in
        if isEmpty serialNumber
        then executeCommand m
               "diskutil info disk0 | grep 'Device / Media UUID' | awk '{print $5}'"
        else serialNumber
    | OtherPlatform => EmptyString
    end in
  cleaned "UNKNOWN_DISK" serialNumber.

(** The loop of [getCpuId] over the lines of [/proc/cpuinfo]: the first line
    that starts with [processor] and has a colon gives what follows the
    colon. *)
Fixpoint cpuinfo_loop (lines : list string) : string :=
  match lines with
  | [] => EmptyString
  | line :: rest =>
      if bool_decide (find "processor" line = Some 0%nat) then
        match find ":" line with
        | Some pos => substr_from (pos + 1) line
        | None => cpuinfo_loop rest
        end
      else cpuinfo_loop rest
  end.

(** [HardwareLock::getCpuId]. *)
Definition getCpuId (m : Machine) : string :=
  let cpuId :=
    match platform m with
    | Windows =>
        let cpuInfo := cpuid m 0 in
        let vendor :=
          c_str (int_bytes (cpuInfo1 cpuInfo) ++ int_bytes (cpuInfo3 cpuInfo)
                 ++ int_bytes (cpuInfo2 cpuInfo) ++ ["000"%char])%list in
        let cpuInfo := cpuid m 1 in
        vendor +:+ "_" +:+ put_hex (cpuInfo0 cpuInfo)
    | Linux =>
        let cpuId :=
          match open_read (local_files m) "/proc/cpuinfo" with
          | Some file => cpuinfo_loop (getlines file)
          | None => EmptyString
          end in
        if isEmpty cpuId
        then executeCommand m
               "cat /proc/cpuinfo | grep 'model name' | head -1 | cut -d':' -f2"
        else cpuId
    | MacOS =>
        let cpuId := executeCommand m "sysctl -n machdep.cpu.brand_string" in
        if isEmpty cpuId
        then executeCommand m
               "system_profiler SPHardwareDataType | grep 'Processor Name' | cut -d':' -f2"
        else cpuId
    | OtherPlatform => EmptyString
    end in
  cleaned "UNKNOWN_CPU" cpuId.

(** The three calls at the head of [getHardwareFingerprint]. *)
Definition system_info_of (m : Machine) : SystemInfo :=
  Build_SystemInfo (getMacAddress m) (getDiskSerialNumber m) (getCpuId m).

End HardwareLock.

(** ** The license server: [main] *)

Module LicenseServer.

(** [main] of the license server: the exit code and the file system it
    leaves. No exception is caught. *)
Definition main `{OpenSSL} `{Nlohmann} (fs : FileSystem) : outcome (Z * FileSystem) :=
  match open_read fs "hardware_id.txt" with
  | None => Returns (1, fs)
  | Some file =>
      let hardwareId := getline file in
      match generateLicense fs hardwareId "private_key.pem" "license.lic" with
      | Returns (false, fs') => Returns (1, fs')
      | Returns (true, fs') => Returns (0, fs')
      | Throws fs' => Throws fs'
      | Undefined => Undefined
      end
  end.

End LicenseServer.

(** ** Further definitions used to state the properties *)

(** A text of white space only. *)
Definition blank (s : string) : bool := forallb isspace (list_ascii_of_string s).

(** A text without a line feed. *)
Definition no_line_feed (s : string) : Prop :=
  "010"%char ∉ list_ascii_of_string s.

(** An interface that [getMacAddress] takes the address of. *)
Definition qualifies (netInterface : QNetworkInterface) : Prop :=
  IsLoopBack netInterface = false
  ∧ hardwareAddress netInterface ≠ "00:00:00:00:00:00"
  ∧ hardwareAddress netInterface ≠ EmptyString.

(** The client of [w] started in the directory [fs]. *)
Definition in_directory (w : World) (fs : FileSystem) : World :=
  {| system_info := system_info w;
     file_system := fs;
     QJsonDocument_fromJson := QJsonDocument_fromJson w;
     app_exec := app_exec w |}.

(** A letter in upper case, any other character as it is. *)
Definition toupper (c : ascii) : ascii :=
  let n := char_code c in
  if (97 <=? n) && (n <=? 122) then ascii_of_N (Z.to_N (n - 32)) else c.

Fixpoint uppercase (s : string) : string :=
  match s with
  | EmptyString => EmptyString
  | String c rest => String (toupper c) (uppercase rest)
  end.

(** Two texts that differ in the case of letters only. *)
Definition same_up_to_case (s t : string) : Prop := uppercase s = uppercase t.

(** ** Sample machines and directories *)

Module Field.

Definition CR : string := String "013" EmptyString.
Definition TAB : string := String "009" EmptyString.

Definition lsblk : string := "lsblk -d -n -o serial | head -1".
Definition wmic : string := "wmic diskdrive get serialnumber".

Definition no_files : FileSystem :=
  {| files := ∅; readable := λ _, false; writable := λ _, false |}.

Definition failed : QProcessResult :=
  {| exitCode := 127; readAllStandardOutput := EmptyString |}.

Definition no_cpuid (leaf : Z) : CpuInfo :=
  {| cpuInfo0 := 0; cpuInfo1 := 0; cpuInfo2 := 0; cpuInfo3 := 0 |}.

Definition lo : QNetworkInterface :=
  {| IsLoopBack := true; hardwareAddress := "00:00:00:00:00:00" |}.

Definition tun0 : QNetworkInterface :=
  {| IsLoopBack := false; hardwareAddress := EmptyString |}.

Definition eth0 : QNetworkInterface :=
  {| IsLoopBack := false; hardwareAddress := "52:54:00:12:34:56" |}.

Definition wlan0 : QNetworkInterface :=
  {| IsLoopBack := false; hardwareAddress := "A4:5E:60:C1:02:03" |}.

(** A Linux machine on which no query finds anything. *)
Definition bare_linux : Machine :=
  {| platform := Linux;
     allInterfaces := [lo; tun0];
     QProcess_run := λ _, failed;
     local_files := no_files;
     cpuid := no_cpuid |}.

Definition proc_cpuinfo : string :=
  "processor" +:+ TAB +:+ ": 0" +:+ LF +:+
  "vendor_id" +:+ TAB +:+ ": GenuineIntel" +:+ LF +:+
  "model name" +:+ TAB +:+ ": Intel(R) Core(TM) i7-8700 CPU @ 3.20GHz" +:+ LF +:+
  "processor" +:+ TAB +:+ ": 1" +:+ LF.

(** A Linux machine whose first command prints two serial numbers. *)
Definition linux_box : Machine :=
  {| platform := Linux;
     allInterfaces := [lo; tun0; eth0; wlan0];
     QProcess_run := λ command,
       if String.eqb command lsblk
       then {| exitCode := 0;
               readAllStandardOutput := "WD-WCC4N 1234" +:+ LF +:+ "S3Z9NB0K" +:+ LF |}
       else failed;
     local_files :=
       {| files := {["/proc/cpuinfo" := proc_cpuinfo]};
          readable := λ _, true; writable := λ _, false |};
     cpuid := no_cpuid |}.

(** A Windows machine whose first drive reports a blank serial number. *)
Definition windows_box : Machine :=
  {| platform := Windows;
     allInterfaces := [eth0];
     QProcess_run := λ command,
       if String.eqb command wmic
       then {| exitCode := 0;
               readAllStandardOutput :=
                 "SerialNumber  " +:+ CR +:+ CR +:+ LF +:+
                 "  " +:+ CR +:+ CR +:+ LF +:+
                 "WD-WX41A 1234  " +:+ CR +:+ CR +:+ LF +:+ CR +:+ CR +:+ LF |}
       else if String.eqb command "vol C:"
       then {| exitCode := 0;
               readAllStandardOutput :=
                 " Volume in drive C has no label." +:+ CR +:+ LF +:+
                 " Volume Serial Number is 1C2D-3E4F" +:+ CR +:+ LF |}
       else failed;
     local_files := no_files;
     cpuid := λ leaf,
       if leaf =? 0
       then {| cpuInfo0 := 0x16; cpuInfo1 := 0x756e6547;
               cpuInfo2 := 0x6c65746e; cpuInfo3 := 0x49656e69 |}
       else {| cpuInfo0 := 0x906ea; cpuInfo1 := 0; cpuInfo2 := 0; cpuInfo3 := 0 |} |}.

End Field.

Module Desk.
Import Sample Run.

(** The directory of a first start: both key files, no license. *)
Definition first_start : FileSystem :=
  disk [("private_key.pem", "KEY 2048"); ("public_key.pem", "KEY 2048")].

(** A parser that knows the text of the license of [fingerprint]. *)
Definition parse (jsonData : string) : QJsonParse :=
  if String.eqb jsonData (license_text sig_2048)
  then ParsedObject (license_object fingerprint sig_2048)
  else ParseError.

Definition unlicensed : World :=
  {| system_info := degraded_system;
     file_system := first_start;
     QJsonDocument_fromJson := parse;
     app_exec := 0 |}.

(** The directory of the license server with a request. *)
Definition request : FileSystem :=
  disk [("hardware_id.txt", fingerprint +:+ LF); ("private_key.pem", "KEY 2048")].

(** A request whose line ends with a carriage return and a line feed, the
    signature of its first line, and a client that has received the
    license. *)
Definition request_crlf : FileSystem :=
  disk [("hardware_id.txt", fingerprint +:+ Field.CR +:+ LF);
        ("private_key.pem", "KEY 2048")].

Definition sig_crlf : list uchar :=
  default [] (sign (fingerprint +:+ Field.CR) key_2048).

Definition licensed_crlf : World :=
  world (ParsedObject (license_object (fingerprint +:+ Field.CR) sig_crlf)).

Definition sig_upper : string := uppercase (hex_of_bytes sig_2048).

End Desk.


(** * Properties *)

Arguments SHA256.hash : simpl never.
Arguments getHardwareFingerprint : simpl never.
Arguments verifyLicense : simpl never.
Arguments write_file : simpl never.

(** Case analysis on the tests of a goal, closed by arithmetic. *)
Ltac by_decide :=
  repeat match goal with
         | |- context [decide ?P] => destruct (decide P)
         end;
  first [reflexivity | lia].

(** ** Strings *)

Lemma append_String (x : ascii) (a b : string) :
  String x a +:+ b = String x (a +:+ b).
Proof. reflexivity. Qed.

Lemma append_assoc (a b c : string) : (a +:+ b) +:+ c = a +:+ (b +:+ c).
Proof.
  induction a as [|x a IH]; [reflexivity |].
  by rewrite !append_String, IH.
Qed.

Lemma append_empty_r (a : string) : a +:+ EmptyString = a.
Proof.
  induction a as [|x a IH]; [reflexivity |]. by rewrite append_String, IH.
Qed.

Lemma length_append (a b : string) :
  String.length (a +:+ b) = (String.length a + String.length b)%nat.
Proof.
  induction a as [|x a IH]; [reflexivity |].
  rewrite append_String. simpl. by rewrite IH.
Qed.

(** The characters of a string, as a list. *)
Lemma get_list_ascii (s : string) (n : nat) :
  String.get n s = list_ascii_of_string s !! n.
Proof.
  revert n; induction s as [|x s IH]; intros [|n]; simpl; try reflexivity.
  apply IH.
Qed.

Lemma length_list_ascii (s : string) :
  List.length (list_ascii_of_string s) = String.length s.
Proof. induction s as [|x s IH]; simpl; [reflexivity | by rewrite IH]. Qed.

(** A two-character window of a string holds the characters at its place. *)
Lemma substring_two (s : string) (i : nat) (h l : ascii) :
  String.get i s = Some h → String.get (S i) s = Some l →
  substring i 2 s = String h (String l EmptyString).
Proof.
  revert i; induction s as [|x s IH]; intros i Hh Hl; [discriminate |].
  destruct i as [|i].
  - simpl in Hh. injection Hh as ->. simpl in Hl.
    destruct s as [|y s]; [discriminate |]. simpl in Hl. injection Hl as ->.
    simpl. by destruct s.
  - simpl in *. by apply IH.
Qed.

(** ** Bytes *)

Lemma int_of_uchar_range (b : uchar) : 0 ≤ int_of_uchar b < 256.
Proof.
  unfold int_of_uchar. pose proof (Byte.to_N_bounded b). lia.
Qed.

Lemma uchar_of_int_of_uchar (b : uchar) : uchar_of_Z (int_of_uchar b) = b.
Proof.
  unfold uchar_of_Z, int_of_uchar.
  pose proof (Byte.to_N_bounded b).
  rewrite Z.mod_small by lia. rewrite N2Z.id. by rewrite Byte.of_to_N.
Qed.

(** Every character is one of the 256 values of [all_ascii]. *)
Lemma in_all_ascii (c : ascii) : In c all_ascii.
Proof.
  unfold all_ascii. rewrite <- (ascii_nat_embedding c).
  apply in_map, in_seq. pose proof (nat_ascii_bounded c). lia.
Qed.

Lemma all_ascii_forallb (P : ascii → bool) :
  forallb P all_ascii = true → ∀ c, P c = true.
Proof.
  intros H c. rewrite forallb_forall in H. apply H, in_all_ascii.
Qed.

(** ** Hexadecimal output *)

Lemma put_hex_byte_digits (b : uchar) :
  put_hex_byte b
  = String (hex_digit (int_of_uchar b / 16))
           (String (hex_digit (int_of_uchar b mod 16)) EmptyString).
Proof. destruct b; reflexivity. Qed.

Lemma hex_digit_lower (d : Z) :
  0 ≤ d < 16 → lower_hex_alphabet !! Z.to_nat d = Some (hex_digit d).
Proof.
  intros Hd.
  assert (Hc : d ∈ [0; 1; 2; 3; 4; 5; 6; 7; 8; 9; 10; 11; 12; 13; 14; 15]).
  { rewrite !elem_of_cons. lia. }
  repeat (apply elem_of_cons in Hc as [-> | Hc]; [reflexivity |]).
  by apply elem_of_nil in Hc.
Qed.

Lemma digit16_hex_digit (d : Z) : 0 ≤ d < 16 → digit16 (hex_digit d) = Some d.
Proof.
  intros Hd.
  assert (Hc : d ∈ [0; 1; 2; 3; 4; 5; 6; 7; 8; 9; 10; 11; 12; 13; 14; 15]).
  { rewrite !elem_of_cons. lia. }
  repeat (apply elem_of_cons in Hc as [-> | Hc]; [reflexivity |]).
  by apply elem_of_nil in Hc.
Qed.

Lemma fold_put_hex (bs : list uchar) (acc : string) :
  List.fold_left (λ oss b, oss +:+ put_hex_byte b) bs acc
  = acc +:+ hex_of_bytes bs.
Proof.
  unfold hex_of_bytes. revert acc.
  induction bs as [|b bs IH]; intros acc; simpl.
  - by rewrite append_empty_r.
  - rewrite IH, (IH (EmptyString +:+ put_hex_byte b)).
    change (EmptyString +:+ put_hex_byte b) with (put_hex_byte b). apply append_assoc.
Qed.

Lemma hex_of_bytes_cons (b : uchar) (bs : list uchar) :
  hex_of_bytes (b :: bs) = put_hex_byte b +:+ hex_of_bytes bs.
Proof. unfold hex_of_bytes at 1. simpl. apply (fold_put_hex bs (put_hex_byte b)). Qed.

Lemma hex_of_bytes_length (bs : list uchar) :
  String.length (hex_of_bytes bs) = (2 * List.length bs)%nat.
Proof.
  induction bs as [|b bs IH]; [reflexivity |].
  rewrite hex_of_bytes_cons, length_append, IH, put_hex_byte_digits. simpl. lia.
Qed.

(** The two characters that stand for byte [k]. *)
Lemma hex_of_bytes_get (bs : list uchar) (k : nat) (b : uchar) :
  bs !! k = Some b →
  String.get (2 * k) (hex_of_bytes bs) = Some (hex_digit (int_of_uchar b / 16))
  ∧ String.get (S (2 * k)) (hex_of_bytes bs)
    = Some (hex_digit (int_of_uchar b mod 16)).
Proof.
  revert k; induction bs as [|x bs IH]; intros k Hk; [discriminate |].
  rewrite hex_of_bytes_cons, put_hex_byte_digits.
  destruct k as [|k].
  - injection Hk as ->. split; reflexivity.
  - simpl in Hk. destruct (IH k Hk) as [H1 H2].
    replace (2 * S k)%nat with (S (S (2 * k))) by lia.
    rewrite !append_String. simpl. split; assumption.
Qed.

Lemma nibbles_range (b : uchar) :
  0 ≤ int_of_uchar b / 16 < 16 ∧ 0 ≤ int_of_uchar b mod 16 < 16.
Proof.
  pose proof (int_of_uchar_range b). Z.div_mod_to_equations. lia.
Qed.

Lemma list_ascii_append (a b : string) :
  list_ascii_of_string (a +:+ b)
  = (list_ascii_of_string a ++ list_ascii_of_string b)%list.
Proof.
  induction a as [|x a IH]; [reflexivity |].
  rewrite append_String. simpl. by rewrite IH.
Qed.

Lemma hex_digit_in_lower (d : Z) :
  0 ≤ d < 16 → hex_digit d ∈ lower_hex_alphabet.
Proof.
  intros Hd. apply list_elem_of_lookup. eexists. by apply hex_digit_lower.
Qed.

Lemma hex_of_bytes_lower (bs : list uchar) (c : ascii) :
  c ∈ list_ascii_of_string (hex_of_bytes bs) → c ∈ lower_hex_alphabet.
Proof.
  induction bs as [|b bs IH]; intros Hc.
  - by apply elem_of_nil in Hc.
  - rewrite hex_of_bytes_cons, list_ascii_append, put_hex_byte_digits in Hc.
    destruct (nibbles_range b) as [Hhi Hlo].
    apply elem_of_app in Hc as [Hc | Hc]; [| by apply IH].
    simpl in Hc. rewrite !elem_of_cons in Hc.
    destruct Hc as [-> | [-> | Hc]]; [by apply hex_digit_in_lower .. |].
    by apply elem_of_nil in Hc.
Qed.

(** ** The fingerprint *)

Example SHA256_abc :
  hex_of_bytes (SHA256.hash (bytes_of_string "abc"))
  = "ba7816bf8f01cfea414140de5dae2223b00361a396177a9cb410ff61f20015ad".
Proof. vm_compute. reflexivity. Qed.

Example SHA256_two_blocks :
  hex_of_bytes (SHA256.hash (bytes_of_string
    "abcdbcdecdefdefgefghfghighijhijkijkljklmklmnlmnomnopnopq"))
  = "248d6a61d20638b8e5c026930c3e6039a33ce45964ff2167f6ecedd419db06c1".
Proof. vm_compute. reflexivity. Qed.

Example SHA256_empty :
  hex_of_bytes (SHA256.hash [])
  = "e3b0c44298fc1c149afbf4c8996fb92427ae41e4649b934ca495991b7852b855".
Proof. vm_compute. reflexivity. Qed.

Lemma SHA256_hash_length (msg : list uchar) :
  List.length (SHA256.hash msg) = 32%nat.
Proof. reflexivity. Qed.

Example fingerprint_of_empty_identifiers :
  getHardwareFingerprint
    {| getMacAddress := EmptyString; getDiskSerialNumber := EmptyString;
       getCpuId := EmptyString |}
  = "565d240f5343e625ae579a4d45a770f1f02c6368b5ed4d06da4fbe6f47c28866".
Proof. vm_compute. reflexivity. Qed.

(** C4. For every triple of identifiers the fingerprint is the SHA-256
    digest of [mac + "|" + disk + "|" + cpu], the identifiers taken as they
    are, written as 64 lowercase hexadecimal characters, two per byte of the
    digest; the function is total and its value depends on the three
    identifiers only. *)
Theorem fingerprint_derivation (sys : SystemInfo) :
  let combined :=
    getMacAddress sys +:+ "|" +:+ getDiskSerialNumber sys +:+ "|" +:+ getCpuId sys in
  let digest := SHA256.hash (bytes_of_string combined) in
  let fingerprint := getHardwareFingerprint sys in
  List.length digest = 32%nat
  ∧ String.length fingerprint = 64%nat
  ∧ (∀ c, c ∈ list_ascii_of_string fingerprint → c ∈ lower_hex_alphabet)
  ∧ (∀ k b, digest !! k = Some b →
       String.get (2 * k) fingerprint
       = lower_hex_alphabet !! Z.to_nat (int_of_uchar b / 16)
       ∧ String.get (S (2 * k)) fingerprint
         = lower_hex_alphabet !! Z.to_nat (int_of_uchar b mod 16))
  ∧ (∀ sys', getMacAddress sys' = getMacAddress sys →
       getDiskSerialNumber sys' = getDiskSerialNumber sys →
       getCpuId sys' = getCpuId sys →
       getHardwareFingerprint sys' = fingerprint).
Proof.
  intros combined digest fingerprint.
  assert (Hfp : fingerprint = hex_of_bytes digest) by reflexivity.
  split; [apply SHA256_hash_length |].
  split; [rewrite Hfp, hex_of_bytes_length; unfold digest;
          by rewrite SHA256_hash_length |].
  split; [rewrite Hfp; apply hex_of_bytes_lower |].
  split.
  - intros k b Hk. rewrite Hfp.
    destruct (hex_of_bytes_get digest k b Hk) as [-> ->].
    destruct (nibbles_range b) as [Hhi Hlo].
    by rewrite !hex_digit_lower.
  - intros [mac' disk' cpu']; simpl; intros -> -> ->. reflexivity.
Qed.

Lemma fingerprint_derivation_witness :
  getHardwareFingerprint degraded_system
  = "2a3326d3781301a8881ee481e7a50a267bf2e04e83a5c974930d6b8d0b7fe49f"
  ∧ "2"%char ∈ lower_hex_alphabet
  ∧ String.get 1 (getHardwareFingerprint degraded_system) = Some "a"%char.
Proof.
  destruct (fingerprint_derivation degraded_system) as (_ & _ & Hc & Hk & Hd).
  split; [| split].
  - symmetry. apply (Hd degraded_system); reflexivity.
  - apply Hc. vm_compute. apply list_elem_of_here.
  - refine (eq_trans (proj2 (Hk 0%nat Byte.x2a _)) _); vm_compute; reflexivity.
Defined.

(** ** Decoding the signature *)

Lemma is_hex_char_alphabet (c : ascii) :
  is_hex_char c = true ↔ c ∈ hex_alphabet.
Proof.
  assert (H : ∀ c, Bool.eqb (is_hex_char c) (bool_decide (c ∈ hex_alphabet)) = true).
  { apply all_ascii_forallb. vm_compute. reflexivity. }
  specialize (H c). apply Bool.eqb_prop in H. rewrite H.
  apply bool_decide_eq_true.
Qed.

Lemma is_hex_char_digit16 (c : ascii) :
  is_hex_char c = true → ∃ v, digit16 c = Some v ∧ hex_digit_value c v.
Proof.
  assert (H : ∀ c, (if is_hex_char c then
                      match digit16 c with
                      | Some v => bool_decide (hex_digit_value c v)
                      | None => false
                      end
                    else true) = true).
  { apply all_ascii_forallb. vm_compute. reflexivity. }
  intros Hc. specialize (H c). rewrite Hc in H.
  destruct (digit16 c) as [v|]; [| discriminate].
  apply bool_decide_eq_true in H. by exists v.
Qed.

Lemma isHex_loop_spec (s : string) :
  isHex_loop s = true ↔ ∀ c, c ∈ list_ascii_of_string s → is_hex_char c = true.
Proof.
  induction s as [|x s IH]; simpl.
  - split; [| reflexivity]. intros _ c Hc. by apply elem_of_nil in Hc.
  - destruct (is_hex_char x) eqn:Hx; simpl.
    + rewrite IH. split.
      * intros H c Hc. apply elem_of_cons in Hc as [-> | Hc]; auto.
      * intros H c Hc. apply H. by apply list_elem_of_further.
    + split; [discriminate |]. intros H.
      rewrite <- Hx. apply H, list_elem_of_here.
Qed.

(** [strtol] on two hexadecimal digits: sixteen times the first plus the
    second (no sign, no space, no prefix can be among them). *)
Lemma strtol16_two (h l : ascii) (vh vl : Z) :
  digit16 h = Some vh → digit16 l = Some vl →
  strtol16 (String h (String l EmptyString)) = 16 * vh + vl.
Proof.
  assert (H : ∀ h l, strtol16_pair_check h l = true).
  { intros h'. apply all_ascii_forallb. revert h'. apply all_ascii_forallb.
    vm_compute. reflexivity. }
  intros Hh Hl. specialize (H h l). unfold strtol16_pair_check in H.
  rewrite Hh, Hl in H. by apply Z.eqb_eq.
Qed.

Lemma int_of_uchar_of_Z (z : Z) : int_of_uchar (uchar_of_Z z) = z mod 256.
Proof.
  unfold int_of_uchar, uchar_of_Z.
  pose proof (Z.mod_pos_bound z 256 ltac:(lia)) as Hz.
  destruct (Byte.of_N (Z.to_N (z mod 256))) as [b|] eqn:Hb.
  - apply Byte.to_of_N in Hb. rewrite Hb. lia.
  - apply Byte.of_N_None_iff in Hb. lia.
Qed.

Lemma get_is_Some (s : string) (n : nat) :
  (n < String.length s)%nat → is_Some (String.get n s).
Proof.
  intros Hn. rewrite get_list_ascii. apply lookup_lt_is_Some.
  by rewrite length_list_ascii.
Qed.

Lemma get_elem_of (s : string) (n : nat) (c : ascii) :
  String.get n s = Some c → c ∈ list_ascii_of_string s.
Proof.
  rewrite get_list_ascii. intros H. apply list_elem_of_lookup. by exists n.
Qed.

Lemma hex_loop_length (fuel i : nat) (s : string) (signature : list uchar) :
  List.length (hex_loop fuel i s signature) = List.length signature.
Proof.
  revert i signature; induction fuel as [|fuel IH]; intros i signature; simpl.
  - reflexivity.
  - destruct (i <? String.length s)%nat; [| reflexivity].
    by rewrite IH, length_insert.
Qed.

(** What the loop leaves in entry [j], when started at index [2 * k]. *)
Lemma hex_loop_lookup (fuel k : nat) (s : string) (signature : list uchar) (j : nat) :
  (String.length s ≤ 2 * (k + fuel))%nat → (j < List.length signature)%nat →
  hex_loop fuel (2 * k) s signature !! j
  = if decide (k ≤ j ∧ 2 * j < String.length s)%nat
    then Some (uchar_of_Z (strtol16 (substring (2 * j) 2 s)))
    else signature !! j.
Proof.
  revert k signature; induction fuel as [|fuel IH]; intros k signature Hlen Hj;
    cbn [hex_loop].
  - by_decide.
  - destruct (2 * k <? String.length s)%nat eqn:Hk.
    + apply Nat.ltb_lt in Hk.
      replace (2 * k + 2)%nat with (2 * S k)%nat by lia.
      replace (Nat.div (2 * k) 2) with k
        by (rewrite Nat.mul_comm; symmetry; apply Nat.div_mul; lia).
      rewrite IH; [| lia | by rewrite length_insert].
      destruct (decide (j = k)) as [-> | Hne].
      * rewrite list_lookup_insert_eq by done.
        by_decide.
      * rewrite list_lookup_insert_ne by done.
        by_decide.
    + apply Nat.ltb_ge in Hk. by_decide.
Qed.

Lemma decode_hex_length (s : string) : List.length (decode_hex s) = 256%nat.
Proof. unfold decode_hex. by rewrite hex_loop_length, length_replicate. Qed.

Lemma decode_hex_lookup (s : string) (k : nat) :
  String.length s = 512%nat → (k < 256)%nat →
  decode_hex s !! k = Some (uchar_of_Z (strtol16 (substring (2 * k) 2 s))).
Proof.
  intros Hlen Hk. unfold decode_hex.
  rewrite (hex_loop_lookup (String.length s) 0); [| lia | by rewrite length_replicate].
  by_decide.
Qed.

Lemma takes_hex_branch_spec (s : string) :
  takes_hex_branch s = true
  ↔ (∀ c, c ∈ list_ascii_of_string s → c ∈ hex_alphabet)
    ∧ String.length s = 512%nat.
Proof.
  unfold takes_hex_branch. rewrite andb_true_iff, isHex_loop_spec, Nat.eqb_eq.
  split; intros [H1 H2]; (split; [| exact H2]); intros c Hc;
    apply is_hex_char_alphabet; auto.
Qed.

(** C3. The signature is decoded as hexadecimal exactly when all its
    characters are in [0-9a-fA-F] and it has 512 of them; every other string,
    whatever its length and characters, goes to the Base64 branch. On the
    hexadecimal branch the result has 256 bytes, byte [k] being sixteen times
    the value of character [2k] plus the value of character [2k+1]. *)
Theorem signature_format_detection `{OpenSSL} (s : string) :
  (takes_hex_branch s = true
   ↔ (∀ c, c ∈ list_ascii_of_string s → c ∈ hex_alphabet)
     ∧ String.length s = 512%nat)
  ∧ (takes_hex_branch s = false → decode_signature s = decode_base64 s)
  ∧ (takes_hex_branch s = true →
     decode_signature s = Some (decode_hex s)
     ∧ List.length (decode_hex s) = 256%nat
     ∧ ∀ k, (k < 256)%nat →
         ∃ h l vh vl b,
           String.get (2 * k) s = Some h ∧ String.get (S (2 * k)) s = Some l
           ∧ hex_digit_value h vh ∧ hex_digit_value l vl
           ∧ decode_hex s !! k = Some b ∧ int_of_uchar b = 16 * vh + vl).
Proof.
  split; [apply takes_hex_branch_spec |].
  split; [intros Hb; unfold decode_signature; by rewrite Hb |].
  intros Hb.
  split; [unfold decode_signature; by rewrite Hb |].
  split; [apply decode_hex_length |].
  intros k Hk.
  unfold takes_hex_branch in Hb. apply andb_true_iff in Hb as [Hhex Hlen].
  apply Nat.eqb_eq in Hlen. rewrite isHex_loop_spec in Hhex.
  destruct (get_is_Some s (2 * k)) as [h Hh]; [lia |].
  destruct (get_is_Some s (S (2 * k))) as [l Hl]; [lia |].
  destruct (is_hex_char_digit16 h) as (vh & Hvh & Hdh);
    [by eapply Hhex, get_elem_of |].
  destruct (is_hex_char_digit16 l) as (vl & Hvl & Hdl);
    [by eapply Hhex, get_elem_of |].
  exists h, l, vh, vl, (uchar_of_Z (16 * vh + vl)).
  split_and!; try assumption.
  - rewrite decode_hex_lookup by assumption.
    by rewrite (substring_two s (2 * k) h l), (strtol16_two h l vh vl).
  - rewrite int_of_uchar_of_Z. destruct Hdh as [? _], Hdl as [? _].
    apply Z.mod_small. lia.
Qed.

Lemma signature_format_detection_witness :
  takes_hex_branch (fill_string 512 "A") = true
  ∧ List.length (decode_hex (fill_string 512 "A")) = 256%nat
  ∧ @decode_signature Sample.openssl (fill_string 511 "A")
    = @decode_base64 Sample.openssl (fill_string 511 "A")
  ∧ @decode_signature Sample.openssl (fill_string 513 "A")
    = @decode_base64 Sample.openssl (fill_string 513 "A").
Proof.
  destruct (@signature_format_detection Sample.openssl (fill_string 512 "A"))
    as (Hiff & _ & Hhex).
  assert (Hb : takes_hex_branch (fill_string 512 "A") = true).
  { apply Hiff. split; [| vm_compute; reflexivity].
    apply Forall_forall. compute_done. }
  split; [exact Hb |].
  split; [apply Hhex, Hb |].
  split.
  - apply (@signature_format_detection Sample.openssl (fill_string 511 "A")).
    vm_compute. reflexivity.
  - apply (@signature_format_detection Sample.openssl (fill_string 513 "A")).
    vm_compute. reflexivity.
Defined.

Example decode_hex_512_A :
  decode_hex (fill_string 512 "A") = replicate 256 Byte.xaa.
Proof. vm_compute. reflexivity. Qed.

(** Decoding what the issuer's loop has written gives the bytes back. *)
Lemma decode_hex_hex_of_bytes (sig : list uchar) :
  List.length sig = 256%nat → decode_hex (hex_of_bytes sig) = sig.
Proof.
  intros Hlen. apply list_eq. intros k.
  destruct (decide (k < 256)%nat) as [Hk | Hk].
  - destruct (lookup_lt_is_Some_2 sig k) as [b Hb]; [lia |].
    destruct (hex_of_bytes_get sig k b Hb) as [Hh Hl].
    destruct (nibbles_range b) as [Hhi Hlo].
    rewrite decode_hex_lookup; [| rewrite hex_of_bytes_length; lia | exact Hk].
    rewrite (substring_two _ _ _ _ Hh Hl).
    rewrite (strtol16_two _ _ _ _ (digit16_hex_digit _ Hhi) (digit16_hex_digit _ Hlo)).
    rewrite Hb. f_equal.
    rewrite <- (uchar_of_int_of_uchar b) at 3. f_equal.
    pose proof (Z.div_mod (int_of_uchar b) 16). lia.
  - rewrite !lookup_ge_None_2; [reflexivity | lia |].
    rewrite decode_hex_length. lia.
Qed.

Lemma lower_hex_in_hex_alphabet (c : ascii) :
  c ∈ lower_hex_alphabet → c ∈ hex_alphabet.
Proof.
  intros Hc.
  change hex_alphabet with (lower_hex_alphabet ++ list_ascii_of_string "ABCDEF")%list.
  apply elem_of_app. by left.
Qed.

(** The hexadecimal text of a signature goes to the hexadecimal branch
    only when the signature has 256 bytes. *)
Lemma hex_branch_needs_256 (sig : list uchar) :
  List.length sig ≠ 256%nat → takes_hex_branch (hex_of_bytes sig) = false.
Proof.
  intros Hlen. apply not_true_is_false. intros Hb.
  apply takes_hex_branch_spec in Hb as [_ Hb].
  rewrite hex_of_bytes_length in Hb. lia.
Qed.

Lemma takes_hex_branch_hex_of_bytes (sig : list uchar) :
  List.length sig = 256%nat → takes_hex_branch (hex_of_bytes sig) = true.
Proof.
  intros Hlen. apply takes_hex_branch_spec. split.
  - intros c Hc. by eapply lower_hex_in_hex_alphabet, hex_of_bytes_lower.
  - rewrite hex_of_bytes_length. lia.
Qed.

(** ** The single-line Base64 filter *)

Lemma trim_start_drop (f : list ascii) :
  ∃ k, Base64.trim_start f = drop k f
       ∧ ∀ m c, (m < k)%nat → f !! m = Some c → Base64.conv_ascii2bin c = Base64.B64_WS.
Proof.
  induction f as [|x f IH]; cbn [Base64.trim_start].
  - exists 0%nat. split; [done |]. intros; lia.
  - destruct (Base64.conv_ascii2bin x =? Base64.B64_WS) eqn:Hx.
    + destruct IH as (k & Hk & Hws). exists (S k). split; [done |].
      intros [|m] c Hm Hc.
      * injection Hc as <-. by apply Z.eqb_eq.
      * apply (Hws m); [lia | done].
    + exists 0%nat. split; [done |]. intros; lia.
Qed.

Lemma removelast_take (f : list ascii) :
  removelast f = take (List.length f - 1) f.
Proof.
  induction f as [|x f IH]; [done |].
  destruct f as [|y f]; [done |].
  change (removelast (x :: y :: f)) with (x :: removelast (y :: f)).
  rewrite IH. cbn [List.length]. rewrite !Nat.sub_succ, !Nat.sub_0_r. done.
Qed.

Lemma last_lookup_default (f : list ascii) (d : ascii) :
  f ≠ [] → f !! (List.length f - 1)%nat = Some (List.last f d).
Proof.
  induction f as [|x f IH]; [done |]. intros _.
  destruct f as [|y f]; [done |].
  change (List.last (x :: y :: f) d) with (List.last (y :: f) d).
  cbn [List.length]. rewrite Nat.sub_succ, Nat.sub_0_r.
  rewrite lookup_cons_ne_0 by (cbn; lia).
  rewrite <- IH by done. cbn [List.length]. f_equal. lia.
Qed.

Lemma trim_end_take (fuel : nat) (f : list ascii) :
  ∃ m, Base64.trim_end fuel f = take m f
       ∧ ∀ p d, f !! p = Some d → kept_at_end d = true → (p < m)%nat.
Proof.
  revert f; induction fuel as [|fuel IH]; intros f; cbn [Base64.trim_end].
  - exists (List.length f). split; [by rewrite firstn_all |].
    intros p d Hp _. by eapply lookup_lt_Some.
  - destruct ((3 <? List.length f)%nat
              && Base64.B64_NOT_BASE64 (Base64.conv_ascii2bin (List.last f "000"%char)))
      eqn:Hc.
    + apply andb_true_iff in Hc as [Hlen Hlast]. apply Nat.ltb_lt in Hlen.
      destruct (IH (removelast f)) as (m & Hm & Hkept).
      rewrite removelast_take in Hkept.
      assert (f ≠ []) as Hne by (intros ->; cbn in Hlen; lia).
      pose proof (last_lookup_default f "000"%char Hne) as Hl.
      assert (∀ p d, f !! p = Some d → kept_at_end d = true →
                     (p < List.length f - 1)%nat) as Hbefore.
      { intros p d Hp Hd. pose proof (lookup_lt_Some _ _ _ Hp) as Hlt.
        destruct (decide (p = List.length f - 1)%nat) as [-> | Hneq]; [| lia].
        rewrite Hl in Hp. injection Hp as <-.
        unfold kept_at_end in Hd. rewrite Hlast in Hd. discriminate. }
      assert (∀ p d, f !! p = Some d → kept_at_end d = true → (p < m)%nat) as Hall.
      { intros p d Hp Hd. apply (Hkept p d); [| done].
        rewrite lookup_take_lt by (by eapply Hbefore). done. }
      destruct (decide (m ≤ List.length f - 1)%nat) as [Hle | Hgt].
      * exists m. split; [| done].
        rewrite Hm, removelast_take, take_take. f_equal. lia.
      * exists (List.length f - 1)%nat. split.
        -- rewrite Hm, removelast_take, take_take. f_equal. lia.
        -- intros p d Hp Hd. by eapply Hbefore.
    + exists (List.length f). split; [by rewrite firstn_all |].
      intros p d Hp _. by eapply lookup_lt_Some.
Qed.

Lemma decode_groups_accepts (n : nat) (f : list ascii) (t : list uchar) :
  (List.length f ≤ n)%nat →
  Base64.decode_groups f = Some t →
  (List.length t ≤ List.length f)%nat
  ∧ ∀ p c, f !! p = Some c → (p < 4 * (List.length f / 4))%nat →
           Base64.high_bit (Base64.conv_ascii2bin c) = false.
Proof.
  revert f t; induction n as [|n IH]; intros f t Hn.
  - destruct f; [| cbn in Hn; lia]. cbn. intros [= <-]. split; [done |].
    intros; lia.
  - destruct f as [|ca [|cb [|cc [|cd rest]]]];
      try (cbn; intros [= <-]; split; [cbn; lia | intros p c _ Hp; cbn in Hp; lia]).
    cbn [Base64.decode_groups].
    destruct (Base64.high_bit (Base64.conv_ascii2bin ca)) eqn:Ha; [discriminate |].
    destruct (Base64.high_bit (Base64.conv_ascii2bin cb)) eqn:Hb; [discriminate |].
    destruct (Base64.high_bit (Base64.conv_ascii2bin cc)) eqn:Hc; [discriminate |].
    destruct (Base64.high_bit (Base64.conv_ascii2bin cd)) eqn:Hd; [discriminate |].
    cbn [orb].
    destruct (Base64.decode_groups rest) as [t'|] eqn:Hrest; [| discriminate].
    intros [= <-].
    destruct (IH rest t') as [Hlen Hall]; [cbn in Hn; lia | done |].
    split; [cbn [List.length]; lia |].
    intros p c Hp Hlt.
    destruct p as [|[|[|[|p]]]]; cbn in Hp; try (injection Hp as <-; done).
    apply (Hall p c Hp).
    cbn [List.length] in Hlt.
    replace (S (S (S (S (List.length rest))))) with (List.length rest + 1 * 4)%nat
      in Hlt by lia.
    rewrite Nat.div_add in Hlt by lia. lia.
Qed.

Lemma EVP_DecodeBlock_length (f : list ascii) :
  (List.length (Base64.EVP_DecodeBlock f).2 ≤ List.length f)%nat
  ∧ (Base64.EVP_DecodeBlock f).1 ≤ Z.of_nat (List.length (Base64.EVP_DecodeBlock f).2)
  ∧ ((Base64.EVP_DecodeBlock f).1 < 0 → (Base64.EVP_DecodeBlock f).1 = -1).
Proof.
  unfold Base64.EVP_DecodeBlock.
  destruct (trim_start_drop f) as (k & -> & _).
  destruct (trim_end_take (List.length (drop k f)) (drop k f)) as (m & -> & _).
  destruct (negb _); [cbn; lia |].
  destruct (Base64.decode_groups (take m (drop k f))) as [t|] eqn:Ht; [| cbn; lia].
  destruct (decode_groups_accepts _ _ _ (Nat.le_refl _) Ht) as [Hlen _].
  cbn [fst snd]. rewrite length_take, length_drop in Hlen. lia.
Qed.

Lemma EVP_DecodeBlock_refused (f : list ascii) (i j : nat) (c d : ascii) :
  f !! i = Some c → refused c = true →
  f !! j = Some d → kept_at_end d = true →
  (i < j)%nat →
  Base64.EVP_DecodeBlock f = (-1, []).
Proof.
  intros Hi Hc Hj Hd Hij. unfold Base64.EVP_DecodeBlock.
  unfold refused in Hc. apply andb_true_iff in Hc as [Hhigh Hws].
  apply negb_true_iff, Z.eqb_neq in Hws.
  destruct (trim_start_drop f) as (k & -> & Hk).
  assert (k ≤ i)%nat as Hki.
  { destruct (decide (k ≤ i)%nat) as [|Hgt]; [done |].
    destruct Hws. apply (Hk i); [lia | done]. }
  set (f1 := drop k f).
  assert (f1 !! (i - k)%nat = Some c) as Hi1.
  { unfold f1. rewrite lookup_drop. rewrite <- Hi. f_equal. lia. }
  assert (f1 !! (j - k)%nat = Some d) as Hj1.
  { unfold f1. rewrite lookup_drop. rewrite <- Hj. f_equal. lia. }
  destruct (trim_end_take (List.length f1) f1) as (m & -> & Hm).
  pose proof (Hm _ _ Hj1 Hd) as Hjm.
  pose proof (lookup_lt_Some _ _ _ Hj1) as Hjlen.
  destruct (negb _) eqn:Hmod; [done |].
  apply negb_false_iff, Nat.eqb_eq in Hmod.
  destruct (Base64.decode_groups (take m f1)) as [t|] eqn:Ht; [| done].
  destruct (decode_groups_accepts _ _ _ (Nat.le_refl _) Ht) as [_ Hall].
  assert (Base64.high_bit (Base64.conv_ascii2bin c) = false) as Hlow; [| congruence].
  apply (Hall (i - k)%nat).
  - rewrite lookup_take_lt by lia. done.
  - pose proof (Nat.div_mod_eq (List.length (take m f1)) 4) as Hdm.
    rewrite Hmod in Hdm. rewrite length_take in *. lia.
Qed.

Lemma b64_read_loop_end (fuel : nat) (tmp : list ascii) (outl : Z) (out : list uchar) :
  (List.length tmp < 4)%nat → (2 ≤ fuel)%nat →
  Base64.b64_read_loop fuel [] tmp 1 outl out = out.
Proof.
  intros Htmp Hfuel. destruct fuel as [|fuel1]; [lia |].
  assert (∃ fuel2, fuel1 = S fuel2) as [fuel2 Hf]
    by (destruct fuel1; [lia | eauto]).
  cbn [Base64.b64_read_loop].
  destruct (outl <=? 0) eqn:Houtl; [done |]. cbn [orb Z.leb Z.compare].
  rewrite take_nil, drop_nil. cbn [List.length Nat.eqb andb].
  destruct (List.length tmp =? 0)%nat eqn:Hz; [done |].
  rewrite app_nil_r.
  replace (4 * (List.length tmp / 4))%nat with 0%nat
    by (rewrite Nat.div_small by lia; lia).
  rewrite take_0. change (Base64.EVP_DecodeBlock []) with (0, @nil uchar).
  cbn [Nat.ltb Nat.leb andb Z.ltb Z.compare].
  rewrite (Z.min_l 0 outl) by (apply Z.leb_gt in Houtl; lia).
  cbn [Z.to_nat]. rewrite take_0, app_nil_r.
  subst fuel1. cbn [Base64.b64_read_loop]. by rewrite orb_true_r.
Qed.

Lemma b64_read_one_block (data : string) (outl : Z) :
  (0 < String.length data ≤ 1024)%nat → 0 < outl →
  Base64.b64_read data outl
  = let '(z, buf) := first_block (list_ascii_of_string data) in
    if z <? 0 then (0, [])
    else
      let out := take (Z.to_nat (Z.min z outl)) buf in
      (Z.of_nat (List.length out), out).
Proof.
  intros Hlen Houtl. unfold Base64.b64_read, first_block.
  rewrite <- length_list_ascii in Hlen.
  set (block := list_ascii_of_string data) in *.
  set (fuel1 := (List.length block + 1)%nat).
  replace (List.length block + 2)%nat with (S fuel1) by (unfold fuel1; lia).
  assert (2 ≤ fuel1)%nat as Hfuel by (unfold fuel1; lia).
  clearbody fuel1.
  cbn [Base64.b64_read_loop].
  destruct (outl <=? 0) eqn:Ho; [apply Z.leb_le in Ho; lia |].
  cbn [orb Z.leb Z.compare List.length].
  unfold Base64.B64_BLOCK_SIZE. rewrite Nat.sub_0_r.
  rewrite take_ge, drop_ge by lia.
  destruct (List.length block =? 0)%nat eqn:Hz; [apply Nat.eqb_eq in Hz; lia |].
  cbn [andb app].
  set (jj := (4 * (List.length block / 4))%nat).
  destruct (Base64.EVP_DecodeBlock (take jj block)) as [z buf].
  set (z' := if (2 <? jj)%nat && Base64.is_pad (block !! (jj - 1)%nat)
             then if Base64.is_pad (block !! (jj - 2)%nat) then z - 2 else z - 1
             else z).
  destruct (z' <? 0); [done |].
  rewrite b64_read_loop_end; [done | | lia].
  rewrite length_drop. unfold jj.
  pose proof (Nat.div_mod_eq (List.length block) 4) as Hdm.
  pose proof (Nat.mod_upper_bound (List.length block) 4). lia.
Qed.

Lemma first_block_bounds (block : list ascii) :
  (first_block block).1 ≤ Z.of_nat (List.length (first_block block).2)
  ∧ (List.length (first_block block).2 ≤ List.length block)%nat.
Proof.
  unfold first_block.
  set (jj := (4 * (List.length block / 4))%nat).
  pose proof (EVP_DecodeBlock_length (take jj block)) as (Hlen & Hz & _).
  destruct (Base64.EVP_DecodeBlock (take jj block)) as [z buf].
  cbn [fst snd] in *. rewrite length_take in Hlen.
  split; [| lia].
  destruct ((2 <? jj)%nat && Base64.is_pad (block !! (jj - 1)%nat));
    [destruct (Base64.is_pad (block !! (jj - 2)%nat)) |]; lia.
Qed.

Lemma first_block_refused (block : list ascii) (i j : nat) (c d : ascii) :
  block !! i = Some c → refused c = true →
  block !! j = Some d → kept_at_end d = true →
  (i < j < 4 * (List.length block / 4))%nat →
  (first_block block).1 < 0.
Proof.
  intros Hi Hc Hj Hd Hij. unfold first_block.
  set (jj := (4 * (List.length block / 4))%nat) in *.
  rewrite (EVP_DecodeBlock_refused (take jj block) i j c d);
    [| by rewrite lookup_take_lt by lia | done
     | by rewrite lookup_take_lt by lia | done | lia].
  destruct ((2 <? jj)%nat && Base64.is_pad (block !! (jj - 1)%nat));
    [destruct (Base64.is_pad (block !! (jj - 2)%nat)) |]; cbn; lia.
Qed.

Lemma first_block_app (block rest : list ascii) :
  (List.length block mod 4 = 0)%nat → (List.length rest < 4)%nat →
  first_block (block ++ rest) = first_block block.
Proof.
  intros Hmod Hrest. unfold first_block.
  pose proof (Nat.div_mod_eq (List.length block) 4) as Hdm.
  rewrite Hmod, Nat.add_0_r in Hdm.
  assert (List.length (block ++ rest) / 4 = List.length block / 4)%nat as ->.
  { rewrite length_app. rewrite Hdm at 1.
    rewrite Nat.mul_comm, Nat.div_add_l by lia.
    rewrite (Nat.div_small (List.length rest)) by lia. lia. }
  rewrite <- Hdm.
  rewrite take_app_length, firstn_all.
  destruct (Base64.EVP_DecodeBlock block) as [z buf].
  destruct (2 <? List.length block)%nat eqn:Hjj; [| done].
  apply Nat.ltb_lt in Hjj.
  rewrite !lookup_app_l by lia. done.
Qed.

(** ** [verifyLicense] *)

Section Verify.
Context `{OpenSSL}.

(** The value of [verifyLicense] once the signature is decoded and the
    public key is loaded. *)
Lemma verifyLicense_loaded (fs : FileSystem)
    (hash signatureBase64 publicKeyPath pubKeyFile : string)
    (signature : list uchar) (pubKey : EVP_PKEY) :
  decode_signature signatureBase64 = Some signature →
  open_read fs publicKeyPath = Some pubKeyFile →
  PEM_read_PUBKEY pubKeyFile = Some pubKey →
  verifyLicense fs hash signatureBase64 publicKeyPath
  = EVP_MD_CTX_new && (EVP_VerifyInit_ex =? 1) && (EVP_VerifyUpdate hash =? 1)
    && (EVP_VerifyFinal hash signature pubKey =? 1).
Proof.
  intros Hd Ho Hp. unfold verifyLicense. rewrite Hd, Ho, Hp.
  destruct EVP_MD_CTX_new, (EVP_VerifyInit_ex =? 1),
    (EVP_VerifyUpdate hash =? 1); reflexivity.
Qed.

Lemma verifyLicense_true_iff (fs : FileSystem)
    (hash signatureBase64 publicKeyPath : string) :
  verifyLicense fs hash signatureBase64 publicKeyPath = true
  ↔ ∃ signature pubKeyFile pubKey,
      decode_signature signatureBase64 = Some signature
      ∧ open_read fs publicKeyPath = Some pubKeyFile
      ∧ PEM_read_PUBKEY pubKeyFile = Some pubKey
      ∧ EVP_MD_CTX_new = true
      ∧ EVP_VerifyInit_ex = 1
      ∧ EVP_VerifyUpdate hash = 1
      ∧ EVP_VerifyFinal hash signature pubKey = 1.
Proof.
  split.
  - intros Hv.
    destruct (decode_signature signatureBase64) as [signature|] eqn:Hd;
      [| by unfold verifyLicense in Hv; rewrite Hd in Hv].
    destruct (open_read fs publicKeyPath) as [pubKeyFile|] eqn:Ho;
      [| by unfold verifyLicense in Hv; rewrite Hd, Ho in Hv].
    destruct (PEM_read_PUBKEY pubKeyFile) as [pubKey|] eqn:Hp;
      [| by unfold verifyLicense in Hv; rewrite Hd, Ho, Hp in Hv].
    rewrite (verifyLicense_loaded _ _ _ _ _ _ _ Hd Ho Hp) in Hv.
    rewrite !andb_true_iff, !Z.eqb_eq in Hv.
    destruct Hv as [[[? ?] ?] ?]. by exists signature, pubKeyFile, pubKey.
  - intros (signature & pubKeyFile & pubKey & Hd & Ho & Hp & Hc & Hi & Hu & Hf).
    rewrite (verifyLicense_loaded _ _ _ _ _ _ _ Hd Ho Hp).
    rewrite Hc, Hi, Hu, Hf. reflexivity.
Qed.

(** C2. [verifyLicense] returns [true] exactly when the signature decodes,
    the public key file opens and parses, the verification context is set
    up and [EVP_VerifyFinal] reports 1 for the decoded signature over the
    characters of the fingerprint; on each failure (the signature does not
    decode, the key file is missing or does not parse, the context fails,
    the signature does not match) it returns [false]. It is a total
    function to [bool]. *)
Theorem verifyLicense_fail_closed (fs : FileSystem)
    (hash signatureBase64 publicKeyPath : string) :
  (verifyLicense fs hash signatureBase64 publicKeyPath = true
   ↔ ∃ signature pubKeyFile pubKey,
       decode_signature signatureBase64 = Some signature
       ∧ open_read fs publicKeyPath = Some pubKeyFile
       ∧ PEM_read_PUBKEY pubKeyFile = Some pubKey
       ∧ EVP_MD_CTX_new = true
       ∧ EVP_VerifyInit_ex = 1
       ∧ EVP_VerifyUpdate hash = 1
       ∧ EVP_VerifyFinal hash signature pubKey = 1)
  ∧ (decode_signature signatureBase64 = None
     ∨ open_read fs publicKeyPath = None
     ∨ (∃ pubKeyFile, open_read fs publicKeyPath = Some pubKeyFile
                      ∧ PEM_read_PUBKEY pubKeyFile = None)
     ∨ EVP_MD_CTX_new = false
     ∨ EVP_VerifyInit_ex ≠ 1
     ∨ EVP_VerifyUpdate hash ≠ 1
     ∨ (∃ signature pubKeyFile pubKey,
          decode_signature signatureBase64 = Some signature
          ∧ open_read fs publicKeyPath = Some pubKeyFile
          ∧ PEM_read_PUBKEY pubKeyFile = Some pubKey
          ∧ EVP_VerifyFinal hash signature pubKey ≠ 1)
     → verifyLicense fs hash signatureBase64 publicKeyPath = false).
Proof.
  split; [apply verifyLicense_true_iff |].
  intros Hfail. apply not_true_is_false. intros Hv.
  apply verifyLicense_true_iff in Hv
    as (signature & pubKeyFile & pubKey & Hd & Ho & Hp & Hc & Hi & Hu & Hf).
  destruct Hfail as [Hn | [Hn | [(f & Hf1 & Hf2) | [Hn | [Hn | [Hn | Hn]]]]]];
    try congruence.
  destruct Hn as (signature' & pubKeyFile' & pubKey' & Hd' & Ho' & Hp' & Hf').
  congruence.
Qed.

Lemma decode_base64_None (s : string) :
  decode_base64 s = None
  ↔ BIO_new_base64 = false
    ∨ BIO_new_mem_buf s = false
    ∨ (BIO_read_base64 s (Z.of_nat (String.length s))).1 ≤ 0.
Proof.
  unfold decode_base64.
  destruct BIO_new_base64; simpl; [| by split; [left |]].
  destruct (BIO_new_mem_buf s); simpl; [| by split; [right; left |]].
  destruct (BIO_read_base64 s (Z.of_nat (String.length s))) as [actualLen stored].
  simpl. destruct (actualLen <=? 0) eqn:Hlen.
  - apply Z.leb_le in Hlen. split; [intros _; by right; right | reflexivity].
  - apply Z.leb_gt in Hlen. split; [discriminate |].
    intros [? | [? | ?]]; [discriminate | discriminate | lia].
Qed.

Section Filter.
Hypothesis Hfilter : single_line_filter.

Lemma decode_base64_one_block (s : string) :
  (0 < String.length s ≤ 1024)%nat →
  decode_base64 s
  = if (first_block (list_ascii_of_string s)).1 <=? 0 then None
    else Some (take (Z.to_nat (first_block (list_ascii_of_string s)).1)
                    (first_block (list_ascii_of_string s)).2).
Proof.
  intros Hlen. destruct Hfilter as (Hb64 & Hmem & Hread).
  unfold decode_base64. rewrite Hb64, Hmem, Hread. cbn [negb].
  rewrite b64_read_one_block by lia.
  pose proof (first_block_bounds (list_ascii_of_string s)) as [Hz Hbuf].
  rewrite length_list_ascii in Hbuf.
  destruct (first_block (list_ascii_of_string s)) as [z buf].
  cbn [fst snd] in *.
  destruct (z <? 0) eqn:Hneg.
  - apply Z.ltb_lt in Hneg. cbn.
    destruct (z <=? 0) eqn:Hle; [done | apply Z.leb_gt in Hle; lia].
  - apply Z.ltb_ge in Hneg.
    rewrite Z.min_l by lia.
    assert (List.length (take (Z.to_nat z) buf) = Z.to_nat z) as Hout
      by (rewrite length_take; lia).
    cbv zeta. rewrite Hout, Z2Nat.id by lia.
    destruct (z <=? 0) eqn:Hle; [done |].
    apply Z.leb_gt in Hle. f_equal.
    rewrite take_take.
    replace (Z.to_nat z `min` String.length s)%nat with (Z.to_nat z) by lia.
    rewrite take_app_le by lia. rewrite take_take. f_equal. lia.
Qed.

Lemma decode_base64_refused (s : string) (i j : nat) (c d : ascii) :
  (String.length s ≤ 1024)%nat →
  String.get i s = Some c → refused c = true →
  String.get j s = Some d → kept_at_end d = true →
  (i < j < groups_read s)%nat →
  decode_base64 s = None.
Proof.
  intros Hlen Hi Hc Hj Hd Hij. unfold groups_read in Hij.
  rewrite decode_base64_one_block.
  2:{ split; [| done]. destruct s; [cbn in Hij; lia | cbn; lia]. }
  rewrite get_list_ascii in Hi, Hj. rewrite <- length_list_ascii in Hij.
  pose proof (first_block_refused _ i j c d Hi Hc Hj Hd Hij) as Hneg.
  destruct (_ <=? 0) eqn:Hle; [done | apply Z.leb_gt in Hle; lia].
Qed.

Lemma decode_base64_rest (s rest : string) :
  (String.length s mod 4 = 0)%nat → (String.length rest < 4)%nat →
  (String.length s + String.length rest ≤ 1024)%nat →
  decode_base64 (s +:+ rest) = decode_base64 s.
Proof.
  intros Hmod Hrest Hlen.
  destruct (decide (String.length s = 0)%nat) as [Hz | Hnz].
  - destruct s; [| discriminate]. change (EmptyString +:+ rest) with rest.
    assert (decode_base64 EmptyString = None) as ->.
    { destruct Hfilter as (Hb64 & Hmem & Hread).
      unfold decode_base64. by rewrite Hb64, Hmem, Hread. }
    destruct (decide (String.length rest = 0)%nat) as [Hr | Hr].
    + destruct rest; [| discriminate].
      destruct Hfilter as (Hb64 & Hmem & Hread).
      unfold decode_base64. by rewrite Hb64, Hmem, Hread.
    + rewrite decode_base64_one_block by lia.
      unfold first_block. rewrite length_list_ascii.
      rewrite (Nat.div_small (String.length rest)) by lia.
      by rewrite take_0.
  - rewrite !decode_base64_one_block by (rewrite ?length_append; lia).
    rewrite list_ascii_append, first_block_app;
      [done | by rewrite length_list_ascii | by rewrite length_list_ascii].
Qed.

End Filter.

(** C7, as the code has it. A string that goes to the Base64 branch is
    handed to the filter as it is, line breaks included; the branch fails
    exactly when the filter cannot be set up or [BIO_read] returns no
    byte, and then [verifyLicense] returns [false]: the hexadecimal branch
    is not tried. With the single-line filter of OpenSSL and a string of at
    most 1024 characters: a line break, or another character outside the
    alphabet that is no space or tab, ahead of a character of the alphabet
    within the full groups of four makes the verification fail; what
    follows the last full group of four is not read, so that a signature
    followed by up to three more characters verifies as the signature
    alone. *)
Theorem base64_failure_is_final (fs : FileSystem)
    (hash signatureBase64 publicKeyPath : string) :
  takes_hex_branch signatureBase64 = false →
  decode_signature signatureBase64 = decode_base64 signatureBase64
  ∧ (decode_base64 signatureBase64 = None
     ↔ BIO_new_base64 = false
       ∨ BIO_new_mem_buf signatureBase64 = false
       ∨ (BIO_read_base64 signatureBase64
            (Z.of_nat (String.length signatureBase64))).1 ≤ 0)
  ∧ (decode_base64 signatureBase64 = None →
     verifyLicense fs hash signatureBase64 publicKeyPath = false)
  ∧ (single_line_filter →
     (String.length signatureBase64 ≤ 1024)%nat →
     (∀ i j c d,
        String.get i signatureBase64 = Some c → refused c = true →
        String.get j signatureBase64 = Some d → kept_at_end d = true →
        (i < j < groups_read signatureBase64)%nat →
        verifyLicense fs hash signatureBase64 publicKeyPath = false)
     ∧ (∀ rest,
          (String.length signatureBase64 mod 4 = 0)%nat →
          (String.length rest < 4)%nat →
          (String.length signatureBase64 + String.length rest ≤ 1024)%nat →
          takes_hex_branch (signatureBase64 +:+ rest) = false →
          verifyLicense fs hash (signatureBase64 +:+ rest) publicKeyPath
          = verifyLicense fs hash signatureBase64 publicKeyPath)).
Proof.
  intros Hb.
  assert (Hd : decode_signature signatureBase64 = decode_base64 signatureBase64)
    by (unfold decode_signature; by rewrite Hb).
  assert (Hfinal : decode_base64 signatureBase64 = None →
                   verifyLicense fs hash signatureBase64 publicKeyPath = false).
  { intros Hn. unfold verifyLicense. by rewrite Hd, Hn. }
  split_and!; [exact Hd | apply decode_base64_None | exact Hfinal |].
  intros Hfilter Hlen. split.
  - intros i j c d Hi Hc Hj Hk Hij.
    by apply Hfinal, (decode_base64_refused Hfilter _ i j c d).
  - intros rest Hmod Hrest Hsum Hb'. unfold verifyLicense, decode_signature.
    by rewrite Hb, Hb', (decode_base64_rest Hfilter).
Qed.

End Verify.

(** ** The strings that [dump] writes *)

Lemma utf8_run_ascii (s : string) :
  (∀ c, c ∈ list_ascii_of_string s → char_code c < 128) →
  utf8_run Utf8Accept s = Utf8Accept.
Proof.
  induction s as [|x s IH]; intros Hs; [reflexivity |].
  cbn [utf8_run utf8_step]. unfold utf8_first.
  assert (char_code x < 128) as Hx by apply Hs, list_elem_of_here.
  destruct (char_code x <=? 127) eqn:Hle; [| lia].
  apply IH. intros c Hc. by apply Hs, list_elem_of_further.
Qed.

Lemma utf8_valid_ascii (s : string) :
  (∀ c, c ∈ list_ascii_of_string s → char_code c < 128) → utf8_valid s = true.
Proof. intros Hs. unfold utf8_valid. by rewrite utf8_run_ascii. Qed.

Lemma utf8_valid_hex_of_bytes (bs : list uchar) :
  utf8_valid (hex_of_bytes bs) = true.
Proof.
  apply utf8_valid_ascii. intros c Hc. apply hex_of_bytes_lower in Hc.
  revert c Hc. apply Forall_forall. compute_done.
Qed.

(** ** [generateLicense] *)

Section Issue.
Context `{OpenSSL} `{Nlohmann}.

Lemma generateLicense_json_Some (fs : FileSystem)
    (hardwareId privateKeyPath : string) (licenseJson : gmap string JsonValue) :
  generateLicense_json fs hardwareId privateKeyPath = Returns (Some licenseJson)
  ↔ ∃ privKeyFile privateKey sig,
      open_read fs privateKeyPath = Some privKeyFile
      ∧ PEM_read_PrivateKey privKeyFile = Some privateKey
      ∧ EVP_MD_CTX_new = true
      ∧ EVP_SignFinal hardwareId privateKey = Some sig
      ∧ (List.length sig ≤ 256)%nat
      ∧ licenseJson = license_object hardwareId sig.
Proof.
  unfold generateLicense_json. split.
  - destruct (open_read fs privateKeyPath) as [privKeyFile|] eqn:Ho;
      [| discriminate].
    destruct (PEM_read_PrivateKey privKeyFile) as [privateKey|] eqn:Hp;
      [| discriminate].
    destruct EVP_MD_CTX_new eqn:Hctx; [| discriminate]. simpl.
    destruct (EVP_SignFinal hardwareId privateKey) as [sig|] eqn:Hsig;
      [| discriminate].
    destruct (256 <? List.length sig)%nat eqn:Hlen; [discriminate |].
    apply Nat.ltb_ge in Hlen. intros [= <-].
    by exists privKeyFile, privateKey, sig.
  - intros (privKeyFile & privateKey & sig & -> & -> & -> & -> & Hlen & ->).
    simpl. apply Nat.ltb_ge in Hlen. by rewrite Hlen.
Qed.

Lemma generateLicense_true (fs fs' : FileSystem)
    (hardwareId privateKeyPath outputFile : string) :
  generateLicense fs hardwareId privateKeyPath outputFile = Returns (true, fs')
  ↔ ∃ licenseJson,
      generateLicense_json fs hardwareId privateKeyPath = Returns (Some licenseJson)
      ∧ dump_throws licenseJson = false
      ∧ fs' = write_file fs outputFile (dump licenseJson 4).
Proof.
  unfold generateLicense. split.
  - destruct (generateLicense_json fs hardwareId privateKeyPath)
      as [[licenseJson|]| |]; try discriminate.
    destruct (dump_throws licenseJson) eqn:Hd; [discriminate |].
    intros [= <-]. by exists licenseJson.
  - intros (licenseJson & -> & -> & ->). reflexivity.
Qed.

Lemma license_object_lookup (hardwareId : string) (sig : list uchar) :
  license_object hardwareId sig !! "hardwareId" = Some (JString hardwareId)
  ∧ license_object hardwareId sig !! "signature" = Some (JString (hex_of_bytes sig))
  ∧ license_object hardwareId sig !! "hardwareFingerprint" = None.
Proof.
  unfold license_object. split_and!.
  - rewrite lookup_insert_ne by done. apply lookup_insert_eq.
  - apply lookup_insert_eq.
  - by rewrite !lookup_insert_ne, lookup_empty.
Qed.

(** The license object is written exactly when the hardware id is: its
    member names and its signature are ASCII. *)
Lemma dump_throws_license_object (hardwareId : string) (sig : list uchar) :
  dump_throws (license_object hardwareId sig) = negb (utf8_valid hardwareId).
Proof.
  unfold dump_throws. f_equal.
  destruct (utf8_valid hardwareId) eqn:Hid.
  - apply bool_decide_eq_true_2. unfold license_object.
    apply map_Forall_insert_2; [| apply map_Forall_insert_2; [| apply map_Forall_empty]].
    + change (is_text (JString (hex_of_bytes sig))) with (utf8_valid (hex_of_bytes sig)).
      by rewrite utf8_valid_hex_of_bytes.
    + change (is_text (JString hardwareId)) with (utf8_valid hardwareId).
      by rewrite Hid.
  - apply bool_decide_eq_false_2. intros Hall.
    destruct (license_object_lookup hardwareId sig) as (Hl & _ & _).
    specialize (Hall _ _ Hl). cbv beta in Hall.
    apply andb_true_iff in Hall as [_ Hall].
    change (utf8_valid hardwareId = true) in Hall. congruence.
Qed.

(** The conditions under which a license is issued. *)
Lemma generateLicense_issues (fs : FileSystem)
    (hardwareId privateKeyPath outputFile : string)
    (privKeyFile : string) (privateKey : EVP_PKEY) (sig : list uchar) :
  open_read fs privateKeyPath = Some privKeyFile →
  PEM_read_PrivateKey privKeyFile = Some privateKey →
  EVP_MD_CTX_new = true →
  EVP_SignFinal hardwareId privateKey = Some sig →
  (List.length sig ≤ 256)%nat →
  utf8_valid hardwareId = true →
  generateLicense fs hardwareId privateKeyPath outputFile
  = Returns (true, write_file fs outputFile (dump (license_object hardwareId sig) 4)).
Proof.
  intros Ho Hp Hctx Hsig Hlen Hid.
  apply generateLicense_true. exists (license_object hardwareId sig).
  split_and!; [| by rewrite dump_throws_license_object, Hid | reflexivity].
  apply generateLicense_json_Some. by exists privKeyFile, privateKey, sig.
Qed.

(** C1, as the code has it. For a pair of 2048-bit keys (the private key
    signs 256 bytes, the public key accepts them) and a verifier that loads
    the public key and sets up its context: when [generateLicense] succeeds
    on a fingerprint, [verifyLicense] returns [true] on the same fingerprint
    and the signature member of the license. Both sides take the characters
    of the fingerprint as they are; the signature member is the hexadecimal
    text of the raw signature and the verifier decodes it back. *)
Theorem issue_verify_round_trip (issuer issuer' client : FileSystem)
    (fingerprint privateKeyPath outputFile publicKeyPath : string)
    (privKeyFile pubKeyFile : string) (privateKey publicKey : EVP_PKEY) :
  open_read issuer privateKeyPath = Some privKeyFile →
  PEM_read_PrivateKey privKeyFile = Some privateKey →
  open_read client publicKeyPath = Some pubKeyFile →
  PEM_read_PUBKEY pubKeyFile = Some publicKey →
  (∀ sig, EVP_SignFinal fingerprint privateKey = Some sig →
          List.length sig = 256%nat
          ∧ EVP_VerifyFinal fingerprint sig publicKey = 1) →
  EVP_VerifyInit_ex = 1 →
  EVP_VerifyUpdate fingerprint = 1 →
  generateLicense issuer fingerprint privateKeyPath outputFile
  = Returns (true, issuer') →
  ∃ licenseJson sig,
    generateLicense_json issuer fingerprint privateKeyPath
    = Returns (Some licenseJson)
    ∧ EVP_SignFinal fingerprint privateKey = Some sig
    ∧ toString (licenseJson !! "signature") = hex_of_bytes sig
    ∧ decode_signature (hex_of_bytes sig) = Some sig
    ∧ verifyLicense client fingerprint (toString (licenseJson !! "signature"))
        publicKeyPath = true.
Proof.
  intros Hopen Hpriv Hopen' Hpub Hpair Hinit Hupdate Hgen.
  apply generateLicense_true in Hgen as (licenseJson & Hjson & _).
  pose proof Hjson as Hjson'.
  apply generateLicense_json_Some in Hjson'
    as (privKeyFile' & privateKey' & sig & Ho & Hp & Hctx & Hsig & _ & ->).
  rewrite Hopen in Ho. injection Ho as <-.
  rewrite Hpriv in Hp. injection Hp as <-.
  destruct (Hpair sig Hsig) as [Hlen Hverify].
  destruct (license_object_lookup fingerprint sig) as (_ & Hmember & _).
  assert (Hdecode : decode_signature (hex_of_bytes sig) = Some sig).
  { unfold decode_signature.
    by rewrite takes_hex_branch_hex_of_bytes, decode_hex_hex_of_bytes. }
  exists (license_object fingerprint sig), sig.
  split_and!; [exact Hjson | exact Hsig | by rewrite Hmember | exact Hdecode |].
  rewrite Hmember. simpl. apply verifyLicense_true_iff.
  by exists sig, pubKeyFile, publicKey.
Qed.

(** C6, as the code has it. A successful [generateLicense] has built (and
    handed to the output stream) an object with the two members
    [hardwareId], equal to the fingerprint it was given, and [signature], the
    raw signature in lowercase hexadecimal: two digits per byte, the high
    one first, nothing between them. The object has no member
    [hardwareFingerprint]; the client reads the fingerprint from
    [hardwareId]. *)
Theorem issued_license_object (fs fs' : FileSystem)
    (fingerprint privateKeyPath outputFile : string) :
  generateLicense fs fingerprint privateKeyPath outputFile = Returns (true, fs') →
  ∃ licenseJson privKeyFile privateKey sig,
    generateLicense_json fs fingerprint privateKeyPath = Returns (Some licenseJson)
    ∧ fs' = write_file fs outputFile (dump licenseJson 4)
    ∧ open_read fs privateKeyPath = Some privKeyFile
    ∧ PEM_read_PrivateKey privKeyFile = Some privateKey
    ∧ EVP_SignFinal fingerprint privateKey = Some sig
    ∧ dom licenseJson = ({["hardwareId"; "signature"]} : gset string)
    ∧ licenseJson !! "hardwareId" = Some (JString fingerprint)
    ∧ license_fingerprint licenseJson = fingerprint
    ∧ licenseJson !! "signature" = Some (JString (hex_of_bytes sig))
    ∧ String.length (hex_of_bytes sig) = (2 * List.length sig)%nat
    ∧ (∀ c, c ∈ list_ascii_of_string (hex_of_bytes sig) → c ∈ lower_hex_alphabet)
    ∧ (∀ k b, sig !! k = Some b →
         String.get (2 * k) (hex_of_bytes sig)
         = lower_hex_alphabet !! Z.to_nat (int_of_uchar b / 16)
         ∧ String.get (S (2 * k)) (hex_of_bytes sig)
           = lower_hex_alphabet !! Z.to_nat (int_of_uchar b mod 16)).
Proof.
  intros Hgen.
  apply generateLicense_true in Hgen as (licenseJson & Hjson & _ & ->).
  pose proof Hjson as Hjson'.
  apply generateLicense_json_Some in Hjson'
    as (privKeyFile & privateKey & sig & Ho & Hp & _ & Hsig & _ & ->).
  destruct (license_object_lookup fingerprint sig) as (Hid & Hmember & Hnone).
  exists (license_object fingerprint sig), privKeyFile, privateKey, sig.
  split_and!;
    [exact Hjson | reflexivity | exact Ho | exact Hp | exact Hsig
    | | exact Hid | | exact Hmember | | | ].
  - unfold license_object. rewrite !dom_insert_L, dom_empty_L. set_solver.
  - unfold license_fingerprint. by rewrite Hnone, Hid.
  - apply hex_of_bytes_length.
  - apply hex_of_bytes_lower.
  - intros k b Hk. destruct (hex_of_bytes_get sig k b Hk) as [-> ->].
    destruct (nibbles_range b) as [Hhi Hlo]. by rewrite !hex_digit_lower.
Qed.

(** C10, as the code has it. Once the private key is loaded and the
    signature is made (the context is allocated, the signature has at most
    the 256 bytes of [sig], the hardware id is UTF-8, so that [dump] does
    not throw), [generateLicense] returns [true] whether or not the output
    file could be opened: when it could, the file holds the license text;
    when it could not, the file system is left as it was, and no license
    file exists because of the call. *)
Theorem generateLicense_ignores_stream_state (fs : FileSystem)
    (hardwareId privateKeyPath outputFile : string)
    (privKeyFile : string) (privateKey : EVP_PKEY) (sig : list uchar) :
  open_read fs privateKeyPath = Some privKeyFile →
  PEM_read_PrivateKey privKeyFile = Some privateKey →
  EVP_MD_CTX_new = true →
  EVP_SignFinal hardwareId privateKey = Some sig →
  (List.length sig ≤ 256)%nat →
  utf8_valid hardwareId = true →
  ∃ fs',
    generateLicense fs hardwareId privateKeyPath outputFile = Returns (true, fs')
    ∧ (writable fs outputFile = true →
       files fs' !! outputFile = Some (dump (license_object hardwareId sig) 4))
    ∧ (writable fs outputFile = false →
       fs' = fs ∧ files fs' !! outputFile = files fs !! outputFile).
Proof.
  intros Ho Hp Hctx Hsig Hlen Hid.
  exists (write_file fs outputFile (dump (license_object hardwareId sig) 4)).
  split_and!.
  - by apply (generateLicense_issues _ _ _ _ privKeyFile privateKey sig).
  - intros Hw. unfold write_file. rewrite Hw. cbn [files]. apply lookup_insert_eq.
  - intros Hw. unfold write_file. by rewrite Hw.
Qed.

End Issue.

(** ** The client's [main] *)

Section Client.
Context `{OpenSSL}.

Lemma isEmpty_true (s : string) : isEmpty s = true ↔ s = EmptyString.
Proof. unfold isEmpty. destruct s; simpl; split; intros; congruence. Qed.

Lemma isEmpty_false (s : string) : isEmpty s = false ↔ s ≠ EmptyString.
Proof. unfold isEmpty. destruct s; simpl; split; intros; congruence. Qed.

Lemma open_read_exists (fs : FileSystem) (path text : string) :
  open_read fs path = Some text → file_exists fs path = true.
Proof.
  unfold open_read, file_exists. destruct (readable fs path); [| discriminate].
  intros Hf. apply bool_decide_eq_true. by exists text.
Qed.

Lemma license_fingerprint_empty (obj : gmap string JsonValue) :
  license_fingerprint obj = EmptyString
  ↔ toString (obj !! "hardwareFingerprint") = EmptyString
    ∧ toString (obj !! "hardwareId") = EmptyString.
Proof.
  unfold license_fingerprint.
  destruct (isEmpty (toString (obj !! "hardwareFingerprint"))) eqn:He.
  - apply isEmpty_true in He. rewrite He. tauto.
  - apply isEmpty_false in He. tauto.
Qed.

Lemma no_verification_box (title text : string) :
  no_verification [MessageBox_critical title text].
Proof.
  split; [intros h s p |]; intros Hin;
    apply list_elem_of_singleton in Hin; discriminate.
Qed.

(** The three stages of [main] on a license file that opens. *)
Lemma main_not_object (w : World) (jsonData : string) :
  open_read (file_system w) "license.lic" = Some jsonData →
  (∀ obj, QJsonDocument_fromJson w jsonData ≠ ParsedObject obj) →
  main w = {| exit_code := 1;
              events := [MessageBox_critical "Invalid License"
                           "License file is not valid JSON."];
              file_system_after := file_system w |}.
Proof.
  intros Ho Hp. unfold main. rewrite (open_read_exists _ _ _ Ho), Ho.
  cbn [negb].
  destruct (QJsonDocument_fromJson w jsonData) as [| |obj]; try reflexivity.
  by destruct (Hp obj).
Qed.

Lemma main_missing_field (w : World) (jsonData : string)
    (obj : gmap string JsonValue) :
  open_read (file_system w) "license.lic" = Some jsonData →
  QJsonDocument_fromJson w jsonData = ParsedObject obj →
  license_fingerprint obj = EmptyString ∨ toString (obj !! "signature") = EmptyString →
  main w = {| exit_code := 1;
              events := [MessageBox_critical "Invalid License"
                           "License file is missing hardwareFingerprint or signature."];
              file_system_after := file_system w |}.
Proof.
  intros Ho Hp He. unfold main. rewrite (open_read_exists _ _ _ Ho), Ho, Hp.
  cbn [negb].
  destruct He as [-> | ->]; [reflexivity |].
  change (isEmpty EmptyString) with true. by rewrite orb_true_r.
Qed.

Lemma main_mismatch (w : World) (jsonData : string)
    (obj : gmap string JsonValue) :
  open_read (file_system w) "license.lic" = Some jsonData →
  QJsonDocument_fromJson w jsonData = ParsedObject obj →
  license_fingerprint obj ≠ EmptyString → toString (obj !! "signature") ≠ EmptyString →
  license_fingerprint obj ≠ getHardwareFingerprint (system_info w) →
  main w = {| exit_code := 1;
              events := [MessageBox_critical "Hardware Fingerprint Mismatch"
                           "This license is not valid for this machine."];
              file_system_after := file_system w |}.
Proof.
  intros Ho Hp Hf Hs Hne. unfold main.
  rewrite (open_read_exists _ _ _ Ho), Ho, Hp. cbn [negb].
  apply isEmpty_false in Hf, Hs. rewrite Hf, Hs. cbn [orb].
  assert (Heq : String.eqb (getHardwareFingerprint (system_info w))
                           (license_fingerprint obj) = false)
    by (apply String.eqb_neq; congruence).
  by rewrite Heq.
Qed.

(** C9. A license file that is not valid JSON, or whose top level is not
    an object, or that gives an empty fingerprint (both [hardwareFingerprint]
    and [hardwareId] absent or empty) or an empty signature, makes the client
    show "Invalid License" and exit with code 1; [verifyLicense] is not
    called and the application is not started. The object
    [{"signature": "deadbeef"}] is such a license. *)
Theorem malformed_license_rejected (w : World) (jsonData : string) :
  open_read (file_system w) "license.lic" = Some jsonData →
  (match QJsonDocument_fromJson w jsonData with
   | ParsedObject obj =>
       (toString (obj !! "hardwareFingerprint") = EmptyString
        ∧ toString (obj !! "hardwareId") = EmptyString)
       ∨ toString (obj !! "signature") = EmptyString
   | ParseError | ParsedArray _ => True
   end →
   exit_code (main w) = 1
   ∧ (∃ text, events (main w) = [MessageBox_critical "Invalid License" text])
   ∧ no_verification (events (main w))
   ∧ file_system_after (main w) = file_system w)
  ∧ (QJsonDocument_fromJson w jsonData
     = ParsedObject {["signature" := JString "deadbeef"]} →
     exit_code (main w) = 1
     ∧ events (main w)
       = [MessageBox_critical "Invalid License"
            "License file is missing hardwareFingerprint or signature."]).
Proof.
  intros Ho. split.
  - intros Hbad.
    destruct (QJsonDocument_fromJson w jsonData) as [| |obj] eqn:Hp.
    + rewrite (main_not_object w jsonData Ho) by (rewrite Hp; discriminate).
      cbn [exit_code events file_system_after].
      split_and!; [done | by eexists | apply no_verification_box | done].
    + rewrite (main_not_object w jsonData Ho) by (rewrite Hp; discriminate).
      cbn [exit_code events file_system_after].
      split_and!; [done | by eexists | apply no_verification_box | done].
    + rewrite (main_missing_field w jsonData obj Ho Hp)
        by (rewrite license_fingerprint_empty; exact Hbad).
      cbn [exit_code events file_system_after].
      split_and!; [done | by eexists | apply no_verification_box | done].
  - intros Hp.
    rewrite (main_missing_field w jsonData _ Ho Hp); [by split |].
    left. apply license_fingerprint_empty.
    by rewrite !lookup_singleton_ne.
Qed.

(** C5. When the fingerprint of the license differs from the one derived
    on the machine, the client exits with code 1 without calling
    [verifyLicense] and without starting the application, whatever
    verification would have answered; with both fields present the dialog is
    the one for a fingerprint mismatch. A call of [verifyLicense] occurs only
    on a license whose fingerprint equals the local one. *)
Theorem fingerprint_checked_before_signature (w : World) :
  (∀ jsonData obj,
     open_read (file_system w) "license.lic" = Some jsonData →
     QJsonDocument_fromJson w jsonData = ParsedObject obj →
     license_fingerprint obj ≠ getHardwareFingerprint (system_info w) →
     exit_code (main w) = 1
     ∧ no_verification (events (main w))
     ∧ (license_fingerprint obj ≠ EmptyString → toString (obj !! "signature") ≠ EmptyString →
        events (main w)
        = [MessageBox_critical "Hardware Fingerprint Mismatch"
             "This license is not valid for this machine."]))
  ∧ (∀ h s p, VerifyLicense h s p ∈ events (main w) →
       ∃ jsonData obj,
         open_read (file_system w) "license.lic" = Some jsonData
         ∧ QJsonDocument_fromJson w jsonData = ParsedObject obj
         ∧ license_fingerprint obj = getHardwareFingerprint (system_info w)
         ∧ h = getHardwareFingerprint (system_info w)
         ∧ s = toString (obj !! "signature")).
Proof.
  split.
  - intros jsonData obj Ho Hp Hne.
    destruct (decide (license_fingerprint obj = EmptyString)) as [Hf | Hf].
    { rewrite (main_missing_field w jsonData obj Ho Hp) by by left.
      cbn [exit_code events file_system_after].
      split_and!; [done | apply no_verification_box | done]. }
    destruct (decide (toString (obj !! "signature") = EmptyString)) as [Hs | Hs].
    { rewrite (main_missing_field w jsonData obj Ho Hp) by by right.
      cbn [exit_code events file_system_after].
      split_and!; [done | apply no_verification_box | done]. }
    rewrite (main_mismatch w jsonData obj Ho Hp Hf Hs Hne).
    cbn [exit_code events file_system_after].
    split_and!; [done | apply no_verification_box | done].
  - intros h s p. unfold main.
    destruct (file_exists (file_system w) "license.lic"); cbn [negb events];
      [| intros Hin; apply list_elem_of_singleton in Hin; discriminate].
    destruct (open_read (file_system w) "license.lic") as [jsonData|];
      cbn [events];
      [| intros Hin; apply list_elem_of_singleton in Hin; discriminate].
    destruct (QJsonDocument_fromJson w jsonData) as [| |obj] eqn:Hp;
      cbn [events];
      try (intros Hin; apply list_elem_of_singleton in Hin; discriminate).
    destruct (isEmpty (license_fingerprint obj)
              || isEmpty (toString (obj !! "signature")));
      cbn [events];
      [intros Hin; apply list_elem_of_singleton in Hin; discriminate |].
    destruct (String.eqb_spec (getHardwareFingerprint (system_info w))
                (license_fingerprint obj)) as [Heq | Hneq]; cbn [negb events];
      [| intros Hin; apply list_elem_of_singleton in Hin; discriminate].
    destruct (file_exists (file_system w) "public_key.pem"); cbn [negb events];
      [| intros Hin; apply list_elem_of_singleton in Hin; discriminate].
    destruct (verifyLicense _ _ _ _); cbn [events]; intros Hin;
      apply elem_of_cons in Hin as [[= -> -> ->] | Hin];
      try (apply list_elem_of_singleton in Hin; discriminate);
      by exists jsonData, obj.
Qed.

Lemma main_license_eq (w : World) (obj obj' : gmap string JsonValue) :
  license_fingerprint obj = license_fingerprint obj' →
  toString (obj !! "signature") = toString (obj' !! "signature") →
  main (with_license w obj) = main (with_license w obj').
Proof.
  intros Hf Hs. unfold main, with_license.
  cbn [system_info file_system QJsonDocument_fromJson app_exec].
  destruct (file_exists (file_system w) "license.lic"); cbn [negb];
    [| reflexivity].
  destruct (open_read (file_system w) "license.lic"); [| reflexivity].
  by rewrite Hf, Hs.
Qed.

(** C8. With [hardwareFingerprint] absent or empty the fingerprint is the
    value of [hardwareId], and the client does on such a license what it does
    on the license that carries the same value in [hardwareFingerprint]
    (with or without [hardwareId]). With a non-empty [hardwareFingerprint]
    the member [hardwareId] plays no part. *)
Theorem legacy_field_fallback (w : World) (obj : gmap string JsonValue) :
  (∀ v,
     obj !! "hardwareFingerprint" = None
     ∨ obj !! "hardwareFingerprint" = Some (JString EmptyString) →
     obj !! "hardwareId" = Some (JString v) →
     license_fingerprint obj = v
     ∧ main (with_license w obj)
       = main (with_license w (<["hardwareFingerprint" := JString v]> obj))
     ∧ main (with_license w obj)
       = main (with_license w (<["hardwareFingerprint" := JString v]>
                                 (delete "hardwareId" obj))))
  ∧ (∀ f other,
       obj !! "hardwareFingerprint" = Some (JString f) → f ≠ EmptyString →
       license_fingerprint obj = f
       ∧ license_fingerprint (<["hardwareId" := other]> obj) = f
       ∧ main (with_license w (<["hardwareId" := other]> obj))
         = main (with_license w obj)
       ∧ main (with_license w (delete "hardwareId" obj))
         = main (with_license w obj)).
Proof.
  split.
  - intros v Hfp Hid.
    assert (Hobj : license_fingerprint obj = v).
    { unfold license_fingerprint.
      destruct Hfp as [-> | ->]; cbn [toString]; by rewrite Hid. }
    split; [exact Hobj |]. split; apply main_license_eq.
    + rewrite Hobj. unfold license_fingerprint.
      rewrite lookup_insert_eq, lookup_insert_ne, Hid by done. cbn [toString].
      by destruct (isEmpty v).
    + by rewrite lookup_insert_ne.
    + rewrite Hobj. unfold license_fingerprint.
      rewrite lookup_insert_eq, lookup_insert_ne, lookup_delete_eq by done.
      cbn [toString].
      destruct (isEmpty v) eqn:He; [| reflexivity]. by apply isEmpty_true in He.
    + by rewrite lookup_insert_ne, lookup_delete_ne.
  - intros f other Hfp Hne.
    assert (Hobj : license_fingerprint obj = f).
    { unfold license_fingerprint. rewrite Hfp. cbn [toString].
      apply isEmpty_false in Hne. by rewrite Hne. }
    assert (Hother : license_fingerprint (<["hardwareId" := other]> obj) = f).
    { unfold license_fingerprint. rewrite lookup_insert_ne, Hfp by done.
      cbn [toString].
      apply isEmpty_false in Hne. by rewrite Hne. }
    split_and!; [exact Hobj | exact Hother | |]; apply main_license_eq.
    + by rewrite Hother, Hobj.
    + by rewrite lookup_insert_ne.
    + rewrite Hobj. unfold license_fingerprint.
      rewrite lookup_delete_ne, Hfp by done. cbn [toString].
      apply isEmpty_false in Hne. by rewrite Hne.
    + by rewrite lookup_delete_ne.
Qed.

End Client.

Module Checks.
Import Sample Run.

(** The single-line decoder on short texts: a plain text, padding, a
    trailing and an embedded line break, a character outside the alphabet. *)
Example b64_read_plain :
  Base64.b64_read "QUJDRUZH" 8 = (6, bytes_of_string "ABCEFG").
Proof. vm_compute. reflexivity. Qed.

Example b64_read_padding :
  Base64.b64_read "QUI=" 4 = (2, bytes_of_string "AB")
  ∧ Base64.b64_read "QQ==" 4 = (1, bytes_of_string "A").
Proof. split; vm_compute; reflexivity. Qed.

Example b64_read_trailing_line_break :
  Base64.b64_read ("QUJDRUZH" +:+ LF) 9 = (6, bytes_of_string "ABCEFG").
Proof. vm_compute. reflexivity. Qed.

Example b64_read_embedded_line_break :
  Base64.b64_read ("QUJD" +:+ LF +:+ "RUZH") 9 = (0, []).
Proof. vm_compute. reflexivity. Qed.

Example b64_read_other_character :
  Base64.b64_read "QU*D" 4 = (0, []).
Proof. vm_compute. reflexivity. Qed.

Lemma sign_2048 : EVP_SignFinal fingerprint key_2048 = Some sig_2048.
Proof. reflexivity. Qed.

Lemma sign_1024 : EVP_SignFinal fingerprint key_1024 = Some sig_1024.
Proof. reflexivity. Qed.

Lemma sig_2048_length : List.length sig_2048 = 256%nat.
Proof. vm_compute. reflexivity. Qed.

Lemma sig_1024_length : List.length sig_1024 = 128%nat.
Proof. vm_compute. reflexivity. Qed.

Lemma verify_2048 : EVP_VerifyFinal fingerprint sig_2048 key_2048 = 1.
Proof. vm_compute. reflexivity. Qed.

Lemma verify_1024 : EVP_VerifyFinal fingerprint sig_1024 key_1024 = 1.
Proof. vm_compute. reflexivity. Qed.

Lemma generate_2048 :
  generateLicense issuer_2048 fingerprint "private_key.pem" "license.lic"
  = Returns (true, write_file issuer_2048 "license.lic" (license_text sig_2048)).
Proof.
  apply (generateLicense_issues _ _ _ _ "KEY 2048" key_2048 sig_2048);
    [reflexivity | reflexivity | reflexivity | reflexivity
    | rewrite sig_2048_length; lia | reflexivity].
Qed.

Lemma generate_1024 :
  generateLicense issuer_1024 fingerprint "private_key.pem" "license.lic"
  = Returns (true, write_file issuer_1024 "license.lic" (license_text sig_1024)).
Proof.
  apply (generateLicense_issues _ _ _ _ "KEY 1024" key_1024 sig_1024);
    [reflexivity | reflexivity | reflexivity | reflexivity
    | rewrite sig_1024_length; lia | reflexivity].
Qed.

(** The round trip with the pair of [key_2048]. *)
Lemma issue_verify_round_trip_witness :
  ∃ licenseJson sig,
    generateLicense_json issuer_2048 fingerprint "private_key.pem"
    = Returns (Some licenseJson)
    ∧ EVP_SignFinal fingerprint key_2048 = Some sig
    ∧ toString (licenseJson !! "signature") = hex_of_bytes sig
    ∧ decode_signature (hex_of_bytes sig) = Some sig
    ∧ verifyLicense client_2048 fingerprint (toString (licenseJson !! "signature"))
        "public_key.pem" = true.
Proof.
  apply (issue_verify_round_trip issuer_2048
           (write_file issuer_2048 "license.lic" (license_text sig_2048))
           client_2048 fingerprint
           "private_key.pem" "license.lic" "public_key.pem"
           "KEY 2048" "KEY 2048" key_2048 key_2048).
  - reflexivity.
  - reflexivity.
  - reflexivity.
  - reflexivity.
  - intros sig Hsig. rewrite sign_2048 in Hsig. injection Hsig as <-.
    split; [apply sig_2048_length | apply verify_2048].
  - reflexivity.
  - reflexivity.
  - apply generate_2048.
Defined.

(** C1 fails for a pair of 1024-bit keys: the license is issued, the
    public key accepts the raw signature, and yet [verifyLicense] returns
    [false] on the signature member (256 hexadecimal characters, which go
    to the Base64 branch). *)
Lemma round_trip_counterexample :
  generateLicense issuer_1024 fingerprint "private_key.pem" "license.lic"
  = Returns (true, write_file issuer_1024 "license.lic" (license_text sig_1024))
  ∧ generateLicense_json issuer_1024 fingerprint "private_key.pem"
    = Returns (Some (license_object fingerprint sig_1024))
  ∧ EVP_SignFinal fingerprint key_1024 = Some sig_1024
  ∧ EVP_VerifyFinal fingerprint sig_1024 key_1024 = 1
  ∧ toString (license_object fingerprint sig_1024 !! "signature")
    = hex_of_bytes sig_1024
  ∧ String.length (hex_of_bytes sig_1024) = 256%nat
  ∧ takes_hex_branch (hex_of_bytes sig_1024) = false
  ∧ verifyLicense client_1024 fingerprint (hex_of_bytes sig_1024)
      "public_key.pem" = false.
Proof.
  split_and!.
  - apply generate_1024.
  - apply generateLicense_json_Some. exists "KEY 1024", key_1024, sig_1024.
    split_and!; [reflexivity | reflexivity | reflexivity | reflexivity
              | rewrite sig_1024_length; lia | reflexivity].
  - apply sign_1024.
  - apply verify_1024.
  - by destruct (license_object_lookup fingerprint sig_1024) as (_ & -> & _).
  - by rewrite hex_of_bytes_length, sig_1024_length.
  - vm_compute. reflexivity.
  - vm_compute. reflexivity.
Qed.

Lemma decode_single_line : decode_signature base64_single_line = Some sig_2048.
Proof. vm_compute. reflexivity. Qed.

Lemma verifyLicense_fail_closed_witness :
  verifyLicense client_2048 fingerprint base64_single_line "public_key.pem" = true
  ∧ verifyLicense issuer_2048 fingerprint base64_single_line "public_key.pem" = false
  ∧ verifyLicense client_1024 fingerprint base64_single_line "public_key.pem" = false.
Proof.
  split_and!.
  - apply verifyLicense_fail_closed. exists sig_2048, "KEY 2048", key_2048.
    split_and!; [apply decode_single_line | reflexivity .. | apply verify_2048].
  - apply verifyLicense_fail_closed. right; left. reflexivity.
  - apply verifyLicense_fail_closed. do 6 right.
    exists sig_2048, "KEY 1024", key_1024.
    split_and!; [apply decode_single_line | reflexivity | reflexivity |].
    vm_compute. discriminate.
Defined.

Lemma decode_wrapped : decode_base64 base64_wrapped = None.
Proof. vm_compute. reflexivity. Qed.

Lemma sample_filter : single_line_filter.
Proof. by split_and!. Qed.

Lemma base64_failure_is_final_witness :
  decode_signature base64_wrapped = decode_base64 base64_wrapped
  ∧ verifyLicense client_2048 fingerprint base64_wrapped "public_key.pem" = false
  ∧ verifyLicense client_2048 fingerprint (base64_single_line +:+ "*")
      "public_key.pem"
    = verifyLicense client_2048 fingerprint base64_single_line "public_key.pem".
Proof.
  destruct (base64_failure_is_final client_2048 fingerprint base64_wrapped
              "public_key.pem") as (Hd & _ & _ & Hw);
    [vm_compute; reflexivity |].
  destruct (base64_failure_is_final client_2048 fingerprint base64_single_line
              "public_key.pem") as (_ & _ & _ & Hs);
    [vm_compute; reflexivity |].
  destruct (Hw sample_filter) as [Hbreak _]; [vm_compute; lia |].
  destruct (Hs sample_filter) as [_ Hrest]; [vm_compute; lia |].
  split_and!.
  - exact Hd.
  - apply (Hbreak 64%nat 65%nat "010"%char "c"%char);
      [reflexivity | reflexivity | reflexivity | reflexivity | vm_compute; lia].
  - apply (Hrest "*");
      [reflexivity | cbn; lia | vm_compute; lia | vm_compute; reflexivity].
Defined.

(** C7 fails on a Base64 signature broken into lines of 64 characters:
    on one line it decodes and verifies; with the line breaks it is the
    same text once they are removed, and yet it does not decode, and the
    license is refused. It fails on a character outside the alphabet and on
    a surplus [=] as well: the signature followed by either one is read as
    the signature, and the license is accepted. *)
Lemma base64_decoding_counterexample :
  (takes_hex_branch base64_wrapped = false
   ∧ remove_line_breaks base64_wrapped = base64_single_line
   ∧ decode_base64 (remove_line_breaks base64_wrapped) = Some sig_2048
   ∧ decode_base64 base64_wrapped = None
   ∧ verifyLicense client_2048 fingerprint (remove_line_breaks base64_wrapped)
       "public_key.pem" = true
   ∧ verifyLicense client_2048 fingerprint base64_wrapped "public_key.pem" = false)
  ∧ (takes_hex_branch (base64_single_line +:+ "*") = false
     ∧ Base64.conv_ascii2bin "*" = Base64.B64_ERROR
     ∧ decode_base64 (base64_single_line +:+ "*") = Some sig_2048
     ∧ verifyLicense client_2048 fingerprint (base64_single_line +:+ "*")
         "public_key.pem" = true)
  ∧ (takes_hex_branch (base64_single_line +:+ "=") = false
     ∧ decode_base64 (base64_single_line +:+ "=") = Some sig_2048
     ∧ verifyLicense client_2048 fingerprint (base64_single_line +:+ "=")
         "public_key.pem" = true).
Proof.
  split_and!; vm_compute; reflexivity.
Qed.

Lemma issued_license_object_witness :
  ∃ licenseJson,
    generateLicense_json issuer_2048 fingerprint "private_key.pem"
    = Returns (Some licenseJson)
    ∧ licenseJson !! "hardwareId" = Some (JString fingerprint)
    ∧ license_fingerprint licenseJson = fingerprint.
Proof.
  destruct (issued_license_object issuer_2048
              (write_file issuer_2048 "license.lic" (license_text sig_2048))
              fingerprint "private_key.pem" "license.lic" generate_2048)
    as (licenseJson & _ & _ & _ & Hjson & _ & _ & _ & _ & _ & Hid & Hfp & _).
  by exists licenseJson.
Defined.

(** C6 fails on the member name: the object of an issued license has no
    member [hardwareFingerprint]; the fingerprint is under [hardwareId]. *)
Lemma issued_license_object_counterexample :
  generateLicense issuer_2048 fingerprint "private_key.pem" "license.lic"
  = Returns (true, write_file issuer_2048 "license.lic" (license_text sig_2048))
  ∧ generateLicense_json issuer_2048 fingerprint "private_key.pem"
    = Returns (Some (license_object fingerprint sig_2048))
  ∧ license_object fingerprint sig_2048 !! "hardwareFingerprint" = None
  ∧ license_object fingerprint sig_2048 !! "hardwareFingerprint"
    ≠ Some (JString fingerprint)
  ∧ license_object fingerprint sig_2048 !! "hardwareId" = Some (JString fingerprint).
Proof.
  destruct (license_object_lookup fingerprint sig_2048) as (Hid & _ & Hnone).
  split_and!; [apply generate_2048 | | exact Hnone | by rewrite Hnone | exact Hid].
  apply generateLicense_json_Some. exists "KEY 2048", key_2048, sig_2048.
  split_and!; [reflexivity | reflexivity | reflexivity | reflexivity
              | rewrite sig_2048_length; lia | reflexivity].
Qed.

Lemma generateLicense_ignores_stream_state_witness :
  ∃ fs',
    generateLicense (read_only issuer_2048) fingerprint "private_key.pem" "license.lic"
    = Returns (true, fs')
    ∧ files fs' !! "license.lic" = None.
Proof.
  destruct (generateLicense_ignores_stream_state (read_only issuer_2048)
              fingerprint "private_key.pem" "license.lic" "KEY 2048" key_2048
              sig_2048)
    as (fs' & Hgen & _ & Hro).
  - reflexivity.
  - reflexivity.
  - reflexivity.
  - reflexivity.
  - rewrite sig_2048_length. lia.
  - reflexivity.
  - exists fs'. split; [exact Hgen |].
    destruct Hro as [_ ->]; reflexivity.
Defined.

(** C10 fails where it names no condition but the key and the signing. A
    key of 4096 bits loads and signs, and the 512 bytes of its signature do
    not fit [sig]: the call has no defined result. A hardware id that is not
    UTF-8 is signed, and [dump] throws: the call does not return, and leaves
    the license file empty. Where no context can be allocated, the call has
    no defined result whatever the key signs. *)
Lemma generateLicense_return_counterexample :
  (open_read issuer_4096 "private_key.pem" = Some "KEY 4096"
   ∧ PEM_read_PrivateKey "KEY 4096" = Some key_4096
   ∧ EVP_SignFinal fingerprint key_4096 = Some sig_4096
   ∧ List.length sig_4096 = 512%nat
   ∧ generateLicense issuer_4096 fingerprint "private_key.pem" "license.lic"
     = Undefined)
  ∧ (open_read issuer_2048 "private_key.pem" = Some "KEY 2048"
     ∧ PEM_read_PrivateKey "KEY 2048" = Some key_2048
     ∧ EVP_SignFinal latin1_id key_2048 = Some sig_latin1
     ∧ List.length sig_latin1 = 256%nat
     ∧ utf8_valid latin1_id = false
     ∧ generateLicense issuer_2048 latin1_id "private_key.pem" "license.lic"
       = Throws (write_file issuer_2048 "license.lic" EmptyString)
     ∧ files (write_file issuer_2048 "license.lic" EmptyString) !! "license.lic"
       = Some EmptyString)
  ∧ (@PEM_read_PrivateKey no_context "KEY 2048" = Some key_2048
     ∧ @EVP_SignFinal no_context fingerprint key_2048 = Some sig_2048
     ∧ @generateLicense no_context nlohmann issuer_2048 fingerprint
         "private_key.pem" "license.lic" = Undefined).
Proof.
  split_and!; first [reflexivity | vm_compute; reflexivity].
Qed.

Lemma fingerprint_checked_before_signature_witness :
  exit_code (main (world (ParsedObject other_machine))) = 1
  ∧ no_verification (events (main (world (ParsedObject other_machine))))
  ∧ events (main (world (ParsedObject other_machine)))
    = [MessageBox_critical "Hardware Fingerprint Mismatch"
         "This license is not valid for this machine."].
Proof.
  destruct (fingerprint_checked_before_signature (world (ParsedObject other_machine)))
    as [Hmismatch _].
  destruct (Hmismatch "{...}" other_machine) as (Hcode & Hnone & Hbox).
  - reflexivity.
  - reflexivity.
  - vm_compute. discriminate.
  - split_and!; [exact Hcode | exact Hnone |].
    apply Hbox; vm_compute; discriminate.
Defined.

Lemma legacy_field_fallback_witness :
  license_fingerprint legacy_license = fingerprint
  ∧ main (with_license (world ParseError) legacy_license)
    = main (with_license (world ParseError)
              (<["hardwareFingerprint" := JString fingerprint]> legacy_license))
  ∧ license_fingerprint other_machine = fill_string 64 "0".
Proof.
  destruct (legacy_field_fallback (world ParseError) legacy_license) as [Hlegacy _].
  destruct (Hlegacy fingerprint) as (Hfp & Hmain & _).
  - left. reflexivity.
  - reflexivity.
  - split_and!; [exact Hfp | exact Hmain |].
    destruct (legacy_field_fallback (world ParseError) other_machine) as [_ Hnew].
    destruct (Hnew (fill_string 64 "0") JNull) as (Hnew' & _).
    + reflexivity.
    + discriminate.
    + exact Hnew'.
Defined.

Lemma malformed_license_rejected_witness :
  exit_code (main (world (ParsedObject deadbeef))) = 1
  ∧ events (main (world (ParsedObject deadbeef)))
    = [MessageBox_critical "Invalid License"
         "License file is missing hardwareFingerprint or signature."]
  ∧ no_verification (events (main (world ParseError))).
Proof.
  destruct (malformed_license_rejected (world (ParsedObject deadbeef)) "{...}")
    as [_ Hdead]; [reflexivity |].
  destruct (Hdead eq_refl) as [Hcode Hevents].
  destruct (malformed_license_rejected (world ParseError) "{...}")
    as [Hbad _]; [reflexivity |].
  destruct (Hbad I) as (_ & _ & Hnone & _).
  by split_and!.
Defined.

End Checks.

(** ** The identifiers of the machine *)

Lemma is_blank_isspace (c : ascii) : is_blank c = isspace c.
Proof.
  apply Bool.eqb_prop. revert c.
  apply (all_ascii_forallb (λ c, Bool.eqb (is_blank c) (isspace c))).
  vm_compute. reflexivity.
Qed.

Lemma usable_qualifies (i : QNetworkInterface) :
  HardwareLock.usable i = true ↔ qualifies i.
Proof.
  unfold HardwareLock.usable, qualifies.
  rewrite !andb_true_iff, !negb_true_iff, isEmpty_false, String.eqb_neq.
  tauto.
Qed.

Lemma getMacAddress_loop_spec (interfaces : list QNetworkInterface) :
  (∃ before netInterface after,
      interfaces = (before ++ netInterface :: after)%list
      ∧ Forall (λ i, ¬ qualifies i) before
      ∧ qualifies netInterface
      ∧ HardwareLock.getMacAddress_loop interfaces = hardwareAddress netInterface)
  ∨ (Forall (λ i, ¬ qualifies i) interfaces
     ∧ HardwareLock.getMacAddress_loop interfaces = "00:00:00:00:00:00").
Proof.
  induction interfaces as [|i rest IH]; cbn [HardwareLock.getMacAddress_loop].
  - right. by split.
  - destruct (HardwareLock.usable i) eqn:Hu.
    + left. exists [], i, rest. split_and!; try done. by apply usable_qualifies.
    + assert (¬ qualifies i) as Hq.
      { rewrite <- usable_qualifies. congruence. }
      destruct IH as [(before & j & after & -> & Hb & Hj & Heq) | [Hall Heq]].
      * left. exists (i :: before), j, after. split_and!; try done.
        by constructor.
      * right. split; [by constructor | done].
Qed.

(** X1. [getMacAddress] returns the address of the first interface, in the
    order of [allInterfaces], that is not a loopback and whose address is
    neither empty nor [00:00:00:00:00:00]; when no interface is such, it
    returns [00:00:00:00:00:00]. The result is never empty. *)
Theorem getMacAddress_first_qualifying (m : Machine) :
  HardwareLock.getMacAddress m ≠ EmptyString
  ∧ ((∃ before netInterface after,
        allInterfaces m = (before ++ netInterface :: after)%list
        ∧ Forall (λ i, ¬ qualifies i) before
        ∧ qualifies netInterface
        ∧ HardwareLock.getMacAddress m = hardwareAddress netInterface)
     ∨ (Forall (λ i, ¬ qualifies i) (allInterfaces m)
        ∧ HardwareLock.getMacAddress m = "00:00:00:00:00:00")).
Proof.
  unfold HardwareLock.getMacAddress.
  pose proof (getMacAddress_loop_spec (allInterfaces m)) as Hs.
  split; [| exact Hs].
  destruct Hs as [(before & j & after & _ & _ & Hj & ->) | [_ ->]].
  - apply Hj.
  - discriminate.
Qed.

Lemma skip_space_split (s : string) :
  ∃ l, s = l +:+ skip_space s ∧ blank l = true.
Proof.
  induction s as [|c s IH].
  - by exists EmptyString.
  - cbn [skip_space]. destruct (isspace c) eqn:Hc.
    + destruct IH as (l & Hl & Hb). exists (String c l). split.
      * rewrite append_String. by f_equal.
      * unfold blank in *. cbn [list_ascii_of_string forallb]. by rewrite Hc.
    + by exists EmptyString.
Qed.

Lemma skip_space_head (s : string) (c : ascii) (t : string) :
  skip_space s = String c t → isspace c = false.
Proof.
  induction s as [|x s IH]; cbn [skip_space]; [discriminate |].
  destruct (isspace x) eqn:Hx; [exact IH |]. by intros [= <- _].
Qed.

Lemma trim_right_split (s : string) :
  ∃ r, s = trim_right s +:+ r ∧ blank r = true.
Proof.
  induction s as [|c s IH].
  - by exists EmptyString.
  - cbn [trim_right]. destruct IH as (r & Hr & Hb).
    destruct (isspace c && isEmpty (trim_right s)) eqn:Hc.
    + apply andb_true_iff in Hc as [Hc He]. apply isEmpty_true in He.
      rewrite He in Hr. exists (String c r). split.
      * change (EmptyString +:+ String c r) with (String c r). by f_equal.
      * unfold blank in *. cbn [list_ascii_of_string forallb]. by rewrite Hc.
    + exists r. split; [| done]. rewrite append_String. by f_equal.
Qed.

Lemma trim_right_last (s t : string) (c : ascii) :
  trim_right s = t +:+ String c EmptyString → isspace c = false.
Proof.
  revert t; induction s as [|x s IH]; intros t; cbn [trim_right].
  - destruct t; discriminate.
  - destruct (isspace x && isEmpty (trim_right s)) eqn:Hx.
    + destruct t; discriminate.
    + destruct t as [|y t].
      * change (EmptyString +:+ String c EmptyString) with (String c EmptyString).
        intros [= -> He]. rewrite He in Hx. cbn in Hx.
        by rewrite andb_true_r in Hx.
      * rewrite append_String. intros [= _ He]. by eapply IH.
Qed.

Lemma trim_right_head (s : string) (c : ascii) (t : string) :
  trim_right s = String c t →
  ∃ t', s = String c t'.
Proof.
  destruct s as [|x s]; cbn [trim_right]; [discriminate |].
  destruct (isspace x && isEmpty (trim_right s)); [discriminate |].
  intros [= -> _]. by eexists.
Qed.

Lemma trimmed_spec (s : string) :
  (∃ l r, s = l +:+ trimmed s +:+ r ∧ blank l = true ∧ blank r = true)
  ∧ (∀ c t, trimmed s = String c t → isspace c = false)
  ∧ (∀ t c, trimmed s = t +:+ String c EmptyString → isspace c = false).
Proof.
  unfold trimmed. split_and!.
  - destruct (skip_space_split s) as (l & Hl & Hbl).
    destruct (trim_right_split (skip_space s)) as (r & Hr & Hbr).
    exists l, r. split_and!; try done. by rewrite <- Hr.
  - intros c t Ht. apply trim_right_head in Ht as [t' Ht].
    by eapply skip_space_head.
  - intros t c. apply trim_right_last.
Qed.

(** X2. [executeCommand] returns the empty string when the process ends
    with an exit code other than 0. With exit code 0 it returns the standard
    output without the white space around it: the output is the result
    between two runs of white space, and the result neither starts nor ends
    with a white space character. *)
Theorem executeCommand_trimmed (m : Machine) (command : string) :
  (exitCode (QProcess_run m command) ≠ 0
   ∧ HardwareLock.executeCommand m command = EmptyString)
  ∨ (exitCode (QProcess_run m command) = 0
     ∧ (∃ l r, readAllStandardOutput (QProcess_run m command)
               = l +:+ HardwareLock.executeCommand m command +:+ r
               ∧ blank l = true ∧ blank r = true)
     ∧ (∀ c t, HardwareLock.executeCommand m command = String c t →
               isspace c = false)
     ∧ (∀ t c, HardwareLock.executeCommand m command = t +:+ String c EmptyString →
               isspace c = false)).
Proof.
  unfold HardwareLock.executeCommand.
  destruct (exitCode (QProcess_run m command) =? 0) eqn:He.
  - right. split; [lia |]. apply trimmed_spec.
  - left. split; [lia | reflexivity].
Qed.

Lemma erase_blanks_append (a b : string) :
  erase_blanks (a +:+ b) = erase_blanks a +:+ erase_blanks b.
Proof.
  induction a as [|x a IH]; [reflexivity |].
  rewrite append_String. cbn [erase_blanks].
  destruct (is_blank x); [exact IH |]. by rewrite append_String, IH.
Qed.

Lemma erase_blanks_blank (s : string) :
  erase_blanks s = EmptyString ↔ blank s = true.
Proof.
  unfold blank. induction s as [|x s IH]; [done |].
  cbn [erase_blanks list_ascii_of_string forallb]. rewrite is_blank_isspace.
  destruct (isspace x); [exact IH |]. by split.
Qed.

Lemma erase_blanks_clean (s : string) (c : ascii) :
  c ∈ list_ascii_of_string (erase_blanks s) → isspace c = false.
Proof.
  induction s as [|x s IH]; cbn [erase_blanks].
  - intros Hc. by apply elem_of_nil in Hc.
  - destruct (is_blank x) eqn:Hx; [exact IH |].
    cbn [list_ascii_of_string]. rewrite elem_of_cons. intros [-> | Hc].
    + by rewrite <- is_blank_isspace.
    + by apply IH.
Qed.

Lemma erase_blanks_trimmed (s : string) :
  erase_blanks (trimmed s) = erase_blanks s.
Proof.
  destruct (trimmed_spec s) as [(l & r & Hs & Hl & Hr) _].
  rewrite Hs at 2. rewrite !erase_blanks_append.
  apply erase_blanks_blank in Hl, Hr. rewrite Hl, Hr.
  by rewrite append_empty_r.
Qed.

Lemma trimmed_empty (s : string) : trimmed s = EmptyString ↔ blank s = true.
Proof.
  rewrite <- erase_blanks_blank. split.
  - intros Ht. by rewrite <- erase_blanks_trimmed, Ht.
  - intros He. rewrite <- erase_blanks_trimmed in He.
    destruct (trimmed s) as [|c t] eqn:Ht; [done |].
    destruct (trimmed_spec s) as (_ & Hhead & _).
    specialize (Hhead c t Ht). cbn [erase_blanks] in He.
    rewrite is_blank_isspace, Hhead in He. discriminate.
Qed.

Lemma cleaned_spec (fallback s : string) :
  HardwareLock.cleaned fallback s
  = if blank s then fallback else erase_blanks s.
Proof.
  unfold HardwareLock.cleaned.
  destruct (blank s) eqn:Hb.
  - apply erase_blanks_blank in Hb. by rewrite Hb.
  - destruct (isEmpty (erase_blanks s)) eqn:He; [| done].
    apply isEmpty_true, erase_blanks_blank in He. congruence.
Qed.

Lemma cleaned_clean (fallback s : string) :
  fallback ≠ EmptyString →
  (∀ c, c ∈ list_ascii_of_string fallback → isspace c = false) →
  HardwareLock.cleaned fallback s ≠ EmptyString
  ∧ ∀ c, c ∈ list_ascii_of_string (HardwareLock.cleaned fallback s) →
         isspace c = false.
Proof.
  intros Hne Hf. rewrite cleaned_spec. destruct (blank s) eqn:Hb; [done |].
  split; [| apply erase_blanks_clean].
  rewrite erase_blanks_blank. congruence.
Qed.

Lemma fallback_clean (fallback : string) :
  forallb (λ c, negb (isspace c)) (list_ascii_of_string fallback) = true →
  ∀ c, c ∈ list_ascii_of_string fallback → isspace c = false.
Proof.
  intros H c Hc. rewrite forallb_forall in H.
  apply negb_true_iff, H, list_elem_of_In, Hc.
Qed.

(** X3. On every platform and whatever the commands and files answer,
    [getDiskSerialNumber] and [getCpuId] return a text that is not empty and
    holds no white space character. *)
Theorem identifiers_never_blank (m : Machine) :
  (HardwareLock.getDiskSerialNumber m ≠ EmptyString
   ∧ ∀ c, c ∈ list_ascii_of_string (HardwareLock.getDiskSerialNumber m) →
          isspace c = false)
  ∧ (HardwareLock.getCpuId m ≠ EmptyString
     ∧ ∀ c, c ∈ list_ascii_of_string (HardwareLock.getCpuId m) →
            isspace c = false).
Proof.
  split; apply cleaned_clean; try done; by apply fallback_clean.
Qed.

Lemma executeCommand_empty (m : Machine) (command : string) :
  exitCode (QProcess_run m command) ≠ 0
  ∨ blank (readAllStandardOutput (QProcess_run m command)) = true →
  HardwareLock.executeCommand m command = EmptyString.
Proof.
  unfold HardwareLock.executeCommand. intros [Hc | Hb].
  - destruct (exitCode (QProcess_run m command) =? 0) eqn:He; [lia | done].
  - destruct (exitCode (QProcess_run m command) =? 0); [| done].
    by apply trimmed_empty.
Qed.

Lemma getMacAddress_loop_none (interfaces : list QNetworkInterface) :
  Forall (λ i, ¬ qualifies i) interfaces →
  HardwareLock.getMacAddress_loop interfaces = "00:00:00:00:00:00".
Proof.
  induction 1 as [|i rest Hi _ IH]; [done |].
  cbn [HardwareLock.getMacAddress_loop].
  destruct (HardwareLock.usable i) eqn:Hu; [| exact IH].
  by apply usable_qualifies in Hu.
Qed.

(** X4. Off Windows, a machine on which no interface qualifies, every
    command fails or prints white space only, and no file can be read, gets
    the three fallback identifiers [00:00:00:00:00:00], [UNKNOWN_DISK] and
    [UNKNOWN_CPU]: all such machines have the same fingerprint. *)
Theorem queries_that_find_nothing (m : Machine) :
  platform m ≠ Windows →
  Forall (λ i, ¬ qualifies i) (allInterfaces m) →
  (∀ command, exitCode (QProcess_run m command) ≠ 0
              ∨ blank (readAllStandardOutput (QProcess_run m command)) = true) →
  (∀ path, open_read (local_files m) path = None) →
  HardwareLock.system_info_of m = degraded_system.
Proof.
  intros Hp Hi Hc Hf. unfold HardwareLock.system_info_of, degraded_system.
  f_equal.
  - by apply getMacAddress_loop_none.
  - unfold HardwareLock.getDiskSerialNumber.
    destruct (platform m); [done | | |];
      rewrite ?Hf, ?executeCommand_empty by done; reflexivity.
  - unfold HardwareLock.getCpuId.
    destruct (platform m); [done | | |];
      rewrite ?Hf, ?executeCommand_empty by done; reflexivity.
Qed.

Lemma queries_that_find_nothing_witness :
  HardwareLock.system_info_of Field.bare_linux = degraded_system.
Proof.
  apply queries_that_find_nothing.
  - discriminate.
  - repeat constructor; intros (H1 & H2 & H3); done.
  - intros command. left. discriminate.
  - reflexivity.
Defined.

(** X5. On Linux, when the [lsblk] command ends with exit code 0 and prints
    more than white space, [getDiskSerialNumber] is its whole output with
    every white space character erased (line feeds too, so that several
    lines are joined); the other command and the file are not used. *)
Theorem linux_disk_serial_first_answer (m : Machine) :
  platform m = Linux →
  exitCode (QProcess_run m "lsblk -d -n -o serial | head -1") = 0 →
  blank (readAllStandardOutput (QProcess_run m "lsblk -d -n -o serial | head -1"))
  = false →
  HardwareLock.getDiskSerialNumber m
  = erase_blanks
      (readAllStandardOutput (QProcess_run m "lsblk -d -n -o serial | head -1")).
Proof.
  intros Hp He Hb. unfold HardwareLock.getDiskSerialNumber. rewrite Hp.
  assert (HardwareLock.executeCommand m "lsblk -d -n -o serial | head -1"
          = trimmed (readAllStandardOutput
                       (QProcess_run m "lsblk -d -n -o serial | head -1"))) as Hx.
  { unfold HardwareLock.executeCommand. by rewrite He. }
  assert (isEmpty (HardwareLock.executeCommand m "lsblk -d -n -o serial | head -1")
          = false) as Hn.
  { apply isEmpty_false. rewrite Hx, trimmed_empty. congruence. }
  rewrite !Hn, cleaned_spec, Hx, erase_blanks_trimmed.
  destruct (blank (trimmed _)) eqn:Hbt; [| done].
  apply trimmed_empty in Hbt. rewrite trimmed_empty in Hbt.
  apply erase_blanks_blank in Hbt. rewrite erase_blanks_trimmed in Hbt.
  apply erase_blanks_blank in Hbt. congruence.
Qed.

Lemma linux_disk_serial_first_answer_witness :
  HardwareLock.getDiskSerialNumber Field.linux_box
  = erase_blanks (readAllStandardOutput (QProcess_run Field.linux_box Field.lsblk)).
Proof.
  apply linux_disk_serial_first_answer; reflexivity.
Defined.

Lemma getlines_line (line rest : string) :
  no_line_feed line →
  getlines (line +:+ LF +:+ rest) = line :: getlines rest.
Proof.
  unfold no_line_feed. induction line as [|c line IH]; intros Hl.
  - reflexivity.
  - rewrite append_String. cbn [getlines].
    cbn [list_ascii_of_string] in Hl. apply not_elem_of_cons in Hl as [Hc Hl].
    destruct (Ascii.eqb_spec c "010"); [congruence |]. by rewrite IH.
Qed.

Lemma getlines_head (s : string) :
  match getlines s with
  | [] => s = EmptyString
  | line :: _ =>
      no_line_feed line
      ∧ ∃ tail, s = line +:+ tail ∧ (tail = EmptyString ∨ ∃ t, tail = LF +:+ t)
  end.
Proof.
  unfold no_line_feed. induction s as [|c s IH]; [done |]. cbn [getlines].
  destruct (Ascii.eqb_spec c "010") as [-> | Hc].
  - split; [apply not_elem_of_nil |]. exists (String "010" s). split; [done |].
    right. by exists s.
  - destruct (getlines s) as [|line lines].
    + subst s. split.
      * cbn [list_ascii_of_string]. apply not_elem_of_cons. split; [congruence |].
        apply not_elem_of_nil.
      * exists EmptyString. split; [done | by left].
    + destruct IH as (Hl & tail & -> & Ht). split.
      * cbn [list_ascii_of_string]. apply not_elem_of_cons. split; [congruence | done].
      * exists tail. split; [by rewrite append_String | done].
Qed.

(** X6. On Windows, when the second line of the answer of [wmic] is not
    empty but holds white space only, [getDiskSerialNumber] returns
    [UNKNOWN_DISK]: the later lines of the answer and the answer of
    [vol C:] are not used. *)
Theorem windows_blank_serial_line (m : Machine) (header line rest : string) :
  platform m = Windows →
  HardwareLock.executeCommand m "wmic diskdrive get serialnumber"
  = header +:+ LF +:+ line +:+ LF +:+ rest →
  no_line_feed header → no_line_feed line →
  line ≠ EmptyString → blank line = true →
  HardwareLock.getDiskSerialNumber m = "UNKNOWN_DISK".
Proof.
  intros Hp Hx Hh Hl Hne Hb. unfold HardwareLock.getDiskSerialNumber.
  rewrite Hp, Hx.
  assert (isEmpty (header +:+ LF +:+ line +:+ LF +:+ rest) = false) as ->.
  { apply isEmpty_false. destruct header; discriminate. }
  cbn [negb]. rewrite !getlines_line by done. cbn [tl HardwareLock.first_nonempty_line].
  apply isEmpty_false in Hne. rewrite Hne. cbn [negb].
  by rewrite Hne, cleaned_spec, Hb.
Qed.

Lemma windows_blank_serial_line_witness :
  HardwareLock.getDiskSerialNumber Field.windows_box = "UNKNOWN_DISK".
Proof.
  apply (windows_blank_serial_line Field.windows_box
           ("SerialNumber  " +:+ Field.CR +:+ Field.CR)
           ("  " +:+ Field.CR +:+ Field.CR)
           "WD-WX41A 1234").
  - reflexivity.
  - reflexivity.
  - unfold no_line_feed. compute_done.
  - unfold no_line_feed. compute_done.
  - discriminate.
  - reflexivity.
Defined.


Lemma find_char (a b : string) (c : ascii) :
  c ∉ list_ascii_of_string a →
  find (String c EmptyString) (a +:+ String c b) = Some (String.length a).
Proof.
  unfold find. induction a as [|x a IH]; intros Hc.
  - change (EmptyString +:+ String c b) with (String c b).
    cbn [String.index String.prefix]. destruct (ascii_dec c c); [| done].
    by destruct b.
  - cbn [list_ascii_of_string] in Hc. apply not_elem_of_cons in Hc as [Hx Hc].
    rewrite append_String. cbn [String.index String.prefix].
    destruct (ascii_dec c x); [done |]. by rewrite IH.
Qed.

Lemma substring_all (s : string) : substring 0 (String.length s) s = s.
Proof. induction s as [|x s IH]; [done |]. cbn. by rewrite IH. Qed.

Lemma substr_from_append (a b : string) :
  substr_from (String.length a) (a +:+ b) = b.
Proof.
  unfold substr_from. rewrite length_append.
  replace (String.length a + String.length b - String.length a)%nat
    with (String.length b) by lia.
  induction a as [|x a IH]; [apply substring_all |].
  rewrite append_String. exact IH.
Qed.

Lemma find_processor (s : string) :
  find "processor" ("processor" +:+ s) = Some 0%nat.
Proof. by destruct s. Qed.

Lemma cpuinfo_loop_first (sep value : string) (lines : list string) :
  ":"%char ∉ list_ascii_of_string sep →
  HardwareLock.cpuinfo_loop (("processor" +:+ sep +:+ ":" +:+ value) :: lines)
  = value.
Proof.
  intros Hsep. cbn [HardwareLock.cpuinfo_loop].
  rewrite (bool_decide_eq_true_2 _ (find_processor _)).
  replace ("processor" +:+ sep +:+ ":" +:+ value)
    with (("processor" +:+ sep) +:+ String ":" value)
    by (by rewrite !append_assoc).
  rewrite find_char.
  2:{ rewrite list_ascii_append, elem_of_app. intros [Hc | Hc]; [| done].
      revert Hc. compute_done. }
  replace (("processor" +:+ sep) +:+ String ":" value)
    with ((("processor" +:+ sep) +:+ ":") +:+ value)
    by (by rewrite !append_assoc).
  replace (String.length ("processor" +:+ sep) + 1)%nat
    with (String.length (("processor" +:+ sep) +:+ ":"))
    by (by rewrite (length_append _ ":")).
  apply substr_from_append.
Qed.

(** X7. On Linux, when [/proc/cpuinfo] can be read and its first line is
    [processor], a separator without a colon, a colon and a value that is not
    blank, [getCpuId] is that value with its white space erased (the number
    of the first processor, not its model); the [model name] command is not
    run. *)
Theorem linux_cpu_id_first_processor_line (m : Machine) (sep value rest : string) :
  platform m = Linux →
  open_read (local_files m) "/proc/cpuinfo"
  = Some ("processor" +:+ sep +:+ ":" +:+ value +:+ LF +:+ rest) →
  ":"%char ∉ list_ascii_of_string sep →
  no_line_feed sep → no_line_feed value →
  blank value = false →
  HardwareLock.getCpuId m = erase_blanks value.
Proof.
  intros Hp Hf Hsep Hs Hv Hb. unfold HardwareLock.getCpuId. rewrite Hp, Hf.
  assert (no_line_feed ("processor" +:+ sep +:+ ":" +:+ value)) as Hline.
  { unfold no_line_feed in *. rewrite !list_ascii_append, !elem_of_app.
    intros [Hc | [Hc | [Hc | Hc]]]; try done; revert Hc; compute_done. }
  replace ("processor" +:+ sep +:+ ":" +:+ value +:+ LF +:+ rest)
    with (("processor" +:+ sep +:+ ":" +:+ value) +:+ LF +:+ rest)
    by (by rewrite !append_assoc).
  rewrite getlines_line by done. rewrite cpuinfo_loop_first by done.
  assert (isEmpty value = false) as ->.
  { apply isEmpty_false. intros ->. discriminate. }
  by rewrite cleaned_spec, Hb.
Qed.

Lemma linux_cpu_id_first_processor_line_witness :
  HardwareLock.getCpuId Field.linux_box = "0".
Proof.
  apply (linux_cpu_id_first_processor_line Field.linux_box Field.TAB " 0"
           (("vendor_id" +:+ Field.TAB +:+ ": GenuineIntel" +:+ LF +:+
             "model name" +:+ Field.TAB +:+ ": Intel(R) Core(TM) i7-8700 CPU @ 3.20GHz" +:+ LF +:+
             "processor" +:+ Field.TAB +:+ ": 1" +:+ LF))).
  - reflexivity.
  - reflexivity.
  - compute_done.
  - unfold no_line_feed. compute_done.
  - unfold no_line_feed. compute_done.
  - reflexivity.
Defined.

Section Server.
Context `{OpenSSL} `{Nlohmann}.

Lemma write_file_other (fs : FileSystem) (path text other : string) :
  other ≠ path → files (write_file fs path text) !! other = files fs !! other.
Proof.
  intros Hne. unfold write_file. destruct (writable fs path); [| done].
  cbn [files]. by rewrite lookup_insert_ne.
Qed.

Lemma getline_spec (file : string) :
  no_line_feed (getline file)
  ∧ ∃ tail, file = getline file +:+ tail
            ∧ (tail = EmptyString ∨ ∃ t, tail = LF +:+ t).
Proof.
  unfold getline. pose proof (getlines_head file) as Hh.
  destruct (getlines file) as [|line lines]; cbn [hd].
  - subst file. split; [apply not_elem_of_nil |]. exists EmptyString. by split; [| left].
  - exact Hh.
Qed.

(** X8. Where the signing context is allocated, the key of
    [private_key.pem] signs at most the 256 bytes of [sig], and the first
    line of [hardware_id.txt] is UTF-8, the [main] of the license server
    returns, with exit code 0 or 1. With exit code 1 it has changed no file.
    It changes no file other than [license.lic]. It ends with exit code 0
    when the request can be read, the key is loaded and the signing
    succeeds, and then it has taken the text of [hardware_id.txt] up to the
    first line feed, as it is, for the hardware id, signed it, and handed the
    text of the license object to the output file. *)
Theorem server_main_effects (fs : FileSystem) :
  EVP_MD_CTX_new = true →
  (∀ privKeyFile privateKey data sig,
     open_read fs "private_key.pem" = Some privKeyFile →
     PEM_read_PrivateKey privKeyFile = Some privateKey →
     EVP_SignFinal data privateKey = Some sig →
     (List.length sig ≤ 256)%nat) →
  (∀ file, open_read fs "hardware_id.txt" = Some file →
           utf8_valid (getline file) = true) →
  ∃ code fs',
    LicenseServer.main fs = Returns (code, fs')
    ∧ (code = 0 ∨ code = 1)
    ∧ (code = 1 → fs' = fs)
    ∧ (∀ path, path ≠ "license.lic" → files fs' !! path = files fs !! path)
    ∧ (∀ file privKeyFile privateKey sig,
         open_read fs "hardware_id.txt" = Some file →
         open_read fs "private_key.pem" = Some privKeyFile →
         PEM_read_PrivateKey privKeyFile = Some privateKey →
         EVP_SignFinal (getline file) privateKey = Some sig →
         code = 0)
    ∧ (code = 0 →
       ∃ hardwareId tail privKeyFile privateKey sig,
         open_read fs "hardware_id.txt" = Some (hardwareId +:+ tail)
         ∧ no_line_feed hardwareId
         ∧ (tail = EmptyString ∨ ∃ t, tail = LF +:+ t)
         ∧ open_read fs "private_key.pem" = Some privKeyFile
         ∧ PEM_read_PrivateKey privKeyFile = Some privateKey
         ∧ EVP_SignFinal hardwareId privateKey = Some sig
         ∧ fs' = write_file fs "license.lic"
                   (dump (license_object hardwareId sig) 4)).
Proof.
  intros Hctx Hlen Hutf8. unfold LicenseServer.main.
  destruct (open_read fs "hardware_id.txt") as [file|] eqn:Hfile.
  2:{ exists 1, fs. split_and!; [done | by right | done | done | | done].
      intros ? ? ? ? [=]. }
  specialize (Hutf8 file eq_refl).
  assert (∀ b : bool, b = false →
            generateLicense_json fs (getline file) "private_key.pem" = Returns None →
            ∃ code fs',
              match generateLicense fs (getline file) "private_key.pem" "license.lic"
              with
              | Returns (false, fs') => Returns (1, fs')
              | Returns (true, fs') => Returns (0, fs')
              | Throws fs' => Throws fs'
              | Undefined => Undefined
              end = Returns (code, fs')
              ∧ code = 1 ∧ fs' = fs) as Hfail.
  { intros _ _ Hjson. exists 1, fs. unfold generateLicense. by rewrite Hjson. }
  destruct (open_read fs "private_key.pem") as [privKeyFile|] eqn:Hkey.
  2:{ destruct (Hfail false eq_refl) as (code & fs' & -> & -> & ->).
      { unfold generateLicense_json. by rewrite Hkey. }
      exists 1, fs. split_and!; [done | by right | done | done | | done].
      intros ? ? ? ? _ [=]. }
  destruct (PEM_read_PrivateKey privKeyFile) as [privateKey|] eqn:Hpem.
  2:{ destruct (Hfail false eq_refl) as (code & fs' & -> & -> & ->).
      { unfold generateLicense_json. by rewrite Hkey, Hpem. }
      exists 1, fs. split_and!; [done | by right | done | done | | done].
      intros ? ? ? ? _ [= <-] Hp. congruence. }
  destruct (EVP_SignFinal (getline file) privateKey) as [sig|] eqn:Hsig.
  2:{ destruct (Hfail false eq_refl) as (code & fs' & -> & -> & ->).
      { unfold generateLicense_json. by rewrite Hkey, Hpem, Hctx, Hsig. }
      exists 1, fs. split_and!; [done | by right | done | done | | done].
      intros ? ? ? ? [= <-] [= <-] Hp Hs. rewrite Hpem in Hp.
      injection Hp as <-. congruence. }
  pose proof (Hlen _ _ _ _ eq_refl Hpem Hsig) as Hsize.
  rewrite (generateLicense_issues fs _ _ _ privKeyFile privateKey sig)
    by done.
  exists 0, (write_file fs "license.lic"
               (dump (license_object (getline file) sig) 4)).
  split_and!; [done | by left | done | | done |].
  - intros path Hpath. by apply write_file_other.
  - intros _. destruct (getline_spec file) as (Hl & tail & Hf & Ht).
    exists (getline file), tail, privKeyFile, privateKey, sig.
    split_and!; try done. by rewrite <- Hf.
Qed.

End Server.

Section Programs.
Context `{OpenSSL}.

Lemma fingerprint_length (sys : SystemInfo) :
  String.length (getHardwareFingerprint sys) = 64%nat.
Proof.
  unfold getHardwareFingerprint. by rewrite hex_of_bytes_length, SHA256_hash_length.
Qed.

Lemma fingerprint_no_line_feed (sys : SystemInfo) :
  no_line_feed (getHardwareFingerprint sys).
Proof.
  unfold no_line_feed, getHardwareFingerprint. intros Hc.
  apply hex_of_bytes_lower in Hc. revert Hc. compute_done.
Qed.

Lemma getline_line (line rest : string) :
  no_line_feed line → getline (line +:+ LF +:+ rest) = line.
Proof. intros Hl. unfold getline. by rewrite getlines_line. Qed.

(** X9. Started without [license.lic], in a directory where
    [hardware_id.txt] can be written and read, the client ends with exit code
    1 without verifying anything, and the first line of the
    [hardware_id.txt] it leaves, read as the license server reads it, is the
    fingerprint of the machine. *)
Theorem request_file_round_trip (w : World) :
  file_exists (file_system w) "license.lic" = false →
  writable (file_system w) "hardware_id.txt" = true →
  readable (file_system w) "hardware_id.txt" = true →
  exit_code (main w) = 1
  ∧ no_verification (events (main w))
  ∧ ∃ file,
      open_read (file_system_after (main w)) "hardware_id.txt" = Some file
      ∧ getline file = getHardwareFingerprint (system_info w).
Proof.
  intros He Hw Hr. unfold main. rewrite He. cbn [negb exit_code events file_system_after].
  split_and!; [done | |].
  - split; [intros h s p Hin | intros Hin];
      apply list_elem_of_singleton in Hin; discriminate.
  - exists (getHardwareFingerprint (system_info w) +:+ LF). split.
    + unfold open_read, write_file. rewrite Hw. cbn [readable files]. rewrite Hr.
      apply lookup_insert_eq.
    + rewrite <- (append_empty_r (_ +:+ LF)), append_assoc.
      apply getline_line, fingerprint_no_line_feed.
Qed.

(** X10. The client never changes a file other than [hardware_id.txt], nor
    what may be opened; when [license.lic] exists it changes no file at
    all. *)
Theorem main_writes_only_the_request (w : World) :
  (file_exists (file_system w) "license.lic" = true →
   file_system_after (main w) = file_system w)
  ∧ (∀ path, path ≠ "hardware_id.txt" →
       files (file_system_after (main w)) !! path = files (file_system w) !! path)
  ∧ readable (file_system_after (main w)) = readable (file_system w)
  ∧ writable (file_system_after (main w)) = writable (file_system w).
Proof.
  unfold main.
  destruct (file_exists (file_system w) "license.lic"); cbn [negb].
  - destruct (open_read (file_system w) "license.lic") as [jsonData|];
      [| by cbn [file_system_after]].
    destruct (QJsonDocument_fromJson w jsonData) as [|?|obj];
      [by cbn [file_system_after] .. |].
    repeat match goal with
           | |- context [if ?b then _ else _] => destruct b
           end; by cbn [file_system_after].
  - cbn [file_system_after]. split_and!; [done | | |].
    + intros path Hpath. by apply write_file_other.
    + unfold write_file. by destruct (writable _ _).
    + unfold write_file. by destruct (writable _ _).
Qed.

(** X11. The client starts the licensed application exactly when
    [license.lic] can be read and parses to an object whose fingerprint
    (member [hardwareFingerprint], or [hardwareId] when that one is empty)
    equals the fingerprint of the machine, whose [signature] is not empty,
    [public_key.pem] exists and [verifyLicense] accepts the signature. The
    exit code is then that of the application; in every other case it is
    1. *)
Theorem application_starts_iff (w : World) :
  (StartMainApplication ∈ events (main w)
   ↔ ∃ jsonData obj,
       open_read (file_system w) "license.lic" = Some jsonData
       ∧ QJsonDocument_fromJson w jsonData = ParsedObject obj
       ∧ license_fingerprint obj = getHardwareFingerprint (system_info w)
       ∧ toString (obj !! "signature") ≠ EmptyString
       ∧ file_exists (file_system w) "public_key.pem" = true
       ∧ verifyLicense (file_system w) (getHardwareFingerprint (system_info w))
           (toString (obj !! "signature")) "public_key.pem" = true)
  ∧ (StartMainApplication ∈ events (main w) → exit_code (main w) = app_exec w)
  ∧ (StartMainApplication ∉ events (main w) → exit_code (main w) = 1).
Proof.
  assert (∀ title text, StartMainApplication ∉ [MessageBox_critical title text])
    as Hbox.
  { intros title text Hin. apply list_elem_of_singleton in Hin. discriminate. }
  assert (isEmpty (getHardwareFingerprint (system_info w)) = false) as Hfp.
  { unfold isEmpty. by rewrite fingerprint_length. }
  unfold main.
  destruct (file_exists (file_system w) "license.lic") eqn:He; cbn [negb].
  - destruct (open_read (file_system w) "license.lic") as [jsonData|] eqn:Ho.
    + destruct (QJsonDocument_fromJson w jsonData) as [|?|obj] eqn:Hparse.
      * cbn [events exit_code]. split_and!; [| by intros ?%Hbox | done].
        split; [by intros ?%Hbox |]. intros (? & ? & [= <-] & ? & _). congruence.
      * cbn [events exit_code]. split_and!; [| by intros ?%Hbox | done].
        split; [by intros ?%Hbox |]. intros (? & ? & [= <-] & ? & _). congruence.
      * destruct (isEmpty (license_fingerprint obj)) eqn:Hlf; cbn [orb].
        { cbn [events exit_code]. split_and!; [| by intros ?%Hbox | done].
          split; [by intros ?%Hbox |].
          intros (? & obj' & [= <-] & Hp & Heq & _).
          rewrite Hparse in Hp. injection Hp as <-. congruence. }
        destruct (isEmpty (toString (obj !! "signature"))) eqn:Hsig.
        { cbn [events exit_code]. split_and!; [| by intros ?%Hbox | done].
          split; [by intros ?%Hbox |].
          intros (? & obj' & [= <-] & Hp & _ & Hne & _).
          rewrite Hparse in Hp. injection Hp as <-.
          by apply isEmpty_true in Hsig. }
        destruct (String.eqb_spec (getHardwareFingerprint (system_info w))
                    (license_fingerprint obj)) as [Heq | Hneq]; cbn [negb].
        2:{ cbn [events exit_code]. split_and!; [| by intros ?%Hbox | done].
            split; [by intros ?%Hbox |].
            intros (? & obj' & [= <-] & Hp & Heq & _).
            rewrite Hparse in Hp. injection Hp as <-. congruence. }
        destruct (file_exists (file_system w) "public_key.pem") eqn:Hpub; cbn [negb].
        2:{ cbn [events exit_code]. split_and!; [| by intros ?%Hbox | done].
            split; [by intros ?%Hbox |].
            intros (? & obj' & _ & _ & _ & _ & ? & _). congruence. }
        destruct (verifyLicense (file_system w) _ _ "public_key.pem") eqn:Hv.
        { cbn [events exit_code]. split_and!; [| done |].
          - split; [| intros _; apply list_elem_of_further, list_elem_of_here].
            intros _. exists jsonData, obj. split_and!; try done.
            by apply isEmpty_false.
          - intros Hn. exfalso. apply Hn, list_elem_of_further, list_elem_of_here. }
        { cbn [events exit_code].
          assert (StartMainApplication
                  ∉ [VerifyLicense (getHardwareFingerprint (system_info w))
                       (toString (obj !! "signature")) "public_key.pem";
                     MessageBox_critical "Invalid License"
                       "Signature could not be verified."]) as Hn.
          { intros Hin. apply elem_of_cons in Hin as [? | Hin]; [done |].
            by apply Hbox in Hin. }
          split_and!; [| done | done].
          split; [done |].
          intros (? & obj' & [= <-] & Hp & _ & _ & _ & Hv').
          rewrite Hparse in Hp. injection Hp as <-. congruence. }
    + cbn [events exit_code]. split_and!; [| by intros ?%Hbox | done].
      split; [by intros ?%Hbox |]. intros (? & ? & ? & _). congruence.
  - cbn [events exit_code].
    assert (∀ title text, StartMainApplication ∉ [MessageBox_information title text])
      as Hinfo.
    { intros title text Hin. apply list_elem_of_singleton in Hin. discriminate. }
    split_and!; [| by intros ?%Hinfo | done].
    split; [by intros ?%Hinfo |].
    intros (? & ? & Ho%open_read_exists & _). congruence.
Qed.

End Programs.

Section EndToEnd.
Context `{OpenSSL} `{Nlohmann}.

Lemma toString_hardwareFingerprint (hardwareId : string) (sig : list uchar) :
  license_fingerprint (license_object hardwareId sig) = hardwareId.
Proof.
  unfold license_fingerprint.
  destruct (license_object_lookup hardwareId sig) as (-> & _ & ->).
  reflexivity.
Qed.

(** X12. The two programs in one directory, with a pair of 2048-bit keys
    and a parser that reads back the text of the license: the client
    started without a license leaves a request; the license server run on it
    ends with exit code 0; the client started again verifies the signature
    of the license, starts the application and ends with its exit code. *)
Theorem request_issue_accept (w : World) (privKeyFile pubKeyFile : string)
    (privateKey pubKey : EVP_PKEY) (sig : list uchar) :
  file_exists (file_system w) "license.lic" = false →
  readable (file_system w) "hardware_id.txt" = true →
  writable (file_system w) "hardware_id.txt" = true →
  readable (file_system w) "license.lic" = true →
  writable (file_system w) "license.lic" = true →
  open_read (file_system w) "private_key.pem" = Some privKeyFile →
  open_read (file_system w) "public_key.pem" = Some pubKeyFile →
  PEM_read_PrivateKey privKeyFile = Some privateKey →
  PEM_read_PUBKEY pubKeyFile = Some pubKey →
  EVP_MD_CTX_new = true →
  EVP_SignFinal (getHardwareFingerprint (system_info w)) privateKey = Some sig →
  List.length sig = 256%nat →
  EVP_VerifyInit_ex = 1 →
  EVP_VerifyUpdate (getHardwareFingerprint (system_info w)) = 1 →
  EVP_VerifyFinal (getHardwareFingerprint (system_info w)) sig pubKey = 1 →
  QJsonDocument_fromJson w
    (dump (license_object (getHardwareFingerprint (system_info w)) sig) 4)
  = ParsedObject (license_object (getHardwareFingerprint (system_info w)) sig) →
  ∃ licensed,
    LicenseServer.main (file_system_after (main w)) = Returns (0, licensed)
    ∧ events (main (in_directory w licensed))
      = [VerifyLicense (getHardwareFingerprint (system_info w)) (hex_of_bytes sig)
           "public_key.pem";
         StartMainApplication]
    ∧ exit_code (main (in_directory w licensed)) = app_exec w.
Proof.
  intros Hnone Hr_id Hw_id Hr_lic Hw_lic Hpriv Hpub Hkey Hpubkey Hctx Hsign Hlen
    Hinit Hupdate Hfinal Hparse.
  set (fp := getHardwareFingerprint (system_info w)) in *.
  set (fs := file_system w) in *.
  set (fs1 := write_file fs "hardware_id.txt" (fp +:+ LF)).
  set (fs2 := write_file fs1 "license.lic" (dump (license_object fp sig) 4)).
  assert (file_system_after (main w) = fs1) as Hafter.
  { unfold main. fold fs fp. by rewrite Hnone. }
  assert (∀ path text, path ≠ "hardware_id.txt" →
            open_read fs path = Some text → open_read fs1 path = Some text) as Hkeep1.
  { intros path text Hne. unfold open_read, fs1, write_file. rewrite Hw_id.
    cbn [readable files]. by rewrite lookup_insert_ne. }
  assert (∀ path text, path ≠ "license.lic" →
            open_read fs1 path = Some text → open_read fs2 path = Some text) as Hkeep2.
  { intros path text Hne. unfold open_read, fs2, write_file.
    replace (writable fs1 "license.lic") with true
      by (unfold fs1, write_file; by rewrite Hw_id).
    cbn [readable files]. by rewrite lookup_insert_ne. }
  assert (open_read fs1 "hardware_id.txt" = Some (fp +:+ LF)) as Hid.
  { unfold open_read, fs1, write_file. rewrite Hw_id. cbn [readable files].
    rewrite Hr_id. apply lookup_insert_eq. }
  assert (getline (fp +:+ LF) = fp) as Hline.
  { rewrite <- (append_empty_r (_ +:+ LF)), append_assoc.
    apply getline_line, fingerprint_no_line_feed. }
  assert (open_read fs2 "license.lic" = Some (dump (license_object fp sig) 4)) as Hlic.
  { unfold open_read, fs2, write_file.
    replace (writable fs1 "license.lic") with true
      by (unfold fs1, write_file; by rewrite Hw_id).
    cbn [readable files].
    replace (readable fs1 "license.lic") with true
      by (unfold fs1, write_file; rewrite Hw_id; by cbn [readable]).
    apply lookup_insert_eq. }
  exists fs2. rewrite Hafter.
  assert (LicenseServer.main fs1 = Returns (0, fs2)) as Hserver.
  { unfold LicenseServer.main. rewrite Hid, Hline.
    assert (generateLicense fs1 fp "private_key.pem" "license.lic"
            = Returns (true, fs2)) as ->; [| done].
    apply (generateLicense_issues _ _ _ _ privKeyFile privateKey sig);
      [by apply Hkeep1 | done | done | done | lia |].
    unfold fp, getHardwareFingerprint. apply utf8_valid_hex_of_bytes. }
  split; [exact Hserver |].
  assert (verifyLicense fs2 fp (hex_of_bytes sig) "public_key.pem" = true) as Hverify.
  { apply verifyLicense_true_iff. exists sig, pubKeyFile, pubKey.
    split_and!; try done.
    - unfold decode_signature.
      by rewrite takes_hex_branch_hex_of_bytes, decode_hex_hex_of_bytes.
    - by apply Hkeep2, Hkeep1. }
  assert (main (in_directory w fs2)
          = {| exit_code := app_exec w;
               events := [VerifyLicense fp (hex_of_bytes sig) "public_key.pem";
                          StartMainApplication];
               file_system_after := fs2 |}) as ->; [| done].
  unfold main, in_directory.
  cbn [system_info file_system QJsonDocument_fromJson app_exec]. fold fp.
  rewrite (open_read_exists _ _ _ Hlic). cbn [negb]. rewrite Hlic, Hparse.
  rewrite toString_hardwareFingerprint.
  destruct (license_object_lookup fp sig) as (_ & -> & _). cbn [toString].
  assert (isEmpty fp = false) as ->.
  { unfold isEmpty, fp. by rewrite fingerprint_length. }
  assert (isEmpty (hex_of_bytes sig) = false) as ->.
  { unfold isEmpty. by rewrite hex_of_bytes_length, Hlen. }
  cbn [orb]. rewrite String.eqb_refl. cbn [negb].
  rewrite (open_read_exists fs2 "public_key.pem" pubKeyFile)
    by (by apply Hkeep2, Hkeep1).
  cbn [negb]. by rewrite Hverify.
Qed.

End EndToEnd.

(** ** The signature in upper case, and requests that are not checked *)

Lemma is_hex_char_toupper (c : ascii) : is_hex_char (toupper c) = is_hex_char c.
Proof.
  apply Bool.eqb_prop. revert c.
  apply (all_ascii_forallb (λ c, Bool.eqb (is_hex_char (toupper c)) (is_hex_char c))).
  vm_compute. reflexivity.
Qed.

Lemma strtol16_toupper (h l : ascii) :
  is_hex_char h = true → is_hex_char l = true →
  strtol16 (String (toupper h) (String (toupper l) EmptyString))
  = strtol16 (String h (String l EmptyString)).
Proof.
  assert (∀ c, is_hex_char c = true → digit16 (toupper c) = digit16 c) as Hd.
  { intros c.
    assert (∀ c, (if is_hex_char c
                  then bool_decide (digit16 (toupper c) = digit16 c)
                  else true) = true) as Hall.
    { apply all_ascii_forallb. vm_compute. reflexivity. }
    specialize (Hall c). intros Hc. rewrite Hc in Hall.
    by apply bool_decide_eq_true in Hall. }
  intros Hh Hl.
  destruct (is_hex_char_digit16 h Hh) as (vh & Hvh & _).
  destruct (is_hex_char_digit16 l Hl) as (vl & Hvl & _).
  rewrite (strtol16_two h l vh vl Hvh Hvl).
  apply strtol16_two; by rewrite Hd.
Qed.

Lemma uppercase_length (s : string) : String.length (uppercase s) = String.length s.
Proof. induction s as [|c s IH]; [done |]. cbn. by rewrite IH. Qed.

Lemma uppercase_get (s : string) (n : nat) :
  String.get n (uppercase s) = toupper <$> String.get n s.
Proof.
  revert n; induction s as [|c s IH]; intros [|n]; cbn; auto.
Qed.

Lemma isHex_loop_uppercase (s : string) : isHex_loop (uppercase s) = isHex_loop s.
Proof.
  induction s as [|c s IH]; [done |]. cbn [uppercase isHex_loop].
  by rewrite is_hex_char_toupper, IH.
Qed.

Lemma takes_hex_branch_uppercase (s : string) :
  takes_hex_branch (uppercase s) = takes_hex_branch s.
Proof.
  unfold takes_hex_branch. by rewrite isHex_loop_uppercase, uppercase_length.
Qed.

Lemma decode_hex_uppercase (s : string) :
  takes_hex_branch s = true → decode_hex (uppercase s) = decode_hex s.
Proof.
  intros Hb. unfold takes_hex_branch in Hb. apply andb_true_iff in Hb as [Hhex Hlen].
  apply Nat.eqb_eq in Hlen. rewrite isHex_loop_spec in Hhex.
  apply list_eq. intros k.
  destruct (decide (k < 256)%nat) as [Hk | Hk].
  - rewrite !decode_hex_lookup by (rewrite ?uppercase_length; done).
    destruct (get_is_Some s (2 * k)) as [h Hh]; [lia |].
    destruct (get_is_Some s (S (2 * k))) as [l Hl]; [lia |].
    rewrite (substring_two s _ h l Hh Hl).
    rewrite (substring_two (uppercase s) _ (toupper h) (toupper l));
      [| by rewrite uppercase_get, Hh | by rewrite uppercase_get, Hl].
    by rewrite strtol16_toupper by (eapply Hhex, get_elem_of; eassumption).
  - rewrite !lookup_ge_None_2; [done | |]; rewrite decode_hex_length; lia.
Qed.

Section Case.
Context `{OpenSSL}.

Lemma decode_signature_uppercase (s : string) :
  takes_hex_branch s = true →
  decode_signature (uppercase s) = decode_signature s.
Proof.
  intros Hb. unfold decode_signature.
  by rewrite takes_hex_branch_uppercase, Hb, decode_hex_uppercase.
Qed.

(** X13. A signature that takes the hexadecimal branch is read without
    regard to the case of its letters: a text that differs from it in the
    case of letters only takes the same branch, decodes to the same bytes
    and gets the same answer from [verifyLicense]. *)
Theorem hexadecimal_signature_ignores_case (fs : FileSystem)
    (hash s t publicKeyPath : string) :
  takes_hex_branch s = true →
  same_up_to_case s t →
  takes_hex_branch t = true
  ∧ decode_signature t = decode_signature s
  ∧ verifyLicense fs hash t publicKeyPath = verifyLicense fs hash s publicKeyPath.
Proof.
  intros Hs Hst. unfold same_up_to_case in Hst.
  assert (takes_hex_branch t = true) as Ht.
  { by rewrite <- takes_hex_branch_uppercase, <- Hst, takes_hex_branch_uppercase. }
  assert (decode_signature t = decode_signature s) as Hd.
  { by rewrite <- (decode_signature_uppercase t), <- Hst, decode_signature_uppercase. }
  split_and!; [done | done |]. unfold verifyLicense. by rewrite Hd.
Qed.

End Case.

Section Unchecked.
Context `{OpenSSL} `{Nlohmann}.

(** X14. The license server does not check the request. Where the signing
    context is allocated, the key is loaded and signs the first line of
    [hardware_id.txt] with at most the 256 bytes of [sig], and that line is
    UTF-8 (empty, or ending with a carriage return, as it may be), the
    server ends with exit code 0 and hands out a license for that line. A
    client whose fingerprint is not that line rejects the license with exit
    code 1 without verifying the signature: as a license with a missing
    member when the line is empty, as a license of another machine
    otherwise. *)
Theorem request_is_signed_unchecked (fs : FileSystem) (w : World)
    (file privKeyFile jsonData : string) (privateKey : EVP_PKEY) (sig : list uchar) :
  open_read fs "hardware_id.txt" = Some file →
  open_read fs "private_key.pem" = Some privKeyFile →
  PEM_read_PrivateKey privKeyFile = Some privateKey →
  EVP_MD_CTX_new = true →
  EVP_SignFinal (getline file) privateKey = Some sig →
  (List.length sig ≤ 256)%nat →
  utf8_valid (getline file) = true →
  open_read (file_system w) "license.lic" = Some jsonData →
  QJsonDocument_fromJson w jsonData
  = ParsedObject (license_object (getline file) sig) →
  getline file ≠ getHardwareFingerprint (system_info w) →
  LicenseServer.main fs
  = Returns (0, write_file fs "license.lic"
                  (dump (license_object (getline file) sig) 4))
  ∧ exit_code (main w) = 1
  ∧ no_verification (events (main w))
  ∧ (getline file = EmptyString →
     events (main w)
     = [MessageBox_critical "Invalid License"
          "License file is missing hardwareFingerprint or signature."])
  ∧ (getline file ≠ EmptyString → sig ≠ [] →
     events (main w)
     = [MessageBox_critical "Hardware Fingerprint Mismatch"
          "This license is not valid for this machine."]).
Proof.
  intros Hfile Hpriv Hkey Hctx Hsign Hlen Hutf8 Hlic Hparse Hne.
  assert (license_fingerprint (license_object (getline file) sig) = getline file)
    as Hfp.
  { unfold license_fingerprint.
    destruct (license_object_lookup (getline file) sig) as (-> & _ & ->).
    reflexivity. }
  assert (toString (license_object (getline file) sig !! "signature")
          = hex_of_bytes sig) as Hsig.
  { by destruct (license_object_lookup (getline file) sig) as (_ & -> & _). }
  split.
  { unfold LicenseServer.main. rewrite Hfile.
    by rewrite (generateLicense_issues fs _ _ _ privKeyFile privateKey sig). }
  destruct (decide (getline file = EmptyString
                    ∨ hex_of_bytes sig = EmptyString)) as [He | He].
  - rewrite (main_missing_field w jsonData _ Hlic Hparse)
      by (rewrite Hfp, Hsig; exact He).
    cbn [exit_code events]. split_and!; [done | apply no_verification_box | done |].
    intros Hid Hs. destruct He as [He | He]; [done |].
    destruct sig as [|b sig]; [done |].
    pose proof (hex_of_bytes_length (b :: sig)) as Hl. rewrite He in Hl.
    cbn in Hl. lia.
  - assert (getline file ≠ EmptyString ∧ hex_of_bytes sig ≠ EmptyString)
      as [Hid Hs] by (split; intros ?; apply He; auto).
    rewrite (main_mismatch w jsonData _ Hlic Hparse)
      by (rewrite ?Hfp, ?Hsig; done).
    cbn [exit_code events]. split_and!; [done | apply no_verification_box | done | done].
Qed.

End Unchecked.

Module Trials.
Import Sample Run Field Desk.

Lemma fingerprint_degraded : getHardwareFingerprint degraded_system = fingerprint.
Proof. vm_compute. reflexivity. Qed.

Lemma request_file_round_trip_witness :
  exit_code (main unlicensed) = 1
  ∧ no_verification (events (main unlicensed))
  ∧ ∃ file,
      open_read (file_system_after (main unlicensed)) "hardware_id.txt" = Some file
      ∧ getline file = getHardwareFingerprint (system_info unlicensed).
Proof.
  apply (request_file_round_trip unlicensed); reflexivity.
Defined.

Lemma server_main_request :
  LicenseServer.main request
  = Returns (0, write_file request "license.lic" (license_text sig_2048)).
Proof.
  unfold LicenseServer.main.
  assert (open_read request "hardware_id.txt" = Some (fingerprint +:+ LF)) as ->
    by reflexivity.
  assert (getline (fingerprint +:+ LF) = fingerprint) as ->
    by (vm_compute; reflexivity).
  assert (generateLicense request fingerprint "private_key.pem" "license.lic"
          = Returns (true, write_file request "license.lic" (license_text sig_2048)))
    as ->; [| done].
  apply (generateLicense_issues _ _ _ _ "KEY 2048" key_2048 sig_2048);
    [reflexivity | reflexivity | reflexivity | reflexivity
    | rewrite Checks.sig_2048_length; lia | reflexivity].
Qed.

Lemma server_main_effects_witness :
  ∃ code fs',
    LicenseServer.main request = Returns (code, fs')
    ∧ (code = 0 ∨ code = 1)
    ∧ (code = 1 → fs' = request)
    ∧ (∀ path, path ≠ "license.lic" → files fs' !! path = files request !! path)
    ∧ (∀ file privKeyFile privateKey sig,
         open_read request "hardware_id.txt" = Some file →
         open_read request "private_key.pem" = Some privKeyFile →
         PEM_read_PrivateKey privKeyFile = Some privateKey →
         EVP_SignFinal (getline file) privateKey = Some sig →
         code = 0)
    ∧ (code = 0 →
       ∃ hardwareId tail privKeyFile privateKey sig,
         open_read request "hardware_id.txt" = Some (hardwareId +:+ tail)
         ∧ no_line_feed hardwareId
         ∧ (tail = EmptyString ∨ ∃ t, tail = LF +:+ t)
         ∧ open_read request "private_key.pem" = Some privKeyFile
         ∧ PEM_read_PrivateKey privKeyFile = Some privateKey
         ∧ EVP_SignFinal hardwareId privateKey = Some sig
         ∧ fs' = write_file request "license.lic"
                   (dump (license_object hardwareId sig) 4)).
Proof.
  apply (server_main_effects request).
  - reflexivity.
  - intros privKeyFile privateKey data sig Ho Hp Hs.
    assert (open_read request "private_key.pem" = Some "KEY 2048") as Ho'
      by reflexivity.
    rewrite Ho' in Ho. injection Ho as <-.
    assert (PEM_read_PrivateKey "KEY 2048" = Some key_2048) as Hp' by reflexivity.
    rewrite Hp' in Hp. injection Hp as <-.
    change (sign data key_2048 = Some sig) in Hs. unfold sign in Hs.
    pose proof (f_equal (λ o, List.length (default [] o)) Hs) as Hl.
    cbv beta in Hl. cbn [default from_option id] in Hl.
    rewrite <- Hl, length_take.
    change (modulus_bytes key_2048) with 256%nat. lia.
  - intros file Ho.
    assert (open_read request "hardware_id.txt" = Some (fingerprint +:+ LF)) as Ho'
      by reflexivity.
    rewrite Ho' in Ho. injection Ho as <-. vm_compute. reflexivity.
Defined.

Lemma request_issue_accept_witness :
  ∃ licensed,
    LicenseServer.main (file_system_after (main unlicensed)) = Returns (0, licensed)
    ∧ events (main (in_directory unlicensed licensed))
      = [VerifyLicense (getHardwareFingerprint (system_info unlicensed))
           (hex_of_bytes sig_2048) "public_key.pem";
         StartMainApplication]
    ∧ exit_code (main (in_directory unlicensed licensed)) = app_exec unlicensed.
Proof.
  apply (request_issue_accept unlicensed "KEY 2048" "KEY 2048" key_2048 key_2048
           sig_2048).
  - reflexivity.
  - reflexivity.
  - reflexivity.
  - reflexivity.
  - reflexivity.
  - reflexivity.
  - reflexivity.
  - reflexivity.
  - reflexivity.
  - reflexivity.
  - change (system_info unlicensed) with degraded_system.
    rewrite fingerprint_degraded. apply Checks.sign_2048.
  - apply Checks.sig_2048_length.
  - reflexivity.
  - reflexivity.
  - change (system_info unlicensed) with degraded_system.
    rewrite fingerprint_degraded. apply Checks.verify_2048.
  - change (system_info unlicensed) with degraded_system.
    rewrite fingerprint_degraded. unfold unlicensed, parse.
    cbn [QJsonDocument_fromJson]. fold (license_text sig_2048).
    by rewrite String.eqb_refl.
Defined.

Lemma request_is_signed_unchecked_witness :
  LicenseServer.main request_crlf
  = Returns (0, write_file request_crlf "license.lic"
                  (dump (license_object
                           (getline (fingerprint +:+ Field.CR +:+ LF)) sig_crlf) 4))
  ∧ exit_code (main licensed_crlf) = 1
  ∧ no_verification (events (main licensed_crlf))
  ∧ (getline (fingerprint +:+ Field.CR +:+ LF) = EmptyString →
     events (main licensed_crlf)
     = [MessageBox_critical "Invalid License"
          "License file is missing hardwareFingerprint or signature."])
  ∧ (getline (fingerprint +:+ Field.CR +:+ LF) ≠ EmptyString → sig_crlf ≠ [] →
     events (main licensed_crlf)
     = [MessageBox_critical "Hardware Fingerprint Mismatch"
          "This license is not valid for this machine."]).
Proof.
  apply (request_is_signed_unchecked request_crlf licensed_crlf
           (fingerprint +:+ Field.CR +:+ LF) "KEY 2048" "{...}" key_2048 sig_crlf).
  - reflexivity.
  - reflexivity.
  - reflexivity.
  - reflexivity.
  - vm_compute. reflexivity.
  - vm_compute. lia.
  - vm_compute. reflexivity.
  - reflexivity.
  - vm_compute. reflexivity.
  - vm_compute. discriminate.
Defined.

Lemma hexadecimal_signature_ignores_case_witness :
  takes_hex_branch sig_upper = true
  ∧ decode_signature sig_upper = decode_signature (hex_of_bytes sig_2048)
  ∧ verifyLicense client_2048 fingerprint sig_upper "public_key.pem"
    = verifyLicense client_2048 fingerprint (hex_of_bytes sig_2048) "public_key.pem".
Proof.
  apply hexadecimal_signature_ignores_case.
  - apply takes_hex_branch_hex_of_bytes, Checks.sig_2048_length.
  - unfold same_up_to_case, sig_upper. vm_compute. reflexivity.
Defined.

End Trials.
